(** * PyGeode: axis lookup, array reductions and climatological trends

    A shallow embedding of [pygeode/var.py] (axis lookup on [Var]),
    [pygeode/reduce.py] (the [ReducedVar] family) and [pygeode/climat.py]
    (time-axis reductions, linear trend and its reconstruction), with the
    properties of the written specification stated over it.

    Python exceptions are values of [result]; numpy arrays are lists; the
    element type of an array (its dtype) is an instance of [Elem], with two
    instances: [val], exact rational arithmetic extended by a NaN, on which
    the algebraic properties are proved, and [float], IEEE binary64, on
    which concrete float64 results are evaluated. *)

From Stdlib Require Import String.
From Stdlib Require Import List ZArith QArith Qcanon Bool Lia Permutation.
From Stdlib Require Import PrimFloat Uint63.
From Stdlib Require Import Ascii.
Import ListNotations.

Set Implicit Arguments.

(* ===================================================================== *)
(** ** Exceptions *)

Inductive exn : Type :=
| KeyError
| TypeError
| IndexError
| AssertionError (msg : string).

Inductive result (A : Type) : Type :=
| Ok (a : A)
| Raise (e : exn).

Arguments Ok {A} a.
Arguments Raise {A} e.

Definition bind {A B : Type} (r : result A) (k : A -> result B) : result B :=
  match r with
  | Ok a => k a
  | Raise e => Raise e
  end.

Notation "x <- r ;; k" := (bind r (fun x => k))
  (at level 61, r at next level, right associativity).

Fixpoint mapM {A B : Type} (f : A -> result B) (l : list A) : result (list B) :=
  match l with
  | [] => Ok []
  | a :: l' => b <- f a ;; bs <- mapM f l' ;; Ok (b :: bs)
  end.

(* ===================================================================== *)
(** ** Array elements *)

(** The operations the reductions apply to array elements. [of_Z] is the
    conversion of a Python integer met in mixed arithmetic, [leb0 x] is the
    comparison [x <= 0]. *)
Class Elem (T : Type) : Type := {
  zero : T;
  one : T;
  nan : T;
  add : T -> T -> T;
  sub : T -> T -> T;
  mul : T -> T -> T;
  div : T -> T -> T;
  of_Z : Z -> T;
  isnan : T -> bool;
  leb0 : T -> bool
}.

Class ElemSqrt (T : Type) : Type := { sqrt : T -> T }.

(** Exact elements: a rational, or NaN. Every operation with a NaN operand
    is NaN. A quotient by zero has no rational value and is NaN, as 0/0 is
    in IEEE arithmetic; the infinities that IEEE arithmetic gives to x/0
    for other x, and to overflow, are not represented. *)
Inductive val : Type :=
| Fin (q : Qc)
| NaN.

Definition vlift2 (f : Qc -> Qc -> Qc) (a b : val) : val :=
  match a, b with
  | Fin x, Fin y => Fin (f x y)
  | _, _ => NaN
  end.

Definition vdiv (a b : val) : val :=
  match a, b with
  | Fin x, Fin y => if Qeq_bool y 0 then NaN else Fin (x / y)
  | _, _ => NaN
  end.

Definition Z2Qc (z : Z) : Qc := Q2Qc (inject_Z z).

#[export] Instance val_elem : Elem val := {|
  zero := Fin 0;
  one := Fin 1;
  nan := NaN;
  add := vlift2 Qcplus;
  sub := vlift2 Qcminus;
  mul := vlift2 Qcmult;
  div := vdiv;
  of_Z := fun z => Fin (Z2Qc z);
  isnan := fun a => match a with NaN => true | Fin _ => false end;
  leb0 := fun a => match a with NaN => false | Fin q => Qle_bool q 0 end
|}.

(** IEEE binary64 elements. *)
Definition float_of_Z (z : Z) : float :=
  if (z <? 0)%Z then PrimFloat.opp (PrimFloat.of_uint63 (Uint63.of_Z (- z)))
  else PrimFloat.of_uint63 (Uint63.of_Z z).

#[export] Instance float_elem : Elem float := {|
  zero := 0%float;
  one := 1%float;
  nan := PrimFloat.nan;
  add := PrimFloat.add;
  sub := PrimFloat.sub;
  mul := PrimFloat.mul;
  div := PrimFloat.div;
  of_Z := float_of_Z;
  isnan := PrimFloat.is_nan;
  leb0 := fun x => PrimFloat.leb x 0%float
|}.

#[export] Instance float_sqrt : ElemSqrt float := {| sqrt := PrimFloat.sqrt |}.

(** Decidable comparison of exact elements and of arrays of them. *)
Definition val_eqb (a b : val) : bool :=
  match a, b with
  | Fin x, Fin y => Qeq_bool x y
  | NaN, NaN => true
  | _, _ => false
  end.

Fixpoint list_eqb {A : Type} (eqb : A -> A -> bool) (l1 l2 : list A) : bool :=
  match l1, l2 with
  | [], [] => true
  | a :: l1', b :: l2' => eqb a b && list_eqb eqb l1' l2'
  | _, _ => false
  end.

(* ===================================================================== *)
(** ** var.py: axis lookup *)

Module VarPy.

(** What [whichaxis] asks of an axis object and of a class; the module
    [pygeode.axis] supplies them. *)
Class AxisLike (Axis Cls : Type) : Type := {
  has_alias : Axis -> string -> bool;      (* a.has_alias(name) *)
  axis_eqb : Axis -> Axis -> bool;         (* a == iaxis *)
  isinstance_of : Axis -> Cls -> bool;     (* isinstance(a, iaxis) *)
  issubclass_Axis : Cls -> bool;           (* issubclass(iaxis, Axis) *)
  axis_len : Axis -> nat                   (* len(a) *)
}.

(** The argument [iaxis] of the lookup functions: a string, an integer, an
    axis object, a class, or any other Python object. *)
Inductive pyarg (Axis Cls : Type) : Type :=
| PStr (s : string)
| PInt (i : Z)
| PAxis (a : Axis)
| PClass (c : Cls)
| PObj.

Arguments PStr {Axis Cls} s.
Arguments PInt {Axis Cls} i.
Arguments PAxis {Axis Cls} a.
Arguments PClass {Axis Cls} c.
Arguments PObj {Axis Cls}.

Inductive dtype : Type := float64 | float32 | int64 | int32.

Section Var.
Context {Axis Cls : Type} {AL : AxisLike Axis Cls}.

(** [for i,a in enumerate(axes): if p(a): return i] *)
Fixpoint first_index (p : Axis -> bool) (axes : list Axis) (i : nat) : option nat :=
  match axes with
  | [] => None
  | a :: axes' => if p a then Some i else first_index p axes' (S i)
  end.

Definition or_KeyError (o : option nat) : result nat :=
  match o with
  | Some i => Ok i
  | None => Raise KeyError
  end.

(** [issubclass(iaxis, Axis)]: a TypeError unless [iaxis] is a class. *)
Definition issubclass_arg (iaxis : pyarg Axis Cls) : result bool :=
  match iaxis with
  | PClass c => Ok (issubclass_Axis c)
  | _ => Raise TypeError
  end.

(** The test [isinstance(iaxis, int) and 0 <= iaxis < len(self.axes)]. *)
Definition int_in_range (axes : list Axis) (iaxis : pyarg Axis Cls) : option nat :=
  match iaxis with
  | PInt i =>
    if ((0 <=? i)%Z && (i <? Z.of_nat (length axes))%Z)%bool
    then Some (Z.to_nat i) else None
  | _ => None
  end.

(** [Var.whichaxis]. The chain of tests is the source's: a string; an
    integer within range; an [Axis] object; otherwise the test
    [issubclass(iaxis, Axis)] is evaluated. The final [raise KeyError] is
    reached when no branch returned. *)
Definition whichaxis (axes : list Axis) (iaxis : pyarg Axis Cls) : result nat :=
  match iaxis with
  | PStr name => or_KeyError (first_index (fun a => has_alias a name) axes 0)
  | _ =>
    match int_in_range axes iaxis with
    | Some i => Ok i
    | None =>
      match iaxis with
      | PAxis x => or_KeyError (first_index (fun a => axis_eqb a x) axes 0)
      | _ =>
        b <- issubclass_arg iaxis ;;
        match iaxis, b with
        | PClass c, true => or_KeyError (first_index (fun a => isinstance_of a c) axes 0)
        | _, _ => Raise KeyError
        end
      end
    end
  end.

(** [Var.getaxis]: [self.axes[self.whichaxis(iaxis)]]. *)
Definition getaxis (axes : list Axis) (iaxis : pyarg Axis Cls) : result Axis :=
  i <- whichaxis axes iaxis ;;
  match nth_error axes i with
  | Some a => Ok a
  | None => Raise IndexError
  end.

(** [Var.hasaxis]: only a KeyError is caught. *)
Definition hasaxis (axes : list Axis) (iaxis : pyarg Axis Cls) : result bool :=
  match whichaxis axes iaxis with
  | Ok _ => Ok true
  | Raise KeyError => Ok false
  | Raise e => Raise e
  end.

(** The attributes of a [Var] that the reductions read; [values] is present
    when the data is held in memory. *)
Record Var (A : Type) : Type := mkVar {
  axes : list Axis;
  vdtype : dtype;
  name : string;
  values : option A
}.

Definition naxes {A : Type} (v : Var A) : nat := length (axes v).
Definition shape {A : Type} (v : Var A) : list nat := map axis_len (axes v).

End Var.
End VarPy.

(** A small axis type for the examples: a name, a class and a length. *)
Inductive axis_class : Type := ClsAxis | ClsTime | ClsLat | ClsLon | ClsObject.

Record axis : Type := mkAxis {
  ax_name : string;
  ax_class : axis_class;
  ax_len : nat
}.

Definition axis_class_eqb (c d : axis_class) : bool :=
  match c, d with
  | ClsAxis, ClsAxis | ClsTime, ClsTime | ClsLat, ClsLat
  | ClsLon, ClsLon | ClsObject, ClsObject => true
  | _, _ => false
  end.

#[export] Instance axis_like : VarPy.AxisLike axis axis_class := {|
  VarPy.has_alias := fun a s => String.eqb (ax_name a) s;
  VarPy.axis_eqb := fun a b =>
    (String.eqb (ax_name a) (ax_name b) && axis_class_eqb (ax_class a) (ax_class b)
     && Nat.eqb (ax_len a) (ax_len b))%bool;
  VarPy.isinstance_of := fun a c =>
    match c with
    | ClsAxis => true
    | ClsObject => true
    | _ => axis_class_eqb (ax_class a) c
    end;
  VarPy.issubclass_Axis := fun c => match c with ClsObject => false | _ => true end;
  VarPy.axis_len := ax_len
|}.

Definition lat : axis := mkAxis "lat" ClsLat 32.
Definition lon : axis := mkAxis "lon" ClsLon 64.

(* ===================================================================== *)
(** ** view.py and tools.py: the pieces the reductions call *)

Module ToolsPy.

Section Chunks.
Context {A : Type}.

Fixpoint loop_mem_fuel (fuel budget : nat) (l : list A) : list (list A) :=
  match fuel with
  | O => []
  | S fuel' =>
    match l with
    | [] => []
    | _ => firstn budget l :: loop_mem_fuel fuel' budget (skipn budget l)
    end
  end.

(** Modelled from the spec: [View.loop_mem] of pygeode/view.py, whose
    source is not available. The region is cut, in ascending order, into
    consecutive pieces of at most [budget] elements (a budget of zero still
    lets one element through), covering it exactly once. *)
Definition loop_mem (budget : nat) (l : list A) : list (list A) :=
  loop_mem_fuel (length l) (Nat.max 1 budget) l.

(** [a[p] = f(a[p])] on a flat array; the loops below only address
    positions inside the array. *)
Fixpoint upd (p : nat) (f : A -> A) (a : list A) : list A :=
  match a, p with
  | [], _ => []
  | x :: a', O => f x :: a'
  | x :: a', S p' => x :: upd p' f a'
  end.

(** [a[idx]] for an array of indices. *)
Definition take (a : list A) (idx : list nat) : list A :=
  flat_map (fun i => match nth_error a i with Some x => [x] | None => [] end) idx.

End Chunks.

Section Arrays.
Context {T : Type} {E : Elem T}.

(** [np.zeros(shape)] and [np.zeros(shape) * np.nan] on [n] positions. *)
Definition np_zeros (n : nat) : list T := repeat zero n.
Definition np_nans (n : nat) : list T := map (fun z => mul z nan) (np_zeros n).

Fixpoint map2 (f : T -> T -> T) (a b : list T) : list T :=
  match a, b with
  | x :: a', y :: b' => f x y :: map2 f a' b'
  | _, _ => []
  end.

(** Modelled from the spec: [npsum] of pygeode/tools.py, whose source is
    not available: the sum of a chunk over the reduced axes, here of the
    elements that belong to one output position. *)
Definition npsum (row : list T) : T := fold_left add row zero.

(** [numpy.nansum] as the numpy releases of this code's time define it (and
    as the written specification words it): NaN elements count as zero, and
    a slice that holds nothing but NaN sums to NaN. *)
Definition np_nansum (row : list T) : T :=
  if forallb isnan row then nan
  else fold_left add (map (fun x => if isnan x then zero else x) row) zero.

(** Modelled from the spec: [npnansum] of pygeode/tools.py, whose source
    is not available: [numpy.nansum] over the reduced axes. *)
Definition npnansum (row : list T) : T := np_nansum row.

(** One step of [tools.loopover(var, view)]: for every output position of
    [outsl], the elements of [indata] that are reduced into it. *)
Definition chunk : Type := list (nat * list T).

(** One step of [tools.loopover([var, weights], view, var.axes)]: the data
    chunk and the weights of its elements along the reduced axes. *)
Definition wchunk : Type := (chunk * list T)%type.

(** The array as the reduction sees it: row [p] lists the elements reduced
    into output position [p]. *)
Definition array2 : Type := list (list T).

(** Modelled from the spec: [loopover] of pygeode/tools.py, whose source is
    not available. It streams the array in pieces bounded by the memory
    budget; here one output position at a time. *)
Definition loopover (budget : nat) (arr : array2) : list chunk :=
  concat (map (fun '(p, row) => map (fun piece => [(p, piece)]) (loop_mem budget row))
              (combine (seq 0 (length arr)) arr)).

(** Modelled from the spec: the same [loopover] driving the data and the
    weights in lockstep, cut at the same places. *)
Definition loopover_w (budget : nat) (arr : array2) (w : list T) : list wchunk :=
  concat (map (fun '(p, row) =>
                 map (fun piece => ([(p, map fst piece)], map snd piece))
                     (loop_mem budget (combine row w)))
              (combine (seq 0 (length arr)) arr)).

End Arrays.
End ToolsPy.

(* ===================================================================== *)
(** ** reduce.py *)

Module ReducePy.
Import VarPy ToolsPy.

(** *** Construction: [ReducedVar.__new__] and [ReducedVar.__init__] *)

Fixpoint insert_sorted (n : nat) (l : list nat) : list nat :=
  match l with
  | [] => [n]
  | m :: l' => if (n <=? m)%nat then n :: l else m :: insert_sorted n l'
  end.

(** [np.sort] *)
Definition np_sort (l : list nat) : list nat := fold_right insert_sorted [] l.

Section Construct.
Context {Axis Cls : Type} {AL : AxisLike Axis Cls}.
Context {A : Type}.

Record ReducedVar : Type := mkReduced {
  self : Var (Axis:=Axis) A;   (* what Var.__init__ sets: axes, dtype, name *)
  N : nat;                     (* self.N *)
  var : Var (Axis:=Axis) A;    (* self.var *)
  indices : list nat;          (* self.indices *)
  in_axes : list Axis          (* self.in_axes *)
}.

(** [len(axes[i])] *)
Definition len_axis (axs : list Axis) (i : nat) : nat :=
  match nth_error axs i with
  | Some a => axis_len a
  | None => 0
  end.

(** [[a for i,a in enumerate(axes) if i not in indices]], from position [i]. *)
Fixpoint not_in_indices (idx : list nat) (i : nat) (axs : list Axis) : list Axis :=
  match axs with
  | [] => []
  | a :: axs' =>
    if existsb (Nat.eqb i) idx then not_in_indices idx (S i) axs'
    else a :: not_in_indices idx (S i) axs'
  end.

(** [ReducedVar.__init__] for a single input variable. *)
Definition ReducedVar_init (v : Var A) (ids : list (pyarg Axis Cls)) : result ReducedVar :=
  let axs := axes v in
  let dt := vdtype v in
  idx <- mapM (whichaxis (axes v)) ids ;;
  let idx := np_sort idx in
  if (length idx =? 0)%nat then Raise (AssertionError "no reduction axes specified")
  else
    let n := fold_right Nat.mul 1%nat (map (len_axis axs) idx) in
    Ok {| self := mkVar (not_in_indices idx 0 axs) dt (name v) None;
          N := n; var := v; indices := idx; in_axes := axs |}.

(** What the call [SomeReducedVar(var, indices)] hands back. *)
Inductive constructed : Type :=
| Computed (a : A)           (* new.get(): the array of values itself *)
| Loaded (v : Var (Axis:=Axis) A)    (* new.load(pbar=None): a variable held in memory *)
| Node (r : ReducedVar).     (* new: the lazy node *)

Section New.
(** [get r] is [Var.get] on the node, the subclass's [getview] over the
    whole domain; [dtype_of] reads the dtype of an array. *)
Variable get : ReducedVar -> A.
Variable dtype_of : A -> dtype.

(** [Var.load] on a node, which has no [values] of its own:
    [Var(self.axes, values=self.get(pbar=pbar))], then [copy_meta]. *)
Definition load (r : ReducedVar) : Var (Axis:=Axis) A :=
  let a := get r in
  mkVar (axes (self r)) (dtype_of a) (name (self r)) (Some a).

(** [hasattr(v, 'values')] *)
Definition hasattr_values (v : Var (Axis:=Axis) A) : bool :=
  match values v with Some _ => true | None => false end.

(** [ReducedVar.__new__] for a single input variable, followed for the
    node it returns by the [__init__] call that Python makes on an
    instance of the class. *)
Definition ReducedVar_new (v : Var A) (ids : list (pyarg Axis Cls)) : result constructed :=
  if (length ids =? 0)%nat then
    r <- ReducedVar_init v (map (fun i => PInt (Z.of_nat i)) (seq 0 (naxes v))) ;;
    Ok (Computed (get r))
  else if hasattr_values v then
    r <- ReducedVar_init v ids ;;
    Ok (Loaded (load r))
  else
    r <- ReducedVar_init v ids ;;
    Ok (Node r).

End New.
End Construct.

(** *** The [getview] methods *)

Section Getview.
Context {T : Type} {E : Elem T}.

(** [for outsl, (indata,) in loopover(...): out[outsl] = f(out[outsl], g(indata))] *)
Definition accumulate (f : T -> T -> T) (g : list T -> T)
    (out : list T) (loop : list (chunk (T:=T))) : list T :=
  fold_left
    (fun out ch => fold_left (fun o '(p, row) => upd p (fun x => f x (g row)) o) ch out)
    loop out.

(** The NaN-safe increment [np.nansum([out[outsl], part], 0)]. *)
Definition nansum2 (a b : T) : T := np_nansum [a; b].

Definition SumVar_getview (n : nat) (loop : list chunk) : list T :=
  accumulate add npsum (np_zeros n) loop.

Definition NANSumVar_getview (n : nat) (loop : list chunk) : list T :=
  accumulate nansum2 npnansum (np_nans n) loop.

(** [return out / self.N] *)
Definition MeanVar_getview (N : nat) (n : nat) (loop : list chunk) : list T :=
  let out := accumulate add npsum (np_zeros n) loop in
  map (fun o => div o (of_Z (Z.of_nat N))) out.

(** The count of [NANMeanVar] sums [1. + indata*0.] over each chunk. *)
Definition ones_like (row : list T) : list T :=
  map (fun x => add one (mul x zero)) row.

Definition NANMeanVar_getview (n : nat) (loop : list chunk) : list T :=
  let out := accumulate nansum2 npnansum (np_nans n) loop in
  let Ncount := accumulate nansum2 (fun row => npnansum (ones_like row)) (np_nans n) loop in
  map2 div out Ncount.

(** [x /= N; return (x2 - N*x**2) / (N - 1)] *)
Definition VarianceVar_getview (N : nat) (n : nat) (loop : list chunk) : list T :=
  let x := accumulate add npsum (np_zeros n) loop in
  let x2 := accumulate add (fun row => npsum (map (fun e => mul e e) row)) (np_zeros n) loop in
  let x := map (fun e => div e (of_Z (Z.of_nat N))) x in
  map2 (fun a b => div (sub a (mul (of_Z (Z.of_nat N)) (mul b b)))
                       (of_Z (Z.of_nat N - 1)))
       x2 x.

(** [SDVar.getview] on the array that [VarianceVar.getview] returns:
    [variance[np.where(variance<=0)] = 0; return np.sqrt(variance)] *)
Definition SDVar_getview {S : ElemSqrt T} (N : nat) (n : nat) (loop : list chunk) : list T :=
  let variance := VarianceVar_getview N n loop in
  let variance := map (fun v => if leb0 v then zero else v) variance in
  map sqrt variance.

(** The weighted loops: [out[outsl] = f(out[outsl], g(indata, inw))]. *)
Definition accumulate_w (f : T -> T -> T) (g : list T -> list T -> T)
    (out : list T) (loop : list (wchunk (T:=T))) : list T :=
  fold_left
    (fun out '(ch, inw) =>
       fold_left (fun o '(p, row) => upd p (fun x => f x (g row inw)) o) ch out)
    loop out.

Definition WeightedSumVar_getview (n : nat) (loop : list wchunk) : list T :=
  accumulate_w add (fun row inw => npsum (map2 mul row inw)) (np_zeros n) loop.

Definition WeightedNANSumVar_getview (n : nat) (loop : list wchunk) : list T :=
  accumulate_w nansum2 (fun row inw => npnansum (map2 mul row inw)) (np_nans n) loop.

(** [f = indata.size / (inw.size * out[outsl].size)], an integer quotient *)
Definition broadcast_factor (ch : chunk (T:=T)) (inw : list T) : nat :=
  (list_sum (map (fun '(_, row) => length row) ch) / (length inw * length ch))%nat.

Definition WeightedMeanVar_getview (n : nat) (loop : list wchunk) : list T :=
  let out := accumulate_w add (fun row inw => npsum (map2 mul row inw)) (np_zeros n) loop in
  let W :=
    fold_left
      (fun W '(ch, inw) =>
         let f := broadcast_factor ch inw in
         fold_left (fun o '(p, _) =>
                      upd p (fun x => add x (mul (npsum inw) (of_Z (Z.of_nat f)))) o) ch W)
      loop (np_zeros n) in
  map2 div out W.

Definition WeightedNANMeanVar_getview (n : nat) (loop : list wchunk) : list T :=
  let out := accumulate_w nansum2 (fun row inw => npnansum (map2 mul row inw)) (np_nans n) loop in
  let W := accumulate_w nansum2
             (fun row inw => npnansum (map2 add inw (map (fun x => mul x zero) row)))
             (np_nans n) loop in
  map2 div out W.

(** *** The entry points [sum], [nansum], [mean], [nanmean], [variance] *)

(** A variable as the entry points see it once the reduced axes are fixed:
    its elements per output position, the number [nred] of values reduced
    into each, and what [var.getweights(axes)] returns: the product of the
    weights of the reduced axes along the reduced elements, or [None] for
    the degenerate variable without axes that stands for no weights. *)
Record data : Type := mkData {
  rows : array2 (T:=T);
  nred : nat;
  getweights : option (list T)
}.

(** The keyword argument [weights]: a boolean, [None], or a variable (given
    as [getweights] gives it). *)
Inductive weights_kw : Type :=
| W_True
| W_False
| W_None
| W_Var (w : option (list T)).

Inductive node : Type :=
| SumVar (v : data)
| WeightedSumVar (v : data) (weights : list T)
| NANSumVar (v : data)
| WeightedNANSumVar (v : data) (weights : list T)
| MeanVar (v : data)
| WeightedMeanVar (v : data) (weights : list T)
| NANMeanVar (v : data)
| WeightedNANMeanVar (v : data) (weights : list T)
| VarianceVar (v : data).

(** [weights = kwargs.pop('weights', default)], then the default weights of
    the variable when [weights is True]; the result is [None] when
    [weights is False or weights is None or weights.naxes == 0]. *)
Definition pop_weights (default : weights_kw) (kwargs : option weights_kw) (v : data)
  : option (list T) :=
  let weights := match kwargs with Some w => w | None => default end in
  let weights := match weights with W_True => W_Var (getweights v) | w => w end in
  match weights with
  | W_Var (Some w) => Some w
  | _ => None
  end.

Definition sum (v : data) (kwargs : option weights_kw) : node :=
  match pop_weights W_False kwargs v with
  | None => SumVar v
  | Some w => WeightedSumVar v w
  end.

Definition nansum (v : data) (kwargs : option weights_kw) : node :=
  match pop_weights W_True kwargs v with
  | None => NANSumVar v
  | Some w => WeightedNANSumVar v w
  end.

Definition mean (v : data) (kwargs : option weights_kw) : node :=
  match pop_weights W_True kwargs v with
  | None => MeanVar v
  | Some w => WeightedMeanVar v w
  end.

Definition nanmean (v : data) (kwargs : option weights_kw) : node :=
  match pop_weights W_True kwargs v with
  | None => NANMeanVar v
  | Some w => WeightedNANMeanVar v w
  end.

Definition variance (v : data) : node := VarianceVar v.

(** The values of a node over its whole domain, streamed under a memory
    budget. *)
Definition getview (budget : nat) (nd : node) : list T :=
  match nd with
  | SumVar v => SumVar_getview (length (rows v)) (loopover budget (rows v))
  | WeightedSumVar v w =>
      WeightedSumVar_getview (length (rows v)) (loopover_w budget (rows v) w)
  | NANSumVar v => NANSumVar_getview (length (rows v)) (loopover budget (rows v))
  | WeightedNANSumVar v w =>
      WeightedNANSumVar_getview (length (rows v)) (loopover_w budget (rows v) w)
  | MeanVar v => MeanVar_getview (nred v) (length (rows v)) (loopover budget (rows v))
  | WeightedMeanVar v w =>
      WeightedMeanVar_getview (length (rows v)) (loopover_w budget (rows v) w)
  | NANMeanVar v => NANMeanVar_getview (length (rows v)) (loopover budget (rows v))
  | WeightedNANMeanVar v w =>
      WeightedNANMeanVar_getview (length (rows v)) (loopover_w budget (rows v) w)
  | VarianceVar v => VarianceVar_getview (nred v) (length (rows v)) (loopover budget (rows v))
  end.

End Getview.
End ReducePy.

(* ===================================================================== *)
(** ** climat.py *)

Module ClimatPy.
Import ToolsPy.

(** The calendar fields of one timestep. *)
Record date : Type := mkDate {
  year : Z;
  month : Z;
  day : Z;
  hour : Z
}.

(** The classes that define how the time axis is mapped. *)
Inductive TimeMap : Type := Clim | Diurnal | Daily | Monthly.

(** The fields a timestep keeps on the output axis of each mapping:
    [exclude='year'], [exclude=['year','month','day']], [resolution='day'],
    [resolution='month']. *)
Definition out_fields (m : TimeMap) (d : date) : list Z :=
  match m with
  | Clim => [month d; day d; hour d]
  | Diurnal => [hour d]
  | Daily => [year d; month d; day d]
  | Monthly => [year d; month d]
  end.

Fixpoint fields_eqb (a b : list Z) : bool :=
  match a, b with
  | [], [] => true
  | x :: a', y :: b' => (x =? y)%Z && fields_eqb a' b'
  | _, _ => false
  end.

Fixpoint index_of (k : list Z) (ct : list (list Z)) : option nat :=
  match ct with
  | [] => None
  | c :: ct' =>
    if fields_eqb c k then Some O
    else match index_of k ct' with Some i => Some (S i) | None => None end
  end.

Fixpoint uniquify (seen : list (list Z)) (l : list (list Z)) : list (list Z) :=
  match l with
  | [] => []
  | k :: l' =>
    match index_of k seen with
    | Some _ => uniquify seen l'
    | None => k :: uniquify (k :: seen) l'
    end
  end.

(** Modelled from the spec: [Time.modify(..., uniquify=True)] of
    pygeode/timeaxis.py, whose source is not available, as [get_outtime]
    calls it: drop or coarsen fields, then deduplicate. The output axis
    lists each kept combination of fields once (here in order of first
    occurrence; the order of the bins plays no part below). *)
Definition get_outtime (m : TimeMap) (intime : list date) : list (list Z) :=
  uniquify [] (map (out_fields m) intime).

(** Modelled from the spec: [Time.common_map] of pygeode/timeaxis.py, whose
    source is not available: the positions of the input axis that have a
    bin on the output axis, and for each of them its bin. *)
Definition common_map (m : TimeMap) (t : list date) (ct : list (list Z))
  : list nat * list nat :=
  let pairs :=
    flat_map (fun '(i, d) =>
                match index_of (out_fields m d) ct with
                | Some b => [(i, b)]
                | None => []
                end)
             (combine (seq 0 (length t)) t) in
  (map fst pairs, map snd pairs).

Section Climat.
Context {T : Type} {E : Elem T}.

(** A variable along its time axis, at one position of its other axes:
    the dates of the axis, [taxis.reltime(units='seconds')] (the seconds
    elapsed since the start), and the values. *)
Record tvar : Type := mkTvar {
  dates : list date;
  reltime : list T;
  tvalues : list T
}.

(** [loopover(varlist, view, pbar)] over the whole output axis [ct]: each
    step yields the data of every variable of [varlist] and the bins of
    the chunk along the output time axis (the slices into the other axes
    of the accumulation array do not arise on a time series). *)
Definition loopover (budget : nat) (m : TimeMap) (varlist : list (list T))
    (t : list date) (ct : list (list Z)) : result (list (list (list T) * list nat)) :=
  let '(inmap, outmap) := common_map m t ct in
  (* assert np.all(np.unique(outmap) == np.unique(view.integer_indices[ti])) *)
  if negb (forallb (fun b => existsb (Nat.eqb b) outmap) (seq 0 (length ct)))
  then Raise (AssertionError "")
  else
    (* assert inview.shape == climview.shape *)
    if negb (length inmap =? length outmap)%nat then Raise (AssertionError "")
    else
      let loop := combine (loop_mem budget inmap) (loop_mem budget outmap) in
      Ok (map (fun '(inv, climv) => (map (fun v => take v inv) varlist, climv)) loop).

(** Modelled from the spec: [partial_sum] of pygeode/tools.py, whose source
    is not available: every element of the chunk is added to the running
    sum of its bin, and the count of that bin goes up by one. *)
Definition partial_sum (data : list T) (sum : list T) (count : list Z) (bins : list nat)
  : list T * list Z :=
  fold_left (fun '(s, c) '(b, x) => (upd b (fun y => add y x) s, upd b Z.succ c))
            (combine bins data) (sum, count).

(** [a /= n] for an array of sums and an array of integer counts. *)
Definition div_count (a : list T) (n : list Z) : list T :=
  map2 div a (map of_Z n).

(** What [TimeOp.__init__] sets: the variable, and the time axis of the
    result as the mapping class makes it from the input time axis. *)
Record TimeOp : Type := mkTimeOp {
  timemap : TimeMap;
  var : tvar;                 (* self.var *)
  outtime : list (list Z)     (* the time axis of the result *)
}.

Definition TimeOp_init (m : TimeMap) (v : tvar) : result TimeOp :=
  Ok {| timemap := m; var := v; outtime := get_outtime m (dates v) |}.

(** [Mean.getview] over the whole output axis. *)
Definition Mean_getview (budget : nat) (op : TimeOp) : result (list T) :=
  let n := length (outtime op) in
  let sum := np_zeros n in
  let count := repeat 0%Z n in
  loop <- loopover budget (timemap op) [tvalues (var op)] (dates (var op)) (outtime op) ;;
  let '(sum, count) :=
    fold_left (fun '(s, c) '(data, bins) =>
                 match data with
                 | [d] => partial_sum d s c bins
                 | _ => (s, c)
                 end) loop (sum, count) in
  Ok (div_count sum count).

(** [Trend.__init__] *)
Definition Trend_init (m : TimeMap) (v : tvar) : result TimeOp :=
  op <- TimeOp_init m v ;;
  if (1 <? length (dates v))%nat then Ok op
  else Raise (AssertionError "need more than one timestep for a trend").

(** The accumulators of [Trend.getview]. *)
Record trend_acc : Type := mkAcc {
  aX : list T;  nX : list Z;
  aF : list T;  nF : list Z;
  aXF : list T; nXF : list Z;
  aX2 : list T; nX2 : list Z
}.

Definition trend_step (a : trend_acc) (step : list (list T) * list nat) : trend_acc :=
  let '(chunks, bins) := step in
  match chunks with
  | [data; t] =>
    let '(F, cF) := partial_sum data (aF a) (nF a) bins in
    let '(X, cX) := partial_sum t (aX a) (nX a) bins in
    let '(XF, cXF) := partial_sum (map2 mul data t) (aXF a) (nXF a) bins in
    let '(X2, cX2) := partial_sum (map2 mul t t) (aX2 a) (nX2 a) bins in
    {| aX := X; nX := cX; aF := F; nF := cF; aXF := XF; nXF := cXF; aX2 := X2; nX2 := cX2 |}
  | _ => a
  end.

(** [Trend.getview] over the whole output domain: for every bin of the
    output time axis, the values along the coefficient axis [Coef(2)],
    the last axis of the result. *)
Definition Trend_getview (budget : nat) (op : TimeOp) : result (list (list T)) :=
  let n := length (outtime op) in
  let secs := reltime (var op) in
  let z := np_zeros n in
  let c := repeat 0%Z n in
  loop <- loopover budget (timemap op) [tvalues (var op); secs] (dates (var op)) (outtime op) ;;
  let a := fold_left trend_step loop
             {| aX := z; nX := c; aF := z; nF := c; aXF := z; nXF := c; aX2 := z; nX2 := c |} in
  let F := div_count (aF a) (nF a) in
  let X := div_count (aX a) (nX a) in
  let XF := div_count (aXF a) (nXF a) in
  let X2 := div_count (aX2 a) (nX2 a) in
  let A := map2 sub XF (map2 mul X F) in
  let B := map2 sub (map2 mul X2 F) (map2 mul X XF) in
  let D := map2 sub X2 (map2 mul X X) in
  (* out[...,coef==0] = B; out[...,coef==1] = A; out /= (X2 - X**2)[...,None] *)
  Ok (map (fun '(d, (b, a)) => [div b d; div a d]) (combine D (combine B A))).

Definition climatology (v : tvar) : result TimeOp := TimeOp_init Clim v.
Definition monthlymean (v : tvar) : result TimeOp := TimeOp_init Monthly v.
Definition climtrend (v : tvar) : result TimeOp := Trend_init Clim v.

(** [from_trend.getview] over the whole of the target axis [taxis]: the
    coefficients of the bin of each timestep are fetched ([B = coef[0,...]],
    [A = coef[1,...]]) and [A*secs + B] is returned. *)
Definition from_trend_getview (m : TimeMap) (taxis : list date) (secs : list T)
    (coeft : list (list Z)) (coef : list (list T)) : list T :=
  let at_step (c : nat) :=
    flat_map (fun d =>
                match index_of (out_fields m d) coeft with
                | Some b => match nth_error coef b with
                            | Some cs => [nth c cs nan]
                            | None => []
                            end
                | None => []
                end) taxis in
  let B := at_step 0%nat in
  let A := at_step 1%nat in
  map2 add (map2 mul A secs) B.

(** [detrend(var, return_clim=True)]: the trend is computed and loaded,
    the series is rebuilt from it, and [var - clim] is returned with
    [clim]. *)
Definition detrend (budget : nat) (v : tvar) : result (list T * list T) :=
  op <- climtrend v ;;
  coef <- Trend_getview budget op ;;
  let clim := from_trend_getview Clim (dates v) (reltime v) (outtime op) coef in
  Ok (map2 sub (tvalues v) clim, clim).

End Climat.
End ClimatPy.

(** The series 1, 2, 3, 4, 5 as a float64 variable with one axis, reduced
    over that axis: one output position, five reduced values, no weights. *)
Definition s5 : list float := [1%float; 2%float; 3%float; 4%float; 5%float].
Definition v5 : ReducePy.data := ReducePy.mkData [s5] 5 None.

(** An array with NaN elements: a row with two numbers, a row with none. *)
Definition arr_nan : list (list val) :=
  [[NaN; Fin 1; NaN; Fin (Z2Qc 2)]; [NaN; NaN]].

(** A float64 variable without NaN whose reduced axis carries the weights
    2 and 3: values 1 and 1. *)
Definition vw : ReducePy.data :=
  ReducePy.mkData [[1%float; 1%float]] 2 (Some [2%float; 3%float]).

(** A float64 variable on one axis of two points, held in memory or not,
    and the evaluation of its sum over that axis. *)
Definition pt : axis := mkAxis "pt" ClsAxis 2.
Definition v_mem : VarPy.Var (list float) :=
  VarPy.mkVar [pt] VarPy.float64 "x" (Some [1%float; 2%float]).
Definition v_lazy : VarPy.Var (list float) :=
  VarPy.mkVar [pt] VarPy.float64 "x" None.

Definition sum_get (r : ReducePy.ReducedVar (Axis:=axis) (A:=list float)) : list float :=
  match VarPy.values (ReducePy.var r) with
  | Some a => ReducePy.SumVar_getview 1 (ToolsPy.loopover 10 [a])
  | None => []
  end.

(** Two daily timesteps of one year, a day (86400 s) apart, carrying
    y = 3 t + 7: each is alone in its climatological bin. *)
Definition jan1 : ClimatPy.date := ClimatPy.mkDate 2000 1 1 0.
Definition jan2 : ClimatPy.date := ClimatPy.mkDate 2000 1 2 0.
Definition two_days : ClimatPy.tvar (T:=val) :=
  ClimatPy.mkTvar [jan1; jan2]
                  [Fin 0; Fin (Z2Qc 86400)] [Fin (Z2Qc 7); Fin (Z2Qc 259207)].
Definition two_days_f : ClimatPy.tvar (T:=float) :=
  ClimatPy.mkTvar [jan1; jan2] [0%float; 86400%float] [7%float; 259207%float].

(** Three timesteps a year apart (time counted in years), carrying
    y = 3 t + 7: all three share one climatological bin. *)
Definition yearly (n : Z) : ClimatPy.date := ClimatPy.mkDate n 1 1 0.
Definition three_years_t : list Qc := [0; 1; Z2Qc 2].
Definition three_years_x : list Qc := [Z2Qc 7; Z2Qc 10; Z2Qc 13].
Definition three_years_d : list ClimatPy.date := [yearly 2000; yearly 2001; yearly 2002].

(** A time axis of two timesteps that are one and the same instant. *)
Definition same_instant : ClimatPy.tvar (T:=float) :=
  ClimatPy.mkTvar [jan1; jan1] [0%float; 0%float] [1%float; 2%float].

(* ===================================================================== *)
(** ** Reference notions used in the statements *)

Definition sumQ (l : list Qc) : Qc := fold_right Qcplus 0 l.

Definition nat2Qc (n : nat) : Qc := Z2Qc (Z.of_nat n).

(** The arithmetic mean E[.] of a sample. *)
Definition meanQ (l : list Qc) : Qc := sumQ l / nat2Qc (length l).

(** The elements of a row that are numbers. *)
Definition finite_part (row : list val) : list Qc :=
  flat_map (fun x => match x with Fin q => [q] | NaN => [] end) row.

(** The sum of a row with its NaN elements left out, NaN when nothing is
    left. *)
Definition nan_total (row : list val) : val :=
  if forallb isnan row then NaN else Fin (sumQ (finite_part row)).

(** The pieces that a loop addresses to output position [p], in order. *)
Definition pieces_at {T : Type} (p : nat) (loop : list (list (nat * list T)))
  : list (list T) :=
  map snd (filter (fun e => (fst e =? p)%nat) (concat loop)).

(** A loop covers an array when the pieces it addresses to each output
    position are, up to order, the elements reduced into that position. *)
Definition covers {T : Type} (loop : list (list (nat * list T))) (arr : list (list T))
  : Prop :=
  forall p, Permutation (concat (pieces_at p loop)) (nth p arr []).

(** The samples of a series that reach an output axis, each with its bin:
    the series read through the index arrays of [common_map]. *)
Definition samples {A : Type} (d : A) (m : ClimatPy.TimeMap) (t : list ClimatPy.date)
    (ct : list (list Z)) (v : list A) : list (nat * A) :=
  let '(inmap, outmap) := ClimatPy.common_map m t ct in
  map (fun e => (snd e, nth (fst e) v d)) (combine inmap outmap).

(** The check of [loopover] that every bin of the output axis is reached. *)
Definition bins_covered (m : ClimatPy.TimeMap) (t : list ClimatPy.date)
    (ct : list (list Z)) : bool :=
  forallb (fun b => existsb (Nat.eqb b) (snd (ClimatPy.common_map m t ct)))
          (seq 0 (length ct)).

(** The shape of a variable along its time axis. *)
Definition wf_tvar {T : Type} (v : ClimatPy.tvar (T:=T)) : Prop :=
  length (ClimatPy.reltime v) = length (ClimatPy.dates v)
  /\ length (ClimatPy.tvalues v) = length (ClimatPy.dates v).

(** [Mean.getview] with the whole time axis taken as a single chunk. *)
Definition Mean_whole {T : Type} {E : Elem T} (op : ClimatPy.TimeOp) : result (list T) :=
  let v := ClimatPy.var op in
  let n := length (ClimatPy.outtime op) in
  if negb (bins_covered (ClimatPy.timemap op) (ClimatPy.dates v) (ClimatPy.outtime op))
  then Raise (AssertionError "")
  else
    let S := samples nan (ClimatPy.timemap op) (ClimatPy.dates v) (ClimatPy.outtime op)
                     (ClimatPy.tvalues v) in
    let '(s, c) := ClimatPy.partial_sum (map snd S) (ToolsPy.np_zeros n) (repeat 0%Z n)
                                        (map fst S) in
    Ok (ClimatPy.div_count s c).

(** One sample added to the accumulators of [Trend.getview]. *)
Definition trend_elem {T : Type} {E : Elem T} (a : ClimatPy.trend_acc) (e : nat * (T * T))
  : ClimatPy.trend_acc :=
  let '(b, (x, t)) := e in
  {| ClimatPy.aX := ToolsPy.upd b (fun y => add y t) (ClimatPy.aX a);
     ClimatPy.nX := ToolsPy.upd b Z.succ (ClimatPy.nX a);
     ClimatPy.aF := ToolsPy.upd b (fun y => add y x) (ClimatPy.aF a);
     ClimatPy.nF := ToolsPy.upd b Z.succ (ClimatPy.nF a);
     ClimatPy.aXF := ToolsPy.upd b (fun y => add y (mul x t)) (ClimatPy.aXF a);
     ClimatPy.nXF := ToolsPy.upd b Z.succ (ClimatPy.nXF a);
     ClimatPy.aX2 := ToolsPy.upd b (fun y => add y (mul t t)) (ClimatPy.aX2 a);
     ClimatPy.nX2 := ToolsPy.upd b Z.succ (ClimatPy.nX2 a) |}.

(** The last lines of [Trend.getview]: from the accumulators to the
    coefficients. *)
Definition trend_finalize {T : Type} {E : Elem T} (a : ClimatPy.trend_acc)
  : list (list T) :=
  let F := ClimatPy.div_count (ClimatPy.aF a) (ClimatPy.nF a) in
  let X := ClimatPy.div_count (ClimatPy.aX a) (ClimatPy.nX a) in
  let XF := ClimatPy.div_count (ClimatPy.aXF a) (ClimatPy.nXF a) in
  let X2 := ClimatPy.div_count (ClimatPy.aX2 a) (ClimatPy.nX2 a) in
  let A := ToolsPy.map2 sub XF (ToolsPy.map2 mul X F) in
  let B := ToolsPy.map2 sub (ToolsPy.map2 mul X2 F) (ToolsPy.map2 mul X XF) in
  let D := ToolsPy.map2 sub X2 (ToolsPy.map2 mul X X) in
  map (fun '(d, (b, a)) => [div b d; div a d]) (combine D (combine B A)).

Definition trend_acc0 {T : Type} {E : Elem T} (n : nat) : ClimatPy.trend_acc :=
  let z := ToolsPy.np_zeros n in
  let c := repeat 0%Z n in
  {| ClimatPy.aX := z; ClimatPy.nX := c; ClimatPy.aF := z; ClimatPy.nF := c;
     ClimatPy.aXF := z; ClimatPy.nXF := c; ClimatPy.aX2 := z; ClimatPy.nX2 := c |}.

(** [Trend.getview] with the whole time axis taken as a single chunk. *)
Definition Trend_whole {T : Type} {E : Elem T} (op : ClimatPy.TimeOp)
  : result (list (list T)) :=
  let v := ClimatPy.var op in
  if negb (bins_covered (ClimatPy.timemap op) (ClimatPy.dates v) (ClimatPy.outtime op))
  then Raise (AssertionError "")
  else
    let S := samples (nan, nan) (ClimatPy.timemap op) (ClimatPy.dates v) (ClimatPy.outtime op)
                     (combine (ClimatPy.tvalues v) (ClimatPy.reltime v)) in
    Ok (trend_finalize (fold_left trend_elem S (trend_acc0 (length (ClimatPy.outtime op))))).

(** The bin of a date on an output axis. *)
Definition bin_of (m : ClimatPy.TimeMap) (ct : list (list Z)) (d : ClimatPy.date) : nat :=
  match ClimatPy.index_of (ClimatPy.out_fields m d) ct with
  | Some b => b
  | None => 0
  end.

(** The samples that fall into bin [b]. *)
Definition bin_samples {A : Type} (b : nat) (S : list (nat * A)) : list A :=
  map snd (filter (fun e => (fst e =? b)%nat) S).

(** The least-squares line through samples (x, t) of a value x at time t:
    with E the arithmetic mean over the samples,
    slope = (E[tx] - E[t]E[x]) / (E[t^2] - E[t]^2) and
    intercept = (E[t^2]E[x] - E[t]E[tx]) / (E[t^2] - E[t]^2). *)
Definition Ex (bs : list (Qc * Qc)) : Qc := meanQ (map fst bs).
Definition Et (bs : list (Qc * Qc)) : Qc := meanQ (map snd bs).
Definition Etx (bs : list (Qc * Qc)) : Qc := meanQ (map (fun e => fst e * snd e) bs).
Definition Et2 (bs : list (Qc * Qc)) : Qc := meanQ (map (fun e => snd e * snd e) bs).
Definition spread (bs : list (Qc * Qc)) : Qc := Et2 bs - Et bs * Et bs.
Definition slope (bs : list (Qc * Qc)) : Qc :=
  (Etx bs - Et bs * Ex bs) / spread bs.
Definition intercept (bs : list (Qc * Qc)) : Qc :=
  (Et2 bs * Ex bs - Et bs * Etx bs) / spread bs.

(** An exact variable along its time axis. *)
Definition exact_tvar (ds : list ClimatPy.date) (tq xq : list Qc) : ClimatPy.tvar :=
  ClimatPy.mkTvar ds (map Fin tq) (map Fin xq).

(** Its samples (x, t), each with its bin on the climatological axis. *)
Definition clim_samples (ds : list ClimatPy.date) (tq xq : list Qc)
  : list (nat * (Qc * Qc)) :=
  combine (map (bin_of ClimatPy.Clim (ClimatPy.get_outtime ClimatPy.Clim ds)) ds)
          (combine xq tq).

(** The two coefficients of a bin, intercept first: NaN when its samples
    all lie at one time. *)
Definition trend_coef (bs : list (Qc * Qc)) : list val :=
  if Qeq_bool (spread bs) 0 then [NaN; NaN]
  else [Fin (intercept bs); Fin (slope bs)].

(* ===================================================================== *)
(** ** var.py: size, attribute shortcuts, keyword subsetting *)

Module VarOps.
Import VarPy.

(** [prefix, ax = k.split('_', 1)] when ['_' in k]. *)
Fixpoint split_underscore (k : string) : option (string * string) :=
  match k with
  | EmptyString => None
  | String c k' =>
    if Ascii.eqb c "_"%char then Some (EmptyString, k')
    else match split_underscore k' with
         | Some (prefix, ax) => Some (String c prefix, ax)
         | None => None
         end
  end.

(** ['m' in prefix] *)
Fixpoint contains_m (s : string) : bool :=
  match s with
  | EmptyString => false
  | String c s' => Ascii.eqb c "m"%char || contains_m s'
  end.

(** [prefix.replace('m', '')] *)
Fixpoint remove_m (s : string) : string :=
  match s with
  | EmptyString => EmptyString
  | String c s' => if Ascii.eqb c "m"%char then remove_m s' else String c (remove_m s')
  end.

(** [d[k] = v] on a dictionary kept as the list of its items. *)
Fixpoint dict_set {V : Type} (d : list (string * V)) (k : string) (v : V)
  : list (string * V) :=
  match d with
  | [] => [(k, v)]
  | (k', v') :: d' =>
    if String.eqb k' k then (k', v) :: d' else (k', v') :: dict_set d' k v
  end.

Section VarOps.
Context {Axis Cls : Type} {AL : AxisLike Axis Cls}.

(** [self.size = reduce(lambda x,y: x*y, self.shape, 1)] in [Var.__init__]. *)
Definition size {A : Type} (v : Var (Axis:=Axis) A) : nat :=
  fold_left Nat.mul (shape v) 1%nat.

(** What [Var.__getattr__] answers for a name that ordinary attribute
    lookup did not find: an axis, an AttributeError, or an exception of
    [getaxis] that it does not catch. *)
Inductive attribute : Type :=
| AxisAttr (a : Axis)
| AttributeError
| Propagated (e : exn).

(** The names [Var.__getattr__] refuses before it looks at the axes. *)
Definition not_a_shortcut (name : string) : bool :=
  String.prefix "__" name || (String.eqb name "axes" || String.eqb name "values").

(** [Var.__getattr__] *)
Definition Var_getattr (axes : list Axis) (name : string) : attribute :=
  if String.prefix "__" name then AttributeError
  else if (String.eqb name "axes" || String.eqb name "values")%bool then AttributeError
  else match getaxis axes (PStr name) with
       | Ok a => AxisAttr a
       | Raise KeyError => AttributeError
       | Raise e => Propagated e
       end.

(** One turn of the loop of [Var.__call__] over [kwargs.iteritems()]:
    [means] and [newargs] before and after the keyword [k = v]. *)
Definition call_step {V : Type} (axes : list Axis) (vname : string) (ignore_mismatch : bool)
    (st : list nat * list (string * V)) (kv : string * V)
  : result (list nat * list (string * V)) :=
  let '(means, newargs) := st in
  let '(k, v) := kv in
  let '(prefix, ax) :=
    match split_underscore k with
    | Some pa => pa
    | None => (EmptyString, k)
    end in
  let finish (means : list nat) (prefix : string) :=
    let k := if (0 <? String.length prefix)%nat then (prefix ++ "_" ++ ax)%string else ax in
    Ok (means, dict_set newargs k v) in
  if contains_m prefix then
    h <- hasaxis axes (PStr ax) ;;
    if (negb h && ignore_mismatch)%bool then Ok (means, newargs)   (* continue *)
    else
      h <- hasaxis axes (PStr ax) ;;
      if negb h then
        Raise (AssertionError ("'" ++ ax ++ "' is not a valid axis for var '" ++ vname ++ "'"))
      else
        i <- whichaxis axes (PStr ax) ;;
        finish (means ++ [i]) (remove_m prefix)
  else finish means prefix.

(** The loop of [Var.__call__] over the keyword arguments, taken in the
    order in which the dictionary yields them: the axes to average over
    and the keywords handed on to the slicing. *)
Fixpoint call_keywords {V : Type} (axes : list Axis) (vname : string) (ignore_mismatch : bool)
    (kwargs : list (string * V)) (st : list nat * list (string * V))
  : result (list nat * list (string * V)) :=
  match kwargs with
  | [] => Ok st
  | kv :: kwargs' =>
    st' <- call_step axes vname ignore_mismatch st kv ;;
    call_keywords axes vname ignore_mismatch kwargs' st'
  end.

End VarOps.
End VarOps.

(* ===================================================================== *)
(** ** reduce.py: minimum and maximum *)

Module MinMaxPy.
Import ToolsPy ReducePy.

(** What [MinVar] and [MaxVar] ask of array elements: [float('inf')],
    [float('-inf')], the comparison [a <= b] and the test for NaN. *)
Class ElemOrd (T : Type) : Type := {
  pos_inf : T;
  neg_inf : T;
  leb : T -> T -> bool;
  is_nan : T -> bool
}.

(** Exact elements with the two infinities: a rational, an infinity, or
    NaN. No comparison with a NaN holds. *)
Inductive ext : Type :=
| NegInf
| Num (q : Qc)
| PosInf
| ENaN.

Definition ext_leb (a b : ext) : bool :=
  match a, b with
  | ENaN, _ | _, ENaN => false
  | NegInf, _ => true
  | _, PosInf => true
  | Num x, Num y => Qle_bool x y
  | _, _ => false
  end.

#[export] Instance ext_ord : ElemOrd ext := {|
  pos_inf := PosInf;
  neg_inf := NegInf;
  leb := ext_leb;
  is_nan := fun a => match a with ENaN => true | _ => false end
|}.

#[export] Instance float_ord : ElemOrd float := {|
  pos_inf := PrimFloat.infinity;
  neg_inf := PrimFloat.neg_infinity;
  leb := PrimFloat.leb;
  is_nan := PrimFloat.is_nan
|}.

Section MinMax.
Context {T : Type} {O : ElemOrd T}.

(** [np.minimum] and [np.maximum] on two elements: the first operand when
    the comparison holds or when it is NaN, the second otherwise. *)
Definition minimum (a b : T) : T := if (leb a b || is_nan a)%bool then a else b.
Definition maximum (a b : T) : T := if (leb b a || is_nan a)%bool then a else b.

(** Modelled from the spec: [npmin] and [npmax] of pygeode/tools.py, whose
    source is not available: the extremum of a chunk over the reduced
    axes, here of the elements that belong to one output position. The
    loop hands over no empty chunk. *)
Definition npmin (row : list T) : T :=
  match row with
  | [] => pos_inf
  | x :: row' => fold_left minimum row' x
  end.

Definition npmax (row : list T) : T :=
  match row with
  | [] => neg_inf
  | x :: row' => fold_left maximum row' x
  end.

(** [MinVar.getview]: [out[()] = float('inf')], then
    [out[outsl] = np.minimum(out[outsl], npmin(indata, self.indices))]. *)
Definition MinVar_getview (n : nat) (loop : list (chunk (T:=T))) : list T :=
  accumulate minimum npmin (repeat pos_inf n) loop.

(** [MaxVar.getview] *)
Definition MaxVar_getview (n : nat) (loop : list (chunk (T:=T))) : list T :=
  accumulate maximum npmax (repeat neg_inf n) loop.

(** [min(var, *axes)] and [max(var, *axes)], evaluated over the whole
    domain of the result under a memory budget; the array is given as the
    reductions see it, row [p] listing the elements reduced into output
    position [p]. *)
Definition min (budget : nat) (arr : array2 (T:=T)) : list T :=
  MinVar_getview (length arr) (loopover budget arr).

Definition max (budget : nat) (arr : array2 (T:=T)) : list T :=
  MaxVar_getview (length arr) (loopover budget arr).

End MinMax.
End MinMaxPy.

(** [acc] is the extremum of the numbers [l] for the order [R]: one of
    them that is in relation [R] with all of them; [idv] when there is
    none. *)
Definition extreme_of (R : Qc -> Qc -> Prop) (idv : MinMaxPy.ext) (acc : MinMaxPy.ext)
    (l : list Qc) : Prop :=
  match l with
  | [] => acc = idv
  | _ => exists q, acc = MinMaxPy.Num q /\ In q l /\ forall y, In y l -> R q y
  end.

(* ===================================================================== *)
(** ** reduce.py: construction of the weighted reductions *)

Module WeightedPy.
Import VarPy ReducePy.

Section Weighted.
Context {Axis Cls : Type} {AL : AxisLike Axis Cls}.
Context {A : Type}.

(** [a in axes]: some element [x] of [axes] with [a == x]. *)
Definition axis_in (a : Axis) (axs : list Axis) : bool :=
  existsb (fun x => axis_eqb a x) axs.

(** [WeightedSumVar.__init__], and word for word [WeightedNANSumVar],
    [WeightedMeanVar] and [WeightedNANMeanVar]: [ReducedVar.__init__],
    then the check that the axes of the weights, [waxes], are among the
    axes of the variable that the result does not keep. *)
Definition Weighted_init (v : Var A) (ids : list (pyarg Axis Cls)) (waxes : list Axis)
  : result ReducedVar :=
  r <- ReducedVar_init v ids ;;
  let raxes := filter (fun a => negb (axis_in a (axes (self r)))) (axes v) in
  if forallb (fun a => axis_in a raxes) waxes then Ok r
  else Raise (AssertionError "The provided weights do not match the reduced axes").

End Weighted.
End WeightedPy.

(* ===================================================================== *)
(** ** var.py: loading a variable *)

Module VarLoad.
Import VarPy ReducePy.

Section Load.
Context {Axis Cls : Type} {AL : AxisLike Axis Cls}.
Context {A : Type}.

(** [get v] is [Var.get] on the variable over its whole domain;
    [dtype_of] reads the dtype of an array. *)
Variable get : Var (Axis:=Axis) A -> A.
Variable dtype_of : A -> dtype.

(** [Var.load]: the variable itself when it holds values, otherwise
    [Var(self.axes, values=self.get(pbar=pbar))] with the name that
    [copy_meta] carries over. *)
Definition Var_load (v : Var (Axis:=Axis) A) : Var (Axis:=Axis) A :=
  if hasattr_values v then v
  else mkVar (axes v) (dtype_of (get v)) (name v) (Some (get v)).

End Load.
End VarLoad.

(** A float64 variable on the axes (lat, lon) that holds no values. *)
Definition Temp : VarPy.Var (list float) :=
  VarPy.mkVar [lat; lon] VarPy.float64 "Temp" None.

(** The sample variance of a row by its definition: the squared deviations
    from the mean, summed and divided by one less than their number. *)
Definition sample_variance (row : list Qc) : Qc :=
  sumQ (map (fun x => (x - meanQ row) * (x - meanQ row)) row)
  / (nat2Qc (length row) - 1).

(** The sum of the products of the elements of a row with their weights. *)
Definition dotQ (row w : list Qc) : Qc :=
  sumQ (map (fun e => fst e * snd e) (combine row w)).

(** The elements of a row that are numbers, each with its weight. *)
Definition finite_pairs (row : list val) (w : list Qc) : list (Qc * Qc) :=
  flat_map (fun e => match fst e with Fin q => [(q, snd e)] | NaN => [] end)
           (combine row w).






(** What each lookup argument asks of an axis: the alias, equality with the
    axis object, membership of the class. *)
Definition matches {Axis Cls : Type} {AL : VarPy.AxisLike Axis Cls}
    (iaxis : VarPy.pyarg Axis Cls) (a : Axis) : bool :=
  match iaxis with
  | VarPy.PStr s => VarPy.has_alias a s
  | VarPy.PAxis x => VarPy.axis_eqb a x
  | VarPy.PClass c => VarPy.isinstance_of a c
  | _ => false
  end.

(** The keyword of [Var.__call__] reads as a request for a mean: the part
    before its first underscore holds the letter m. *)
Definition asks_mean (k : string) : bool :=
  match VarOps.split_underscore k with
  | Some (prefix, _) => VarOps.contains_m prefix
  | None => false
  end.

(** The axis name such a keyword refers to. *)
Definition key_axis (k : string) : string :=
  match VarOps.split_underscore k with
  | Some (_, ax) => ax
  | None => k
  end.

(** ** reduce.py: the NaN-aware loops under either rule of [numpy.nansum] *)

Section NansumRule.
Context {T : Type} {E : Elem T}.

(** What [numpy.nansum] returns for a slice that holds nothing but NaN:
    NaN up to numpy 1.8, zero from numpy 1.9 on. *)
Variable allnan : T.

(** [numpy.nansum] with that value left open; [np_nansum] is
    [np_nansum_rule nan]. *)
Definition np_nansum_rule (row : list T) : T :=
  if forallb isnan row then allnan
  else fold_left add (map (fun x => if isnan x then zero else x) row) zero.

(** [NANSumVar.getview]: [out = np.zeros(view.shape, self.dtype)*np.nan],
    then [out[outsl] = np.nansum([out[outsl], npnansum(indata, self.indices)], 0)]. *)
Definition NANSumVar_getview_rule (n : nat) (loop : list (ToolsPy.chunk (T:=T))) : list T :=
  ReducePy.accumulate (fun a b => np_nansum_rule [a; b]) np_nansum_rule
                      (ToolsPy.np_nans n) loop.

(** [NANMeanVar.getview]: the same loop for [out] and, over
    [1. + indata*0.], for [N]; then [out / N]. *)
Definition NANMeanVar_getview_rule (n : nat) (loop : list (ToolsPy.chunk (T:=T))) : list T :=
  let out := ReducePy.accumulate (fun a b => np_nansum_rule [a; b]) np_nansum_rule
                                 (ToolsPy.np_nans n) loop in
  let Ncount := ReducePy.accumulate (fun a b => np_nansum_rule [a; b])
                                    (fun row => np_nansum_rule (ReducePy.ones_like row))
                                    (ToolsPy.np_nans n) loop in
  ToolsPy.map2 div out Ncount.

End NansumRule.

(** ** reduce.py: the count [N] as numpy computes it *)

(** A [w]-bit signed integer: what is left of [x] after wrap-around. *)
Definition int_wrap (w : Z) (x : Z) : Z :=
  ((x + 2 ^ (w - 1)) mod 2 ^ w - 2 ^ (w - 1))%Z.

(** [np.product] of a list of lengths, in numpy's [w]-bit integers: every
    multiplication wraps around. *)
Definition np_product (w : Z) (l : list nat) : Z :=
  fold_left (fun acc n => int_wrap w (acc * Z.of_nat n)) l 1%Z.

(** The product of the same lengths in unbounded integers, as
    [reduce(lambda x,y: x*y, ..., 1)] computes [Var.size]. *)
Definition exact_product (l : list nat) : Z :=
  fold_left (fun acc n => (acc * Z.of_nat n)%Z) l 1%Z.

(** [N = [len(axes[i]) for i in indices]] *)
Definition reduced_lengths {Axis Cls : Type} {AL : VarPy.AxisLike Axis Cls} {A : Type}
    (r : ReducePy.ReducedVar (Axis:=Axis) (A:=A)) : list nat :=
  map (ReducePy.len_axis (ReducePy.in_axes r)) (ReducePy.indices r).

(** [self.N = int(np.product(N))], when numpy's integers have [w] bits. *)
Definition self_N {Axis Cls : Type} {AL : VarPy.AxisLike Axis Cls} {A : Type}
    (w : Z) (r : ReducePy.ReducedVar (Axis:=Axis) (A:=A)) : Z :=
  np_product w (reduced_lengths r).

(* ===================================================================== *)
(** * Properties *)

Import VarPy ToolsPy.

(** ** Lists, chunks and arrays *)

Lemma fold_left_concat {A B : Type} (f : A -> B -> A) (ls : list (list B)) (a : A) :
  fold_left (fun acc l => fold_left f l acc) ls a = fold_left f (concat ls) a.
Proof.
  revert a. induction ls as [|l ls IH]; intros a; simpl.
  - reflexivity.
  - rewrite fold_left_app. apply IH.
Qed.

Lemma loop_mem_fuel_concat {A : Type} (b : nat) :
  (1 <= b)%nat ->
  forall fuel (l : list A), (length l <= fuel)%nat -> concat (loop_mem_fuel fuel b l) = l.
Proof.
  intros Hb. induction fuel as [|fuel IH]; intros l Hl.
  - destruct l; simpl in *; [reflexivity | lia].
  - destruct l as [|a l]; [reflexivity|].
    destruct b as [|b']; [lia|].
    cbn [loop_mem_fuel firstn skipn concat].
    rewrite IH.
    + simpl. now rewrite firstn_skipn.
    + rewrite length_skipn. simpl in Hl. lia.
Qed.

(** The pieces of a region, put end to end, are the region. *)
Lemma loop_mem_concat {A : Type} (budget : nat) (l : list A) :
  concat (loop_mem budget l) = l.
Proof. unfold loop_mem. apply loop_mem_fuel_concat; lia. Qed.

Lemma loop_mem_whole {A : Type} (budget : nat) (l : list A) :
  l <> [] -> (length l <= budget)%nat -> loop_mem budget l = [l].
Proof.
  intros Hne Hlen. unfold loop_mem.
  destruct l as [|a l]; [contradiction|].
  cbn [length] in *. cbn [loop_mem_fuel].
  rewrite firstn_all2 by (cbn [length]; lia).
  rewrite skipn_all2 by (cbn [length]; lia).
  destruct (length l); reflexivity.
Qed.

Lemma map_fst_combine_eq {A B : Type} (l1 : list A) (l2 : list B) :
  length l1 = length l2 -> map fst (combine l1 l2) = l1.
Proof.
  revert l2. induction l1 as [|a l1 IH]; intros [|b l2] H; simpl in *;
    try discriminate; [reflexivity|]. f_equal. apply IH. lia.
Qed.

Lemma map_snd_combine_eq {A B : Type} (l1 : list A) (l2 : list B) :
  length l1 = length l2 -> map snd (combine l1 l2) = l2.
Proof.
  revert l2. induction l1 as [|a l1 IH]; intros [|b l2] H; simpl in *;
    try discriminate; [reflexivity|]. f_equal. apply IH. lia.
Qed.

Lemma skipn_combine {A B : Type} (n : nat) (l1 : list A) (l2 : list B) :
  skipn n (combine l1 l2) = combine (skipn n l1) (skipn n l2).
Proof.
  revert l1 l2. induction n as [|n IH]; intros l1 l2; [reflexivity|].
  destruct l1 as [|a l1]; [reflexivity|].
  destruct l2 as [|b l2]; simpl.
  - now destruct (skipn n l1).
  - apply IH.
Qed.

(** Two regions of one shape are cut at the same places. *)
Lemma loop_mem_fuel_combine {A B : Type} (b : nat) :
  forall fuel (l1 : list A) (l2 : list B),
    length l1 = length l2 ->
    combine (loop_mem_fuel fuel b l1) (loop_mem_fuel fuel b l2)
    = map (fun piece => (map fst piece, map snd piece))
          (loop_mem_fuel fuel b (combine l1 l2)).
Proof.
  induction fuel as [|fuel IH]; intros l1 l2 H; [reflexivity|].
  destruct l1 as [|a l1], l2 as [|c l2]; simpl in H; try discriminate; [reflexivity|].
  cbn [loop_mem_fuel combine map].
  change ((a, c) :: combine l1 l2) with (combine (a :: l1) (c :: l2)).
  rewrite skipn_combine, <- IH.
  - rewrite combine_firstn.
    rewrite map_fst_combine_eq, map_snd_combine_eq; try reflexivity;
      rewrite !length_firstn; cbn [length]; lia.
  - rewrite !length_skipn. cbn [length]. lia.
Qed.

Lemma loop_mem_combine {A B : Type} (budget : nat) (l1 : list A) (l2 : list B) :
  length l1 = length l2 ->
  combine (loop_mem budget l1) (loop_mem budget l2)
  = map (fun piece => (map fst piece, map snd piece)) (loop_mem budget (combine l1 l2)).
Proof.
  intros H. unfold loop_mem.
  rewrite length_combine, <- H, Nat.min_id.
  now apply loop_mem_fuel_combine.
Qed.

Lemma length_upd {A : Type} (p : nat) (f : A -> A) (a : list A) :
  length (upd p f a) = length a.
Proof.
  revert p. induction a as [|x a IH]; intros [|p]; simpl; auto.
Qed.

Lemma nth_error_upd {A : Type} (p q : nat) (f : A -> A) (a : list A) :
  nth_error (upd p f a) q
  = if (p =? q)%nat then option_map f (nth_error a q) else nth_error a q.
Proof.
  revert p q. induction a as [|x a IH]; intros p q.
  - destruct p, q; simpl; try reflexivity; now destruct (p =? q)%nat.
  - destruct p as [|p], q as [|q]; simpl; try reflexivity. apply IH.
Qed.

(** What a sequence of increments [a[p] = f(a[p], v)] leaves at a position:
    the increments addressed to it, applied in order. *)
Lemma nth_error_scatter {A V : Type} (f : A -> V -> A) (es : list (nat * V))
    (out : list A) (q : nat) :
  nth_error (fold_left (fun o '(p, v) => upd p (fun x => f x v) o) es out) q
  = option_map
      (fun x => fold_left f (map snd (filter (fun e => (fst e =? q)%nat) es)) x)
      (nth_error out q).
Proof.
  revert out. induction es as [|[p v] es IH]; intros out; simpl.
  - now destruct (nth_error out q).
  - rewrite IH, nth_error_upd.
    destruct (p =? q)%nat; simpl; [|reflexivity].
    now destruct (nth_error out q).
Qed.

Lemma length_scatter {A V : Type} (f : A -> V -> A) (es : list (nat * V)) (out : list A) :
  length (fold_left (fun o '(p, v) => upd p (fun x => f x v) o) es out) = length out.
Proof.
  revert out. induction es as [|[p v] es IH]; intros out; simpl; [reflexivity|].
  now rewrite IH, length_upd.
Qed.

(** ** Exact elements *)

Lemma vadd_comm (a b : val) : add a b = add b a.
Proof. destruct a, b; simpl; try reflexivity. f_equal. ring. Qed.

Lemma vadd_assoc (a b c : val) : add (add a b) c = add a (add b c).
Proof. destruct a, b, c; simpl; try reflexivity. f_equal. ring. Qed.

Lemma vadd_zero_l (a : val) : add zero a = a.
Proof. destruct a; simpl; try reflexivity. f_equal. ring. Qed.

Lemma fold_left_vadd_init (l : list val) (a : val) :
  fold_left add l a = add a (fold_left add l zero).
Proof.
  revert a. induction l as [|x l IH]; intros a.
  - simpl. destruct a; simpl; try reflexivity. f_equal. ring.
  - cbn [fold_left]. rewrite IH, (IH (add zero x)), vadd_zero_l. apply vadd_assoc.
Qed.

Lemma npsum_app (l1 l2 : list val) : npsum (l1 ++ l2) = add (npsum l1) (npsum l2).
Proof. unfold npsum. rewrite fold_left_app. apply fold_left_vadd_init. Qed.

Lemma npsum_perm (l1 l2 : list val) : Permutation l1 l2 -> npsum l1 = npsum l2.
Proof.
  unfold npsum. generalize (zero : val).
  intros a H. revert a. induction H; intros a; cbn [fold_left].
  - reflexivity.
  - apply IHPermutation.
  - f_equal. rewrite !vadd_assoc. f_equal. apply vadd_comm.
  - now rewrite IHPermutation1.
Qed.

Lemma sumQ_app (l1 l2 : list Qc) : sumQ (l1 ++ l2) = sumQ l1 + sumQ l2.
Proof.
  induction l1 as [|q l1 IH]; simpl.
  - ring.
  - rewrite IH. ring.
Qed.

Lemma sumQ_perm (l1 l2 : list Qc) : Permutation l1 l2 -> sumQ l1 = sumQ l2.
Proof.
  induction 1; simpl; try congruence. ring.
Qed.

Lemma npsum_Fin (l : list Qc) : npsum (map Fin l) = Fin (sumQ l).
Proof.
  unfold npsum. simpl (zero). 
  assert (H : forall a, fold_left add (map Fin l) (Fin a) = Fin (a + sumQ l)).
  { induction l as [|q l IH]; intros a; simpl.
    - f_equal. ring.
    - rewrite IH. f_equal. ring. }
  rewrite H. f_equal. ring.
Qed.

Lemma Z2Qc_eq0 (z : Z) : Qeq_bool (Z2Qc z) 0 = (z =? 0)%Z.
Proof.
  destruct (Z.eqb_spec z 0) as [->|Hz]; [reflexivity|].
  apply not_true_is_false. intros H. apply Qeq_bool_eq in H.
  unfold Z2Qc in H. cbn [this Q2Qc] in H. rewrite Qred_correct in H.
  unfold Qeq in H. simpl in H. lia.
Qed.

Lemma Z2Qc_add (a b : Z) : Z2Qc (a + b) = Z2Qc a + Z2Qc b.
Proof.
  unfold Z2Qc. apply Qc_is_canon. unfold Qcplus. cbn [this Q2Qc].
  rewrite !Qred_correct, inject_Z_plus. reflexivity.
Qed.

Lemma Z2Qc_1 : Z2Qc 1 = 1.
Proof. apply Qc_is_canon. reflexivity. Qed.

Lemma nat2Qc_S (n : nat) : nat2Qc (S n) = nat2Qc n + 1.
Proof.
  unfold nat2Qc. rewrite Nat2Z.inj_succ. unfold Z.succ.
  now rewrite Z2Qc_add, Z2Qc_1.
Qed.

(** ** The loops of reduce.py, position by position *)

Import ReducePy.

Lemma accumulate_scatter {T : Type} {E : Elem T} (f : T -> T -> T) (g : list T -> T)
    (out : list T) (loop : list chunk) :
  accumulate f g out loop
  = fold_left (fun o '(p, v) => upd p (fun x => f x v) o)
              (map (fun e => (fst e, g (snd e))) (concat loop)) out.
Proof.
  unfold accumulate. rewrite fold_left_concat.
  revert out. induction (concat loop) as [|[p row] l IH]; intros out; simpl.
  - reflexivity.
  - apply IH.
Qed.

Lemma nth_error_accumulate {T : Type} {E : Elem T} (f : T -> T -> T) (g : list T -> T)
    (out : list T) (loop : list chunk) (q : nat) :
  nth_error (accumulate f g out loop) q
  = option_map (fun x => fold_left f (map g (pieces_at q loop)) x) (nth_error out q).
Proof.
  rewrite accumulate_scatter, nth_error_scatter. unfold pieces_at.
  assert (H : map snd (filter (fun e => (fst e =? q)%nat)
                         (map (fun e : nat * list T => (fst e, g (snd e))) (concat loop)))
              = map g (map snd (filter (fun e => (fst e =? q)%nat) (concat loop)))).
  { induction (concat loop) as [|[p row] l IH]; simpl; [reflexivity|].
    destruct (p =? q)%nat; simpl; now rewrite IH. }
  now rewrite H.
Qed.

Lemma length_accumulate {T : Type} {E : Elem T} (f : T -> T -> T) (g : list T -> T)
    (out : list T) (loop : list chunk) :
  length (accumulate f g out loop) = length out.
Proof. rewrite accumulate_scatter. apply length_scatter. Qed.

(** A running total that absorbs the pieces one by one ends as the total
    of all the pieces together. *)
Lemma fold_total {A V : Type} (f : V -> V -> V) (g total : list A -> V) :
  (forall l1 l2, f (total l1) (g l2) = total (l1 ++ l2)) ->
  forall ps l0, fold_left f (map g ps) (total l0) = total (l0 ++ concat ps).
Proof.
  intros H. induction ps as [|x ps IH]; intros l0; simpl.
  - now rewrite app_nil_r.
  - rewrite H, IH. now rewrite app_assoc.
Qed.

Lemma nth_error_map2 {T : Type} (f : T -> T -> T) (a b : list T) (p : nat) :
  nth_error (map2 f a b) p
  = match nth_error a p, nth_error b p with
    | Some x, Some y => Some (f x y)
    | _, _ => None
    end.
Proof.
  revert b p. induction a as [|x a IH]; intros [|y b] [|p]; simpl; try reflexivity.
  - now destruct (nth_error a p).
  - apply IH.
Qed.

Lemma nth_error_np_zeros {T : Type} {E : Elem T} (n p : nat) :
  (p < n)%nat -> nth_error (np_zeros n) p = Some (zero : T).
Proof. apply nth_error_repeat. Qed.

Lemma nth_error_np_nans (n p : nat) :
  (p < n)%nat -> nth_error (np_nans n : list val) p = Some NaN.
Proof.
  intros H. unfold np_nans. rewrite nth_error_map, nth_error_np_zeros by assumption.
  reflexivity.
Qed.

(** *** NaN-aware sums on exact elements *)

Lemma finite_part_app (l1 l2 : list val) :
  finite_part (l1 ++ l2) = finite_part l1 ++ finite_part l2.
Proof. apply flat_map_app. Qed.

Lemma finite_part_all_nan (l : list val) :
  forallb isnan l = true -> finite_part l = [].
Proof.
  induction l as [|[q|] l IH]; simpl; intros H; try discriminate; auto.
Qed.

Lemma forallb_perm {A : Type} (f : A -> bool) (l1 l2 : list A) :
  Permutation l1 l2 -> forallb f l1 = forallb f l2.
Proof.
  induction 1; simpl; try congruence.
  now destruct (f x), (f y).
Qed.

Lemma nan_total_perm (l1 l2 : list val) :
  Permutation l1 l2 -> nan_total l1 = nan_total l2.
Proof.
  intros H. unfold nan_total. rewrite (forallb_perm _ H).
  destruct (forallb isnan l2); [reflexivity|].
  f_equal. apply sumQ_perm. unfold finite_part. now rewrite H.
Qed.

Lemma np_nansum_total (row : list val) : np_nansum row = nan_total row.
Proof.
  unfold np_nansum, nan_total. destruct (forallb isnan row); [reflexivity|].
  change (zero : val) with (Fin 0).
  assert (H : forall a,
             fold_left add (map (fun x : val => if isnan x then Fin 0 else x) row) (Fin a)
             = Fin (a + sumQ (finite_part row))).
  { induction row as [|[q|] row IH]; intros a; simpl.
    - f_equal. ring.
    - rewrite IH. f_equal. ring.
    - rewrite IH. f_equal. ring. }
  rewrite H. f_equal. ring.
Qed.

Lemma nansum2_total (l1 l2 : list val) :
  nansum2 (nan_total l1) (npnansum l2) = nan_total (l1 ++ l2).
Proof.
  unfold nansum2, npnansum. rewrite !np_nansum_total.
  unfold nan_total. rewrite forallb_app, finite_part_app, sumQ_app.
  destruct (forallb isnan l1) eqn:H1, (forallb isnan l2) eqn:H2; simpl.
  - reflexivity.
  - rewrite (finite_part_all_nan _ H1). simpl. f_equal; ring.
  - rewrite (finite_part_all_nan _ H2). simpl. f_equal; ring.
  - f_equal; ring.
Qed.

Lemma forallb_ones_like (row : list val) :
  forallb isnan (ones_like row) = forallb isnan row.
Proof.
  induction row as [|[q|] row IH]; simpl; auto.
Qed.

Lemma sumQ_ones_like (row : list val) :
  sumQ (finite_part (ones_like row)) = nat2Qc (length (finite_part row)).
Proof.
  induction row as [|[q|] row IH].
  - apply Qc_is_canon. reflexivity.
  - change (ones_like (Fin q :: row)) with (Fin (1 + q * 0) :: ones_like row).
    change (finite_part (Fin (1 + q * 0) :: ones_like row))
      with ((1 + q * 0) :: finite_part (ones_like row)).
    change (finite_part (Fin q :: row)) with (q :: finite_part row).
    change (sumQ ((1 + q * 0) :: finite_part (ones_like row)))
      with ((1 + q * 0) + sumQ (finite_part (ones_like row))).
    cbn [length]. rewrite IH, nat2Qc_S. ring.
  - exact IH.
Qed.

(** The number left by the count kludge: how many elements are numbers. *)
Lemma nan_total_ones_like (row : list val) :
  nan_total (ones_like row)
  = if forallb isnan row then NaN else Fin (nat2Qc (length (finite_part row))).
Proof.
  unfold nan_total. now rewrite forallb_ones_like, sumQ_ones_like.
Qed.

(** *** The accumulators of reduce.py under a covering loop *)

Section Covered.
Variable arr : list (list val).
Variable loop : list (chunk (T:=val)).
Hypothesis Hcov : covers loop arr.
Variables n p : nat.

Lemma acc_sum_covered :
  (p < n)%nat ->
  nth_error (accumulate add npsum (np_zeros n) loop) p = Some (npsum (nth p arr [])).
Proof.
  intros Hp. rewrite nth_error_accumulate, nth_error_np_zeros by assumption.
  cbn [option_map]. f_equal.
  change (zero : val) with (npsum ([] : list val)).
  rewrite (fold_total add npsum npsum) by (intros; now rewrite npsum_app).
  apply npsum_perm, Hcov.
Qed.

Lemma acc_sumsq_covered :
  (p < n)%nat ->
  nth_error (accumulate add (fun row => npsum (map (fun e => mul e e) row)) (np_zeros n) loop) p
  = Some (npsum (map (fun e => mul e e) (nth p arr []))).
Proof.
  intros Hp. rewrite nth_error_accumulate, nth_error_np_zeros by assumption.
  cbn [option_map]. f_equal.
  change (zero : val) with (npsum (map (fun e : val => mul e e) [])).
  rewrite (fold_total add (fun row => npsum (map (fun e : val => mul e e) row))
                      (fun row => npsum (map (fun e : val => mul e e) row)))
    by (intros; now rewrite map_app, npsum_app).
  apply npsum_perm, Permutation_map, Hcov.
Qed.

Lemma acc_nansum_covered :
  (p < n)%nat ->
  nth_error (accumulate nansum2 npnansum (np_nans n) loop) p = Some (nan_total (nth p arr [])).
Proof.
  intros Hp. rewrite nth_error_accumulate, nth_error_np_nans by assumption.
  cbn [option_map]. f_equal.
  change NaN with (nan_total []).
  rewrite (fold_total nansum2 npnansum nan_total nansum2_total).
  apply nan_total_perm, Hcov.
Qed.

Lemma acc_nancount_covered :
  (p < n)%nat ->
  nth_error (accumulate nansum2 (fun row => npnansum (ones_like row)) (np_nans n) loop) p
  = Some (nan_total (ones_like (nth p arr []))).
Proof.
  intros Hp. rewrite nth_error_accumulate, nth_error_np_nans by assumption.
  cbn [option_map]. f_equal.
  change NaN with (nan_total (ones_like [])).
  rewrite (fold_total nansum2 (fun row => npnansum (ones_like row))
                      (fun row => nan_total (ones_like row))).
  - apply nan_total_perm. unfold ones_like. apply Permutation_map, Hcov.
  - intros l1 l2. rewrite nansum2_total. unfold ones_like. now rewrite map_app.
Qed.

Lemma acc_outside (f : val -> val -> val) (g : list val -> val) :
  (n <= p)%nat ->
  nth_error (accumulate f g (np_zeros n) loop) p = None
  /\ nth_error (accumulate f g (np_nans n) loop) p = None.
Proof.
  intros Hp. split; apply nth_error_None; rewrite length_accumulate;
    unfold np_nans, np_zeros; rewrite ?length_map, repeat_length; exact Hp.
Qed.

End Covered.

Lemma finite_part_nonempty (row : list val) :
  forallb isnan row = false -> (0 < length (finite_part row))%nat.
Proof.
  induction row as [|[q|] row IH]; simpl; intros H; try discriminate; auto with arith.
Qed.

(** *** The budgeted loop covers the array *)

Lemma filter_fst_pair {A : Type} (q p : nat) (l : list A) :
  filter (fun e : nat * A => (fst e =? p)%nat) (map (pair q) l)
  = if (q =? p)%nat then map (pair q) l else [].
Proof.
  induction l as [|x l IH]; simpl.
  - now destruct (q =? p)%nat.
  - rewrite IH. now destruct (q =? p)%nat.
Qed.

Lemma concat_singletons {A B : Type} (f : A -> B) (l : list A) :
  concat (map (fun x => [f x]) l) = map f l.
Proof. induction l as [|x l IH]; simpl; congruence. Qed.

Lemma pieces_loopover_from {T : Type} (budget p : nat) (arr : list (list T)) :
  forall start,
    concat (map snd (filter (fun e => (fst e =? p)%nat)
      (concat (concat (map (fun '(q, row) =>
                              map (fun piece => [(q, piece)]) (loop_mem budget row))
                           (combine (seq start (length arr)) arr))))))
    = if (start <=? p)%nat then nth (p - start) arr [] else [].
Proof.
  induction arr as [|row arr IH]; intros start.
  - simpl. destruct (start <=? p)%nat; [now destruct (p - start)%nat | reflexivity].
  - cbn [length seq combine map concat].
    rewrite concat_app, filter_app, map_app, concat_app, IH.
    rewrite (concat_singletons (pair start)), filter_fst_pair.
    destruct (Nat.eqb_spec start p) as [->|Hne].
    + rewrite map_map. cbn [snd]. rewrite map_id, loop_mem_concat.
      rewrite Nat.sub_diag, Nat.leb_refl.
      replace (S p <=? p)%nat with false by (symmetry; apply Nat.leb_gt; lia).
      cbn [nth]. apply app_nil_r.
    + cbn [map concat app].
      destruct (Nat.leb_spec start p) as [Hle|Hgt].
      * replace (S start <=? p)%nat with true by (symmetry; apply Nat.leb_le; lia).
        replace (p - start)%nat with (S (p - S start)) by lia. reflexivity.
      * replace (S start <=? p)%nat with false by (symmetry; apply Nat.leb_gt; lia).
        reflexivity.
Qed.

Lemma covers_loopover {T : Type} {E : Elem T} (budget : nat) (arr : list (list T)) :
  covers (loopover budget arr) arr.
Proof.
  intros p. unfold pieces_at, loopover.
  rewrite (pieces_loopover_from budget p arr 0).
  rewrite Nat.sub_0_r. reflexivity.
Qed.

(** *** The weighted loops *)

Lemma loop_mem_fuel_map {A B : Type} (f : A -> B) (b : nat) :
  forall fuel (l : list A),
    loop_mem_fuel fuel b (map f l) = map (map f) (loop_mem_fuel fuel b l).
Proof.
  induction fuel as [|fuel IH]; intros l; [reflexivity|].
  destruct l as [|a l]; [reflexivity|].
  cbn [loop_mem_fuel map].
  change (f a :: map f l) with (map f (a :: l)).
  now rewrite firstn_map, skipn_map, IH.
Qed.

Lemma loop_mem_map {A B : Type} (f : A -> B) (budget : nat) (l : list A) :
  loop_mem budget (map f l) = map (map f) (loop_mem budget l).
Proof. unfold loop_mem. rewrite length_map. apply loop_mem_fuel_map. Qed.

Lemma loop_mem_fuel_nonempty {A : Type} (b : nat) :
  (1 <= b)%nat ->
  forall fuel (l : list A), Forall (fun P => P <> []) (loop_mem_fuel fuel b l).
Proof.
  intros Hb. induction fuel as [|fuel IH]; intros l; [constructor|].
  destruct l as [|a l]; [constructor|].
  cbn [loop_mem_fuel]. constructor; [|apply IH].
  destruct b; [lia | discriminate].
Qed.

Lemma loop_mem_nonempty {A : Type} (budget : nat) (l : list A) :
  Forall (fun P => P <> []) (loop_mem budget l).
Proof. unfold loop_mem. apply loop_mem_fuel_nonempty. lia. Qed.

Lemma map2_fst_snd {T : Type} (f : T -> T -> T) (P : list (T * T)) :
  map2 f (map fst P) (map snd P) = map (fun e => f (fst e) (snd e)) P.
Proof. induction P as [|[x y] P IH]; simpl; congruence. Qed.

Lemma map2_combine {T : Type} (f : T -> T -> T) (a b : list T) :
  map (fun e => f (fst e) (snd e)) (combine a b) = map2 f a b.
Proof.
  revert b. induction a as [|x a IH]; intros [|y b]; simpl; try reflexivity.
  now rewrite IH.
Qed.

Section WeightedLoops.
Context {T : Type} {E : Elem T}.

(** A loop over data and weights in lockstep does to the accumulator what
    the plain loop does over the array of their elementwise combinations
    [h]. The step may depend on the sizes of the chunk, as the factor of
    the weighted mean does. *)
Lemma weighted_loop_as_plain (f : T -> T -> T)
    (g : chunk (T:=T) -> list T -> list T -> T) (g' : list T -> T) (h : T * T -> T)
    (budget : nat) (w : list T) :
  (forall p P, P <> [] -> g [(p, map fst P)] (map fst P) (map snd P) = g' (map h P)) ->
  forall (arr : list (list T)) (out : list T),
    fold_left
      (fun out '(ch, inw) =>
         fold_left (fun o '(p, row) => upd p (fun x => f x (g ch row inw)) o) ch out)
      (loopover_w budget arr w) out
    = accumulate f g' out (ToolsPy.loopover budget (map (fun row => map h (combine row w)) arr)).
Proof.
  intros Hg arr. unfold loopover_w, ToolsPy.loopover, accumulate.
  rewrite length_map. generalize 0%nat.
  induction arr as [|row arr IH]; intros start out; [reflexivity|].
  cbn [length seq combine map concat]. rewrite !fold_left_app, <- IH. f_equal.
  rewrite loop_mem_map, map_map.
  pose proof (loop_mem_nonempty budget (combine row w)) as Hne.
  revert out. induction Hne as [|P pieces HP _ IHp]; intros out; [reflexivity|].
  cbn [map fold_left]. rewrite (Hg start P HP). apply IHp.
Qed.

Lemma accumulate_ext (f : T -> T -> T) (g g' : list T -> T) (out : list T)
    (loop : list (chunk (T:=T))) :
  (forall row, g row = g' row) -> accumulate f g out loop = accumulate f g' out loop.
Proof.
  intros H. rewrite !accumulate_scatter. f_equal.
  apply map_ext. intros e. now rewrite H.
Qed.

Lemma accumulate_w_as_plain (f : T -> T -> T) (g : list T -> list T -> T)
    (g' : list T -> T) (h : T * T -> T) (budget : nat) (w : list T)
    (arr : list (list T)) (out : list T) :
  (forall P, g (map fst P) (map snd P) = g' (map h P)) ->
  accumulate_w f g out (loopover_w budget arr w)
  = accumulate f g' out (ToolsPy.loopover budget (map (fun row => map h (combine row w)) arr)).
Proof.
  intros Hg. unfold accumulate_w.
  apply (weighted_loop_as_plain f (fun _ => g) g' h).
  intros p P _. apply Hg.
Qed.

End WeightedLoops.

(** The weighted reductions as plain reductions of derived arrays. *)
Lemma WeightedSumVar_plain {T : Type} {E : Elem T} (budget n : nat)
    (arr : list (list T)) (w : list T) :
  WeightedSumVar_getview n (loopover_w budget arr w)
  = SumVar_getview n (ToolsPy.loopover budget (map (fun row => map2 mul row w) arr))
  /\ WeightedNANSumVar_getview n (loopover_w budget arr w)
     = NANSumVar_getview n (ToolsPy.loopover budget (map (fun row => map2 mul row w) arr)).
Proof.
  unfold WeightedSumVar_getview, WeightedNANSumVar_getview, SumVar_getview, NANSumVar_getview.
  split.
  - rewrite (accumulate_w_as_plain add _ npsum (fun e => mul (fst e) (snd e)))
      by (intros P; now rewrite map2_fst_snd).
    do 2 f_equal. apply map_ext. intros row. apply map2_combine.
  - rewrite (accumulate_w_as_plain nansum2 _ npnansum (fun e => mul (fst e) (snd e)))
      by (intros P; now rewrite map2_fst_snd).
    do 2 f_equal. apply map_ext. intros row. apply map2_combine.
Qed.

Lemma broadcast_factor_piece {T : Type} (p : nat) (P : list (T * T)) :
  P <> [] -> broadcast_factor [(p, map fst P)] (map snd P) = 1%nat.
Proof.
  intros HP. unfold broadcast_factor, list_sum. cbn [map fold_right length].
  rewrite !length_map, Nat.add_0_r, Nat.mul_1_r.
  apply Nat.div_same. destruct P; [contradiction | discriminate].
Qed.

Lemma vmul_one (x : val) : mul x (of_Z 1) = x.
Proof.
  destruct x as [q|]; [|reflexivity].
  cbn [mul of_Z val_elem vlift2]. rewrite Z2Qc_1. f_equal. ring.
Qed.

Lemma WeightedMeanVar_plain (budget n : nat) (arr : list (list val)) (w : list val) :
  WeightedMeanVar_getview n (loopover_w budget arr w)
  = map2 div
      (SumVar_getview n (ToolsPy.loopover budget (map (fun row => map2 mul row w) arr)))
      (SumVar_getview n
         (ToolsPy.loopover budget (map (fun row => map snd (combine row w)) arr))).
Proof.
  unfold WeightedMeanVar_getview. f_equal.
  - apply (proj1 (WeightedSumVar_plain budget n arr w)).
  - unfold SumVar_getview.
    rewrite (accumulate_ext add npsum (fun row => mul (npsum row) (of_Z 1)))
      by (intros row; now rewrite vmul_one).
    apply (weighted_loop_as_plain add
             (fun ch _ inw => mul (npsum inw) (of_Z (Z.of_nat (broadcast_factor ch inw))))
             (fun row => mul (npsum row) (of_Z 1)) snd).
    intros p P HP. now rewrite broadcast_factor_piece.
Qed.

Lemma WeightedNANMeanVar_plain {T : Type} {E : Elem T} (budget n : nat)
    (arr : list (list T)) (w : list T) :
  WeightedNANMeanVar_getview n (loopover_w budget arr w)
  = map2 div
      (NANSumVar_getview n (ToolsPy.loopover budget (map (fun row => map2 mul row w) arr)))
      (NANSumVar_getview n
         (ToolsPy.loopover budget
            (map (fun row => map (fun e => add (snd e) (mul (fst e) zero)) (combine row w))
                 arr))).
Proof.
  unfold WeightedNANMeanVar_getview. f_equal.
  - apply (proj2 (WeightedSumVar_plain budget n arr w)).
  - unfold NANSumVar_getview.
    apply (accumulate_w_as_plain nansum2 _ npnansum
             (fun e => add (snd e) (mul (fst e) zero))).
    intros P. f_equal.
    induction P as [|[x y] P IH]; simpl; congruence.
Qed.

(** *** Results of the reductions under a covering loop *)

Lemma NANSumVar_covered (arr : list (list val)) (loop : list chunk) (n p : nat) :
  covers loop arr -> (p < n)%nat ->
  nth_error (NANSumVar_getview n loop) p = Some (nan_total (nth p arr [])).
Proof. intros Hc Hp. now apply acc_nansum_covered. Qed.

Lemma NANMeanVar_covered (arr : list (list val)) (loop : list chunk) (n p : nat) :
  covers loop arr -> (p < n)%nat ->
  nth_error (NANMeanVar_getview n loop) p
  = Some (if forallb isnan (nth p arr []) then NaN
          else Fin (meanQ (finite_part (nth p arr [])))).
Proof.
  intros Hc Hp. unfold NANMeanVar_getview.
  rewrite nth_error_map2, (acc_nansum_covered Hc), (acc_nancount_covered Hc) by assumption.
  rewrite nan_total_ones_like. unfold nan_total.
  destruct (forallb isnan (nth p arr [])) eqn:Hall; [reflexivity|].
  apply finite_part_nonempty in Hall.
  cbn [div val_elem vdiv]. unfold nat2Qc at 1. rewrite Z2Qc_eq0.
  replace (Z.of_nat (length (finite_part (nth p arr []))) =? 0)%Z with false
    by (symmetry; apply Z.eqb_neq; lia).
  reflexivity.
Qed.

Lemma SumVar_covered (arr : list (list val)) (loop : list chunk) (n p : nat) :
  covers loop arr -> (p < n)%nat ->
  nth_error (SumVar_getview n loop) p = Some (npsum (nth p arr [])).
Proof. intros Hc Hp. now apply acc_sum_covered. Qed.

Lemma MeanVar_covered (arr : list (list val)) (loop : list chunk) (N n p : nat) :
  covers loop arr -> (p < n)%nat ->
  nth_error (MeanVar_getview N n loop) p
  = Some (div (npsum (nth p arr [])) (of_Z (Z.of_nat N))).
Proof.
  intros Hc Hp. unfold MeanVar_getview.
  now rewrite nth_error_map, (acc_sum_covered Hc Hp).
Qed.

Lemma VarianceVar_covered (arr : list (list val)) (loop : list chunk) (N n p : nat) :
  covers loop arr -> (p < n)%nat ->
  nth_error (VarianceVar_getview N n loop) p
  = Some (let sx := npsum (nth p arr []) in
          let sx2 := npsum (map (fun e => mul e e) (nth p arr [])) in
          let m := div sx (of_Z (Z.of_nat N)) in
          div (sub sx2 (mul (of_Z (Z.of_nat N)) (mul m m))) (of_Z (Z.of_nat N - 1))).
Proof.
  intros Hc Hp. unfold VarianceVar_getview.
  rewrite nth_error_map2, nth_error_map, (acc_sumsq_covered Hc Hp), (acc_sum_covered Hc Hp).
  reflexivity.
Qed.



(** *** NaN-aware sums when an all-NaN slice sums to zero *)

Lemma np_nansum_rule_zero (row : list val) :
  np_nansum_rule zero row = Fin (sumQ (finite_part row)).
Proof.
  unfold np_nansum_rule. destruct (forallb isnan row) eqn:Hall.
  - now rewrite (finite_part_all_nan _ Hall).
  - pose proof (np_nansum_total row) as H. unfold np_nansum, nan_total in H.
    rewrite Hall in H. exact H.
Qed.

Lemma fold_rule_zero (phi : val -> val) (ps : list (list val)) :
  ps <> [] ->
  fold_left (fun a b => np_nansum_rule zero [a; b])
            (map (fun row => np_nansum_rule zero (map phi row)) ps) NaN
  = Fin (sumQ (finite_part (map phi (concat ps)))).
Proof.
  destruct ps as [|P ps]; [contradiction|]. intros _. cbn [map fold_left concat].
  set (total := fun l : list val => Fin (sumQ (finite_part (map phi l)))).
  assert (Hfirst : np_nansum_rule zero [NaN; np_nansum_rule zero (map phi P)] = total P).
  { rewrite !np_nansum_rule_zero. unfold total, finite_part. cbn [flat_map app].
    unfold sumQ at 1. cbn [fold_right]. f_equal. ring. }
  rewrite Hfirst.
  rewrite (fold_total (fun a b => np_nansum_rule zero [a; b])
                      (fun row => np_nansum_rule zero (map phi row)) total).
  - reflexivity.
  - intros l1 l2. unfold total. rewrite !np_nansum_rule_zero.
    rewrite map_app, finite_part_app, sumQ_app.
    unfold finite_part at 1. cbn [flat_map app]. unfold sumQ at 1. cbn [fold_right].
    f_equal. ring.
Qed.

Lemma acc_rule_zero (phi : val -> val) (arr : list (list val)) (loop : list chunk)
    (n p : nat) :
  covers loop arr -> (p < n)%nat -> nth p arr [] <> [] ->
  nth_error (accumulate (fun a b => np_nansum_rule zero [a; b])
                        (fun row => np_nansum_rule zero (map phi row))
                        (np_nans n) loop) p
  = Some (Fin (sumQ (finite_part (map phi (nth p arr []))))).
Proof.
  intros Hcov Hp Hne. rewrite nth_error_accumulate, nth_error_np_nans by assumption.
  cbn [option_map]. f_equal. rewrite fold_rule_zero.
  - f_equal. apply sumQ_perm. unfold finite_part.
    apply Permutation_flat_map, Permutation_map, Hcov.
  - intros Hnil. pose proof (Hcov p) as Hperm. rewrite Hnil in Hperm. cbn [concat] in Hperm.
    apply Permutation_nil in Hperm. exact (Hne Hperm).
Qed.

Lemma NANSumVar_rule_zero (arr : list (list val)) (loop : list chunk) (n p : nat) :
  covers loop arr -> (p < n)%nat -> nth p arr [] <> [] ->
  nth_error (NANSumVar_getview_rule zero n loop) p
  = Some (Fin (sumQ (finite_part (nth p arr [])))).
Proof.
  intros Hcov Hp Hne. unfold NANSumVar_getview_rule.
  rewrite (accumulate_ext _ (np_nansum_rule zero)
                          (fun row => np_nansum_rule zero (map (fun x : val => x) row)))
    by (intros row; now rewrite map_id).
  rewrite (acc_rule_zero (fun x => x) Hcov Hp Hne). now rewrite map_id.
Qed.

Lemma NANMeanVar_rule_zero (arr : list (list val)) (loop : list chunk) (n p : nat) :
  covers loop arr -> (p < n)%nat -> nth p arr [] <> [] ->
  nth_error (NANMeanVar_getview_rule zero n loop) p
  = Some (div (Fin (sumQ (finite_part (nth p arr []))))
              (Fin (nat2Qc (length (finite_part (nth p arr [])))))).
Proof.
  intros Hcov Hp Hne. unfold NANMeanVar_getview_rule. rewrite nth_error_map2.
  fold (NANSumVar_getview_rule (zero : val) n loop).
  rewrite (NANSumVar_rule_zero Hcov Hp Hne).
  unfold ones_like.
  rewrite (acc_rule_zero (fun x : val => add one (mul x zero)) Hcov Hp Hne).
  fold (ones_like (nth p arr [])). now rewrite sumQ_ones_like.
Qed.

Lemma row_with_number_nonempty (row : list val) : forallb isnan row = false -> row <> [].
Proof. intros H ->. discriminate H. Qed.

(** C3 (amended: NaN-aware sum and mean of numbers and NaN). On exact
    elements (rationals and NaN), for every array and every loop that
    covers it, and under either rule of [numpy.nansum] for a slice that
    holds nothing but NaN (NaN, or zero): at an output position into which
    at least one number is reduced, the NaN elements are absent from the
    result, [nansum] is the sum of the numbers and [nanmean] divides it by
    how many numbers there are, so neither is NaN; at a position into which
    only NaN elements are reduced, and at least one, [nanmean] is NaN and
    [nansum] is what [numpy.nansum] gives to an all-NaN slice. Under the
    rule that gives NaN, the loops are [NANSumVar.getview] and
    [NANMeanVar.getview] as modelled throughout. *)
Theorem nansum_nanmean_skip_nan (allnan : val) (arr : list (list val)) (loop : list chunk)
    (p : nat) :
  allnan = nan \/ allnan = zero ->
  covers loop arr -> (p < length arr)%nat ->
  (forallb isnan (nth p arr []) = false ->
     nth_error (NANSumVar_getview_rule allnan (length arr) loop) p
     = Some (Fin (sumQ (finite_part (nth p arr []))))
     /\ nth_error (NANMeanVar_getview_rule allnan (length arr) loop) p
        = Some (Fin (meanQ (finite_part (nth p arr [])))))
  /\ (forallb isnan (nth p arr []) = true -> nth p arr [] <> [] ->
      nth_error (NANSumVar_getview_rule allnan (length arr) loop) p = Some allnan
      /\ nth_error (NANMeanVar_getview_rule allnan (length arr) loop) p = Some NaN)
  /\ NANSumVar_getview_rule nan (length arr) loop = NANSumVar_getview (length arr) loop
  /\ NANMeanVar_getview_rule nan (length arr) loop = NANMeanVar_getview (length arr) loop.
Proof.
  intros Hrule Hc Hp.
  split; [|split; [|split; reflexivity]].
  - intros Hall. destruct Hrule as [->| ->].
    + change (NANSumVar_getview_rule (nan : val) (length arr) loop)
        with (NANSumVar_getview (length arr) loop).
      change (NANMeanVar_getview_rule (nan : val) (length arr) loop)
        with (NANMeanVar_getview (length arr) loop).
      rewrite (NANSumVar_covered Hc Hp), (NANMeanVar_covered Hc Hp).
      unfold nan_total. rewrite Hall. split; reflexivity.
    + pose proof (row_with_number_nonempty Hall) as Hne.
      rewrite (NANSumVar_rule_zero Hc Hp Hne), (NANMeanVar_rule_zero Hc Hp Hne).
      split; [reflexivity|].
      apply finite_part_nonempty in Hall.
      cbn [div val_elem vdiv]. unfold nat2Qc at 1. rewrite Z2Qc_eq0.
      replace (Z.of_nat (length (finite_part (nth p arr []))) =? 0)%Z with false
        by (symmetry; apply Z.eqb_neq; lia).
      reflexivity.
  - intros Hall Hne. destruct Hrule as [->| ->].
    + change (NANSumVar_getview_rule (nan : val) (length arr) loop)
        with (NANSumVar_getview (length arr) loop).
      change (NANMeanVar_getview_rule (nan : val) (length arr) loop)
        with (NANMeanVar_getview (length arr) loop).
      rewrite (NANSumVar_covered Hc Hp), (NANMeanVar_covered Hc Hp).
      unfold nan_total. rewrite Hall. split; reflexivity.
    + rewrite (NANSumVar_rule_zero Hc Hp Hne), (NANMeanVar_rule_zero Hc Hp Hne).
      rewrite (finite_part_all_nan _ Hall). split; reflexivity.
Qed.

Lemma nansum_nanmean_skip_nan_witness :
  (nth_error (NANSumVar_getview_rule zero (length arr_nan) (loopover 3 arr_nan)) 0
   = Some (Fin (sumQ (finite_part (nth 0 arr_nan []))))
   /\ nth_error (NANMeanVar_getview_rule zero (length arr_nan) (loopover 3 arr_nan)) 0
      = Some (Fin (meanQ (finite_part (nth 0 arr_nan [])))))
  /\ (nth_error (NANSumVar_getview_rule nan (length arr_nan) (loopover 3 arr_nan)) 1
      = Some (nan : val)
      /\ nth_error (NANMeanVar_getview_rule nan (length arr_nan) (loopover 3 arr_nan)) 1
         = Some NaN).
Proof.
  split.
  - apply (@nansum_nanmean_skip_nan zero arr_nan (loopover 3 arr_nan) 0).
    + right. reflexivity.
    + apply covers_loopover.
    + simpl. lia.
    + reflexivity.
  - apply (@nansum_nanmean_skip_nan nan arr_nan (loopover 3 arr_nan) 1).
    + left. reflexivity.
    + apply covers_loopover.
    + simpl. lia.
    + reflexivity.
    + discriminate.
Defined.

(** C3 (counterexample). An input of float64 that holds no NaN: plus and
    minus infinity reduced into one output position. Their sum is NaN, so
    [nansum] and [nanmean] give NaN at that position though no element
    reduced into it is NaN: under the rule of [numpy.nansum] modelled
    throughout, whether the two come in one chunk or in two; under the
    other rule, [nansum] when they come in two chunks and [nanmean] either
    way. *)
Lemma nansum_of_opposite_infinities :
  existsb isnan [PrimFloat.infinity; PrimFloat.neg_infinity] = false
  /\ NANSumVar_getview 1 (loopover 1 [[PrimFloat.infinity; PrimFloat.neg_infinity]])
     = [PrimFloat.nan]
  /\ NANSumVar_getview 1 (loopover 2 [[PrimFloat.infinity; PrimFloat.neg_infinity]])
     = [PrimFloat.nan]
  /\ NANMeanVar_getview 1 (loopover 1 [[PrimFloat.infinity; PrimFloat.neg_infinity]])
     = [PrimFloat.nan]
  /\ NANMeanVar_getview 1 (loopover 2 [[PrimFloat.infinity; PrimFloat.neg_infinity]])
     = [PrimFloat.nan]
  /\ NANSumVar_getview_rule zero 1
       (loopover 1 [[PrimFloat.infinity; PrimFloat.neg_infinity]]) = [PrimFloat.nan]
  /\ NANMeanVar_getview_rule zero 1
       (loopover 1 [[PrimFloat.infinity; PrimFloat.neg_infinity]]) = [PrimFloat.nan]
  /\ NANMeanVar_getview_rule zero 1
       (loopover 2 [[PrimFloat.infinity; PrimFloat.neg_infinity]]) = [PrimFloat.nan].
Proof. repeat split; vm_compute; reflexivity. Qed.

(** *** Variance *)

Lemma loopover_s5_whole (budget : nat) :
  (5 <= budget)%nat -> loopover budget [s5] = [[(0%nat, s5)]].
Proof.
  intros H. unfold loopover. cbn [length seq combine map].
  rewrite loop_mem_whole; [reflexivity | discriminate | exact H].
Qed.

(** C2 (variance and standard deviation). In float64 and under every
    memory budget, the variance of the series 1, 2, 3, 4, 5 over its only
    axis is exactly 2.5 and its standard deviation is sqrt(2.5); on exact
    elements, for every variable and budget, the variance at each output
    position is (sum(x^2) - N*mean^2) / (N - 1), with the sums taken over
    all the elements reduced into the position and mean = sum(x) / N. *)
Theorem variance_1_to_5_and_formula :
  (forall budget, getview budget (variance v5) = [2.5%float])
  /\ (forall budget,
        SDVar_getview (nred v5) 1 (loopover budget (rows v5)) = [PrimFloat.sqrt 2.5%float])
  /\ PrimFloat.sqrt 2.5%float = 0x1.94c583ada5b53p+0%float
  /\ (forall (v : data (T:=val)) (budget : nat),
        getview budget (variance v)
        = map (fun row =>
                 let N := Z.of_nat (nred v) in
                 let sx := npsum row in
                 let sx2 := npsum (map (fun e => mul e e) row) in
                 let m := div sx (of_Z N) in
                 div (sub sx2 (mul (of_Z N) (mul m m))) (of_Z (N - 1)))
              (rows v)).
Proof.
  split; [|split; [|split]].
  - intros budget. unfold variance, getview. cbn [rows nred v5 length].
    do 5 (destruct budget as [|budget]; [vm_compute; reflexivity|]).
    rewrite loopover_s5_whole by lia. vm_compute. reflexivity.
  - intros budget. cbn [rows nred v5].
    do 5 (destruct budget as [|budget]; [vm_compute; reflexivity|]).
    rewrite loopover_s5_whole by lia. vm_compute. reflexivity.
  - reflexivity.
  - intros v budget. unfold variance, getview.
    apply nth_error_ext. intros p. rewrite nth_error_map.
    destruct (Nat.lt_ge_cases p (length (rows v))) as [Hp|Hp].
    + rewrite (VarianceVar_covered _ (covers_loopover budget (rows v)) Hp).
      rewrite (nth_error_nth' _ [] Hp). reflexivity.
    + unfold VarianceVar_getview.
      rewrite nth_error_map2, (proj1 (acc_outside _ _ _ Hp)).
      apply nth_error_None in Hp. now rewrite Hp.
Qed.




(** *** Default weights of [sum] and [nansum] *)

(** C4 (failing input). On the NaN-free variable [vw], whose reduced axis
    carries weights, [sum] with default arguments is the unweighted sum
    1 + 1 = 2, while [nansum] with default arguments takes the weights of
    the variable and returns 1*2 + 1*3 = 5. *)
Theorem nansum_default_weights_differs_from_sum :
  forallb (forallb (fun x => negb (isnan x))) (rows vw) = true
  /\ sum vw None = SumVar vw
  /\ nansum vw None = WeightedNANSumVar vw [2%float; 3%float]
  /\ getview 1 (sum vw None) = [2%float]
  /\ getview 1 (nansum vw None) = [5%float]
  /\ getview 2 (sum vw None) = [2%float]
  /\ getview 2 (nansum vw None) = [5%float]
  /\ getview 2 (nansum vw (Some W_False)) = [2%float].
Proof. repeat split; vm_compute; reflexivity. Qed.

(** Whenever the reduced axes carry weights, the two entry points part
    ways before any data is read. *)
Lemma sum_nansum_defaults {T : Type} {E : Elem T} (v : data) (w : list T) :
  getweights v = Some w ->
  sum v None = SumVar v /\ nansum v None = WeightedNANSumVar v w
  /\ mean v None = WeightedMeanVar v w /\ nanmean v None = WeightedNANMeanVar v w.
Proof.
  intros H. unfold sum, nansum, mean, nanmean, pop_weights. rewrite H. auto.
Qed.

(** *** Construction of a reduction *)

Lemma existsb_insert_sorted (k n : nat) (l : list nat) :
  existsb (Nat.eqb k) (insert_sorted n l) = ((k =? n)%nat || existsb (Nat.eqb k) l)%bool.
Proof.
  induction l as [|m l IH]; simpl; [reflexivity|].
  destruct (n <=? m)%nat; simpl; [reflexivity|].
  rewrite IH. now destruct (k =? n)%nat, (k =? m)%nat.
Qed.

Lemma existsb_np_sort (k : nat) (l : list nat) :
  existsb (Nat.eqb k) (np_sort l) = existsb (Nat.eqb k) l.
Proof.
  induction l as [|n l IH]; simpl; [reflexivity|].
  now rewrite existsb_insert_sorted, IH.
Qed.

Lemma length_insert_sorted (n : nat) (l : list nat) :
  length (insert_sorted n l) = S (length l).
Proof.
  induction l as [|m l IH]; simpl; [reflexivity|].
  destruct (n <=? m)%nat; simpl; congruence.
Qed.

Lemma length_np_sort (l : list nat) : length (np_sort l) = length l.
Proof.
  induction l as [|n l IH]; simpl; [reflexivity|].
  now rewrite length_insert_sorted, IH.
Qed.

Lemma mapM_length {A B : Type} (f : A -> result B) (l : list A) (l' : list B) :
  mapM f l = Ok l' -> length l' = length l.
Proof.
  revert l'. induction l as [|a l IH]; intros l' H; simpl in H.
  - now inversion H.
  - destruct (f a); simpl in H; [|discriminate].
    destruct (mapM f l); simpl in H; [|discriminate].
    inversion H. simpl. f_equal. now apply IH.
Qed.

Lemma not_in_indices_positions {Axis : Type} (idx : list nat) (axs pre : list Axis) :
  Forall2 (fun k a => nth_error (pre ++ axs) k = Some a)
          (filter (fun k => negb (existsb (Nat.eqb k) idx)) (seq (length pre) (length axs)))
          (not_in_indices idx (length pre) axs).
Proof.
  revert pre. induction axs as [|a axs IH]; intros pre; simpl.
  - constructor.
  - specialize (IH (pre ++ [a])).
    rewrite <- app_assoc, length_app, Nat.add_1_r in IH. simpl in IH.
    destruct (existsb (Nat.eqb (length pre)) idx); simpl.
    + exact IH.
    + constructor; [|exact IH].
      rewrite nth_error_app2, Nat.sub_diag by lia. reflexivity.
Qed.

(** C9 (axes and dtype of a reduction). For a single input variable and a
    non-empty list of identifiers that [whichaxis] resolves, [__init__]
    succeeds; the axes of the result are the input axes at the positions
    that are not reduced, in increasing order of position, and its dtype
    is the dtype of the input. *)
Theorem ReducedVar_init_axes_dtype {Axis Cls : Type} {AL : AxisLike Axis Cls} {A : Type}
    (v : Var A) (ids : list (pyarg Axis Cls)) (idx : list nat) :
  ids <> [] ->
  mapM (whichaxis (axes v)) ids = Ok idx ->
  exists r,
    ReducedVar_init v ids = Ok r
    /\ Forall2 (fun k a => nth_error (axes v) k = Some a)
               (filter (fun k => negb (existsb (Nat.eqb k) idx)) (seq 0 (naxes v)))
               (axes (self r))
    /\ vdtype (self r) = vdtype v
    /\ var r = v.
Proof.
  intros Hne Hids. unfold ReducedVar_init. rewrite Hids. cbn [bind].
  assert (Hlen : (length (np_sort idx) =? 0)%nat = false).
  { apply Nat.eqb_neq. rewrite length_np_sort, (mapM_length _ _ Hids).
    destruct ids; [contradiction | discriminate]. }
  rewrite Hlen. eexists. split; [reflexivity|]. cbn [self axes vdtype var].
  split; [|split; reflexivity].
  pose proof (not_in_indices_positions (np_sort idx) (axes v) []) as H.
  cbn [app length] in H. unfold naxes.
  erewrite filter_ext; [exact H|].
  intros k. cbn beta. now rewrite existsb_np_sort.
Qed.

Lemma ReducedVar_init_axes_dtype_witness :
  exists r,
    ReducedVar_init v_lazy [PInt 0] = Ok r
    /\ Forall2 (fun k a => nth_error (axes v_lazy) k = Some a)
               (filter (fun k => negb (existsb (Nat.eqb k) [0%nat])) (seq 0 (naxes v_lazy)))
               (axes (self r))
    /\ vdtype (self r) = vdtype v_lazy
    /\ var r = v_lazy.
Proof.
  apply (ReducedVar_init_axes_dtype v_lazy (ids:=[PInt 0]) (idx:=[0%nat])).
  - discriminate.
  - reflexivity.
Defined.

(** C8 (amended: when a reduction is evaluated). For non-empty axes that
    [__init__] accepts, the call returns the lazy node when the input
    variable holds no values, and the loaded, in-memory result of the
    reduction when it does: the choice follows the input, there is no
    argument by which the caller asks for it. *)
Theorem ReducedVar_new_follows_input {Axis Cls : Type} {AL : AxisLike Axis Cls} {A : Type}
    (get : ReducedVar -> A) (dtype_of : A -> dtype)
    (v : Var A) (ids : list (pyarg Axis Cls)) (r : ReducedVar) :
  ids <> [] ->
  ReducedVar_init v ids = Ok r ->
  ReducedVar_new get dtype_of v ids
  = Ok (if hasattr_values v then Loaded (load get dtype_of r) else Node r).
Proof.
  intros Hne Hinit. unfold ReducedVar_new.
  destruct ids as [|i ids]; [contradiction|]. cbn [length Nat.eqb].
  rewrite Hinit. now destruct (hasattr_values v).
Qed.

Lemma ReducedVar_new_follows_input_witness :
  ReducedVar_new sum_get (fun _ => float64) v_lazy [PInt 0]
  = Ok (if hasattr_values v_lazy
        then Loaded (load sum_get (fun _ => float64)
                       (mkReduced (mkVar [] float64 "x" None) 2 v_lazy [0%nat] [pt]))
        else Node (mkReduced (mkVar [] float64 "x" None) 2 v_lazy [0%nat] [pt])).
Proof.
  apply (ReducedVar_new_follows_input sum_get (fun _ => float64) v_lazy (ids:=[PInt 0])).
  - discriminate.
  - reflexivity.
Defined.

(** C8 (counterexample). The sum over the axis of a variable held in
    memory comes back as a loaded variable with the values [3.0], never as
    a lazy node; the same call on the same variable without values comes
    back as a lazy node. *)
Lemma ReducedVar_new_in_memory_not_lazy :
  ReducedVar_new sum_get (fun _ => float64) v_mem [PInt 0]
    = Ok (Loaded (mkVar [] float64 "x" (Some [3%float])))
  /\ (forall r, ReducedVar_new sum_get (fun _ => float64) v_mem [PInt 0] <> Ok (Node r))
  /\ (exists r, ReducedVar_new sum_get (fun _ => float64) v_lazy [PInt 0] = Ok (Node r)).
Proof.
  split; [vm_compute; reflexivity|]. split.
  - intros r H. vm_compute in H. discriminate.
  - eexists. vm_compute. reflexivity.
Qed.

(** ** climat.py: the loop over the time axis *)

Import ClimatPy.

Lemma take_in_range {A : Type} (d : A) (v : list A) (idx : list nat) :
  Forall (fun i => (i < length v)%nat) idx -> take v idx = map (fun i => nth i v d) idx.
Proof.
  induction 1 as [|i idx Hi _ IH]; [reflexivity|].
  unfold take in *. cbn [flat_map map]. rewrite IH.
  now rewrite (nth_error_nth' v d Hi).
Qed.

Lemma common_map_shape (m : TimeMap) (t : list date) (ct : list (list Z)) :
  Forall (fun i => (i < length t)%nat) (fst (common_map m t ct))
  /\ length (fst (common_map m t ct)) = length (snd (common_map m t ct)).
Proof.
  unfold common_map. cbn [fst snd]. rewrite !length_map. split; [|reflexivity].
  apply Forall_forall. intros i Hi.
  apply in_map_iff in Hi. destruct Hi as [[i' b] [<- Hi]]. cbn [fst].
  apply in_flat_map in Hi. destruct Hi as [[j d] [Hj Hi]].
  destruct (index_of (out_fields m d) ct); [|contradiction].
  destruct Hi as [Hi|[]]. inversion Hi; subst.
  apply in_combine_l in Hj. apply in_seq in Hj. lia.
Qed.

Lemma Forall_pieces {A : Type} (P : A -> Prop) (budget : nat) (l : list A) :
  Forall P l -> Forall (Forall P) (loop_mem budget l).
Proof.
  intros H. rewrite <- (loop_mem_concat budget l) in H.
  now apply Forall_concat.
Qed.

Lemma combine_map_map {A B C : Type} (f : A -> B) (g : A -> C) (l : list A) :
  combine (map f l) (map g l) = map (fun e => (f e, g e)) l.
Proof. induction l as [|x l IH]; simpl; congruence. Qed.

Section LoopFacts.
Context {T : Type} {E : Elem T}.

(** What [loopover] yields, in terms of the pieces of the paired index
    arrays. *)
Lemma loopover_pieces (budget : nat) (m : TimeMap) (varlist : list (list T))
    (t : list date) (ct : list (list Z)) :
  loopover budget m varlist t ct
  = if negb (bins_covered m t ct) then Raise (AssertionError "")
    else Ok (map (fun P => (map (fun v => take v (map fst P)) varlist, map snd P))
                 (loop_mem budget (combine (fst (common_map m t ct))
                                           (snd (common_map m t ct))))).
Proof.
  unfold loopover, bins_covered.
  destruct (common_map_shape m t ct) as [_ Hlen].
  destruct (common_map m t ct) as [inmap outmap]. cbn [fst snd] in *.
  destruct (negb _); [reflexivity|].
  rewrite Hlen, Nat.eqb_refl. cbn [negb].
  rewrite loop_mem_combine by exact Hlen.
  rewrite map_map. reflexivity.
Qed.

(** One chunk of [Mean.getview], element by element. *)
Lemma mean_step_piece (v : list T) (P : list (nat * nat)) (s : list T) (c : list Z) :
  Forall (fun e => (fst e < length v)%nat) P ->
  partial_sum (take v (map fst P)) s c (map snd P)
  = fold_left (fun '(s, c) '(b, x) => (upd b (fun y => add y x) s, upd b Z.succ c))
              (map (fun e => (snd e, nth (fst e) v nan)) P) (s, c).
Proof.
  intros H. unfold partial_sum.
  rewrite (take_in_range nan) by (apply Forall_map; exact H).
  rewrite map_map, combine_map_map. reflexivity.
Qed.

End LoopFacts.

Section MeanTrendFacts.
Context {T : Type} {E : Elem T}.

Lemma map_fst_snd_id {A B : Type} (l : list (A * B)) :
  map (fun e => (fst e, snd e)) l = l.
Proof. induction l as [|[a b] l IH]; simpl; congruence. Qed.

(** The chunks of [Mean.getview] add up to the single-chunk run. *)
Lemma Mean_getview_whole (budget : nat) (op : TimeOp) :
  wf_tvar (var op) -> Mean_getview budget op = Mean_whole op.
Proof.
  intros [_ Hlen]. unfold Mean_getview, Mean_whole.
  rewrite loopover_pieces. unfold samples.
  destruct (negb (bins_covered _ _ _)); [reflexivity|]. cbn [bind].
  destruct (common_map_shape (timemap op) (dates (var op)) (outtime op)) as [Hrange _].
  destruct (common_map (timemap op) (dates (var op)) (outtime op)) as [inmap outmap].
  cbn [fst snd] in *.
  set (h := fun e : nat * nat => (snd e, nth (fst e) (tvalues (var op)) nan)).
  set (elem := fun '(s, c) '(b, x) =>
                 (upd b (fun y : T => add y x) s, upd b Z.succ c)).
  assert (Hfold : forall pieces a,
             Forall (Forall (fun e : nat * nat => (fst e < length (tvalues (var op)))%nat)) pieces ->
             fold_left (fun '(s, c) '(data, bins) =>
                          match data with [d] => partial_sum d s c bins | _ => (s, c) end)
                       (map (fun P : list (nat * nat) =>
                               (map (fun v => take v (map fst P)) [tvalues (var op)],
                                map snd P)) pieces) a
             = fold_left elem (map h (concat pieces)) a).
  { intros pieces a HF. revert a.
    induction HF as [|P pieces HP _ IH]; intros [s0 c0]; [reflexivity|].
    cbn [map fold_left concat]. rewrite map_app, fold_left_app.
    rewrite mean_step_piece by exact HP. apply IH. }
  rewrite Hfold.
  - rewrite loop_mem_concat. unfold partial_sum.
    rewrite combine_map_map, map_fst_snd_id. reflexivity.
  - apply Forall_pieces. rewrite Hlen.
    clear -Hrange. revert outmap.
    induction Hrange as [|i inmap Hi _ IH]; intros [|b outmap]; simpl; constructor; auto.
Qed.

Lemma trend_step_piece (fx ft : nat * nat -> T) (P : list (nat * nat)) (a : trend_acc) :
  trend_step a ([map fx P; map ft P], map snd P)
  = fold_left trend_elem (map (fun e => (snd e, (fx e, ft e))) P) a.
Proof.
  revert a. induction P as [|e P IH]; intros a.
  - destruct a. reflexivity.
  - cbn [map fold_left]. rewrite <- IH. reflexivity.
Qed.

(** The chunks of [Trend.getview] add up to the single-chunk run. *)
Lemma Trend_getview_whole (budget : nat) (op : TimeOp) :
  wf_tvar (var op) -> Trend_getview budget op = Trend_whole op.
Proof.
  intros [Hsecs Hlen]. unfold Trend_getview, Trend_whole.
  rewrite loopover_pieces. unfold samples.
  destruct (negb (bins_covered _ _ _)); [reflexivity|]. cbn [bind].
  destruct (common_map_shape (timemap op) (dates (var op)) (outtime op)) as [Hrange _].
  destruct (common_map (timemap op) (dates (var op)) (outtime op)) as [inmap outmap].
  cbn [fst snd] in *.
  set (fx := fun e : nat * nat => nth (fst e) (tvalues (var op)) nan).
  set (ft := fun e : nat * nat => nth (fst e) (reltime (var op)) nan).
  assert (Hfold : forall pieces a,
             Forall (Forall (fun e : nat * nat => (fst e < length (dates (var op)))%nat)) pieces ->
             fold_left trend_step
                       (map (fun P : list (nat * nat) =>
                               (map (fun v => take v (map fst P))
                                    [tvalues (var op); reltime (var op)],
                                map snd P)) pieces) a
             = fold_left trend_elem
                         (map (fun e => (snd e, (fx e, ft e))) (concat pieces)) a).
  { intros pieces a HF. revert a.
    induction HF as [|P pieces HP _ IH]; intros a; [reflexivity|].
    cbn [map fold_left concat]. rewrite map_app, fold_left_app.
    rewrite !(take_in_range nan), !map_map
      by (apply Forall_map; rewrite ?Hsecs, ?Hlen; exact HP).
    change (map (fun x : nat * nat => nth (fst x) (tvalues (var op)) nan) P) with (map fx P).
    change (map (fun x : nat * nat => nth (fst x) (reltime (var op)) nan) P) with (map ft P).
    rewrite trend_step_piece. apply IH. }
  unfold trend_acc0. rewrite Hfold.
  - rewrite loop_mem_concat.
    assert (Hs : map (fun e : nat * nat => (snd e, (fx e, ft e))) (combine inmap outmap)
                 = map (fun e : nat * nat =>
                          (snd e, nth (fst e) (combine (tvalues (var op)) (reltime (var op)))
                                      (nan, nan)))
                       (combine inmap outmap)).
    { apply map_ext. intros e. rewrite combine_nth by congruence. reflexivity. }
    rewrite Hs. reflexivity.
  - apply Forall_pieces.
    clear -Hrange. revert outmap.
    induction Hrange as [|i inmap Hi _ IH]; intros [|b outmap]; simpl; constructor; auto.
Qed.

End MeanTrendFacts.

(** ** The output axis and its bins *)

Lemma fields_eqb_eq (a b : list Z) : fields_eqb a b = true <-> a = b.
Proof.
  revert b. induction a as [|x a IH]; intros [|y b]; simpl; split; intros H;
    try discriminate; try reflexivity.
  - apply andb_true_iff in H. destruct H as [Hx Ha].
    apply Z.eqb_eq in Hx. apply IH in Ha. congruence.
  - inversion H; subst. rewrite Z.eqb_refl. now apply IH.
Qed.

Lemma index_of_Some_nth (k : list Z) (ct : list (list Z)) (i : nat) :
  index_of k ct = Some i -> nth_error ct i = Some k.
Proof.
  revert i. induction ct as [|c ct IH]; intros i H; simpl in H; [discriminate|].
  destruct (fields_eqb c k) eqn:Hc.
  - inversion H; subst. apply fields_eqb_eq in Hc. now subst.
  - destruct (index_of k ct); [|discriminate]. inversion H; subst. now apply IH.
Qed.

Lemma index_of_In (k : list Z) (ct : list (list Z)) :
  In k ct -> exists i, index_of k ct = Some i.
Proof.
  induction ct as [|c ct IH]; intros H; [contradiction|]. simpl.
  destruct (fields_eqb c k) eqn:Hc; [eauto|].
  destruct H as [->|H].
  - assert (fields_eqb k k = true) by now apply fields_eqb_eq. congruence.
  - destruct (IH H) as [i ->]. eauto.
Qed.

Lemma index_of_NoDup (k : list Z) (ct : list (list Z)) (i : nat) :
  NoDup ct -> nth_error ct i = Some k -> index_of k ct = Some i.
Proof.
  intros Hnd. revert i. induction Hnd as [|c ct Hc _ IH]; intros i H.
  - now destruct i.
  - simpl. destruct i as [|i]; simpl in H.
    + inversion H; subst.
      assert (fields_eqb k k = true) by now apply fields_eqb_eq.
      now rewrite H0.
    + destruct (fields_eqb c k) eqn:Hck.
      * apply fields_eqb_eq in Hck. subst. apply nth_error_In in H. contradiction.
      * now rewrite (IH _ H).
Qed.

Lemma uniquify_In (k : list Z) (l seen : list (list Z)) :
  In k (uniquify seen l) <-> In k l /\ ~ In k seen.
Proof.
  revert seen. induction l as [|x l IH]; intros seen; simpl.
  - tauto.
  - destruct (index_of x seen) as [i|] eqn:Hx.
    + rewrite IH. apply index_of_Some_nth, nth_error_In in Hx.
      split; [tauto|]. intros [[->|H] Hn]; [contradiction | tauto].
    + assert (Hnx : ~ In x seen).
      { intros H. apply index_of_In in H. destruct H as [i H]. congruence. }
      simpl. rewrite IH. simpl.
      split.
      * intros [->|[H Hn]]; [tauto|]. split; [tauto|]. intros H'. apply Hn. now right.
      * intros [[->|H] Hn]; [now left|].
        destruct (list_eq_dec Z.eq_dec x k) as [->|Hne]; [now left|].
        right. split; [exact H|]. intros [H'|H']; [congruence | contradiction].
Qed.

Lemma uniquify_NoDup (l seen : list (list Z)) : NoDup (uniquify seen l).
Proof.
  revert seen. induction l as [|x l IH]; intros seen; simpl.
  - constructor.
  - destruct (index_of x seen); [apply IH|].
    constructor; [|apply IH].
    rewrite uniquify_In. simpl. tauto.
Qed.

(** Every date of the input axis has a bin on the output axis made from
    it. *)
Lemma index_of_outtime (m : TimeMap) (t : list date) (d : date) :
  In d t -> exists b, index_of (out_fields m d) (get_outtime m t) = Some b
                      /\ (b < length (get_outtime m t))%nat.
Proof.
  intros H.
  destruct (index_of_In (out_fields m d) (get_outtime m t)) as [b Hb].
  - unfold get_outtime. rewrite uniquify_In. split; [|tauto].
    now apply in_map.
  - exists b. split; [exact Hb|].
    apply index_of_Some_nth in Hb. apply nth_error_Some. congruence.
Qed.

Lemma common_map_total (m : TimeMap) (t : list date) (ct : list (list Z)) :
  (forall d, In d t -> index_of (out_fields m d) ct <> None) ->
  common_map m t ct = (seq 0 (length t), map (bin_of m ct) t).
Proof.
  intros H. unfold common_map.
  assert (Hg : forall start,
             flat_map (fun '(i, d) =>
                         match index_of (out_fields m d) ct with
                         | Some b => [(i, b)]
                         | None => []
                         end) (combine (seq start (length t)) t)
             = combine (seq start (length t)) (map (bin_of m ct) t)).
  { induction t as [|d t IH]; intros start; [reflexivity|].
    cbn [length seq combine flat_map map]. rewrite IH by (intros; apply H; now right).
    unfold bin_of at 2.
    destruct (index_of (out_fields m d) ct) eqn:Hd; [reflexivity|].
    exfalso. apply (H d); [now left | exact Hd]. }
  rewrite Hg.
  rewrite map_fst_combine_eq, map_snd_combine_eq;
    rewrite ?length_seq, ?length_map; reflexivity.
Qed.

Lemma common_map_outtime (m : TimeMap) (t : list date) :
  common_map m t (get_outtime m t)
  = (seq 0 (length t), map (bin_of m (get_outtime m t)) t).
Proof.
  apply common_map_total. intros d Hd.
  destruct (index_of_outtime m t d Hd) as [b [Hb _]]. congruence.
Qed.

(** Every bin of the output axis made from an input axis is the bin of one
    of its dates. *)
Lemma outtime_bin_reached (m : TimeMap) (t : list date) (b : nat) :
  (b < length (get_outtime m t))%nat ->
  exists d, In d t /\ bin_of m (get_outtime m t) d = b.
Proof.
  intros Hb.
  destruct (nth_error (get_outtime m t) b) as [k|] eqn:Hk;
    [|apply nth_error_None in Hk; lia].
  assert (Hin : In k (get_outtime m t)) by (eapply nth_error_In; eauto).
  unfold get_outtime in Hin. apply uniquify_In in Hin. destruct Hin as [Hin _].
  apply in_map_iff in Hin. destruct Hin as [d [Hd Hdt]].
  exists d. split; [exact Hdt|].
  unfold bin_of. rewrite Hd.
  pose proof (@index_of_NoDup k (get_outtime m t) b (uniquify_NoDup _ _) Hk) as Hi.
  now rewrite Hi.
Qed.

Lemma bins_covered_outtime (m : TimeMap) (t : list date) :
  bins_covered m t (get_outtime m t) = true.
Proof.
  unfold bins_covered. rewrite common_map_outtime. cbn [snd].
  apply forallb_forall. intros b Hb. apply in_seq in Hb.
  apply existsb_exists.
  destruct (outtime_bin_reached m t (b:=b)) as [d [Hd Hbin]]; [lia|].
  exists b. split; [|apply Nat.eqb_refl].
  rewrite <- Hbin. now apply in_map.
Qed.

(** ** The accumulators of the trend, bin by bin *)

Lemma trend_fields {T : Type} {E : Elem T} (S : list (nat * (T * T))) (a : trend_acc) :
  let r := fold_left trend_elem S a in
  let sc (g : T * T -> T) (o : list T) :=
    fold_left (fun o '(p, v) => upd p (fun y => add y v) o)
              (map (fun e => (fst e, g (snd e))) S) o in
  let ct (o : list Z) :=
    fold_left (fun o '(p, v) => upd p (fun c => (fun c (_ : unit) => Z.succ c) c v) o)
              (map (fun e => (fst e, tt)) S) o in
  aF r = sc fst (aF a) /\ aX r = sc snd (aX a)
  /\ aXF r = sc (fun e => mul (fst e) (snd e)) (aXF a)
  /\ aX2 r = sc (fun e => mul (snd e) (snd e)) (aX2 a)
  /\ nF r = ct (nF a) /\ nX r = ct (nX a) /\ nXF r = ct (nXF a) /\ nX2 r = ct (nX2 a).
Proof.
  revert a. induction S as [|[b [x t]] S IH]; intros a.
  - cbn. repeat split.
  - cbn [fold_left map]. specialize (IH (trend_elem a (b, (x, t)))).
    cbn zeta in IH. cbn zeta. cbn [fst snd].
    destruct IH as (H1 & H2 & H3 & H4 & H5 & H6 & H7 & H8).
    rewrite H1, H2, H3, H4, H5, H6, H7, H8. repeat split.
Qed.

Lemma filter_map_fst {A B : Type} (g : A -> B) (b : nat) (S : list (nat * A)) :
  map snd (filter (fun e => (fst e =? b)%nat) (map (fun e => (fst e, g (snd e))) S))
  = map g (bin_samples b S).
Proof.
  unfold bin_samples. induction S as [|[p x] S IH]; simpl; [reflexivity|].
  destruct (p =? b)%nat; simpl; now rewrite IH.
Qed.

(** The running sum of a bin is the sum of what fell into it. *)
Lemma scatter_sum_Fin {A : Type} (g : A -> Qc) (S : list (nat * A)) (n b : nat) :
  (b < n)%nat ->
  nth_error (fold_left (fun o '(p, v) => upd p (fun y => add y v) o)
                       (map (fun e => (fst e, Fin (g (snd e)))) S) (np_zeros n)) b
  = Some (Fin (sumQ (map g (bin_samples b S)))).
Proof.
  intros Hb.
  rewrite (nth_error_scatter add), nth_error_np_zeros by assumption.
  cbn [option_map]. f_equal.
  rewrite (filter_map_fst (fun x => Fin (g x))).
  rewrite <- map_map. apply npsum_Fin.
Qed.

(** The running count of a bin is how many fell into it. *)
Lemma scatter_count {A : Type} (S : list (nat * A)) (n b : nat) :
  (b < n)%nat ->
  nth_error (fold_left (fun o '(p, v) => upd p (fun c => (fun c (_ : unit) => Z.succ c) c v) o)
                       (map (fun e => (fst e, tt)) S) (repeat 0%Z n)) b
  = Some (Z.of_nat (length (bin_samples b S))).
Proof.
  intros Hb.
  rewrite (nth_error_scatter (fun c (_ : unit) => Z.succ c)), nth_error_repeat by assumption.
  cbn [option_map]. f_equal.
  rewrite (filter_map_fst (fun _ => tt)).
  generalize (bin_samples b S). intros l.
  assert (H : forall z, fold_left (fun c (_ : unit) => Z.succ c) (map (fun _ : A => tt) l) z
                        = (z + Z.of_nat (length l))%Z).
  { induction l as [|x l IH]; intros z; simpl length; cbn [map fold_left].
    - simpl. lia.
    - rewrite IH. lia. }
  rewrite H. lia.
Qed.

Lemma nth_error_div_count (a : list val) (c : list Z) (b : nat) (s : Qc) (k : nat) :
  nth_error a b = Some (Fin s) -> nth_error c b = Some (Z.of_nat k) ->
  nth_error (div_count a c) b
  = Some (if (k =? 0)%nat then NaN else Fin (s / nat2Qc k)).
Proof.
  intros Ha Hc. unfold div_count. rewrite nth_error_map2, Ha, nth_error_map, Hc.
  cbn [option_map div val_elem vdiv of_Z]. rewrite Z2Qc_eq0.
  destruct k; [reflexivity|].
  replace (Z.of_nat (S k) =? 0)%Z with false by (symmetry; apply Z.eqb_neq; lia).
  reflexivity.
Qed.

Lemma nth_error_combine {A B : Type} (l1 : list A) (l2 : list B) (i : nat) :
  nth_error (combine l1 l2) i
  = match nth_error l1 i, nth_error l2 i with
    | Some a, Some b => Some (a, b)
    | _, _ => None
    end.
Proof.
  revert l2 i. induction l1 as [|a l1 IH]; intros [|b l2] [|i]; simpl; try reflexivity.
  - now destruct (nth_error l1 i).
  - apply IH.
Qed.

Lemma samples_combine {A : Type} (d : A) (v : list A) (bins : list nat) :
  length v = length bins ->
  forall pre,
    map (fun e : nat * nat => (snd e, nth (fst e) (pre ++ v) d))
        (combine (seq (length pre) (length v)) bins)
    = combine bins v.
Proof.
  revert bins. induction v as [|x v IH]; intros [|b bins] H pre; simpl in H;
    try discriminate; [reflexivity|].
  cbn [length seq combine map fst snd].
  rewrite app_nth2, Nat.sub_diag by lia. cbn [nth]. f_equal.
  specialize (IH bins ltac:(lia) (pre ++ [x])).
  rewrite <- app_assoc, length_app, Nat.add_1_r in IH. exact IH.
Qed.

Lemma combine_Fin (bins : list nat) (xq tq : list Qc) :
  combine bins (combine (map Fin xq) (map Fin tq))
  = map (fun e => (fst e, (Fin (fst (snd e)), Fin (snd (snd e)))))
        (combine bins (combine xq tq)).
Proof.
  revert xq tq. induction bins as [|b bins IH]; intros [|x xq] [|t tq]; simpl;
    try reflexivity; now rewrite IH.
Qed.

Lemma trend_finalize_nth (a : trend_acc (T:=val)) (b : nat) (bs : list (Qc * Qc)) :
  nth_error (aF a) b = Some (Fin (sumQ (map fst bs))) ->
  nth_error (aX a) b = Some (Fin (sumQ (map snd bs))) ->
  nth_error (aXF a) b = Some (Fin (sumQ (map (fun e => fst e * snd e) bs))) ->
  nth_error (aX2 a) b = Some (Fin (sumQ (map (fun e => snd e * snd e) bs))) ->
  nth_error (nF a) b = Some (Z.of_nat (length bs)) ->
  nth_error (nX a) b = Some (Z.of_nat (length bs)) ->
  nth_error (nXF a) b = Some (Z.of_nat (length bs)) ->
  nth_error (nX2 a) b = Some (Z.of_nat (length bs)) ->
  (0 < length bs)%nat ->
  nth_error (trend_finalize a) b = Some (trend_coef bs).
Proof.
  intros HF HX HXF HX2 HnF HnX HnXF HnX2 Hk.
  unfold trend_finalize. cbn zeta.
  rewrite nth_error_map, nth_error_combine, nth_error_combine.
  rewrite !nth_error_map2.
  rewrite (@nth_error_div_count _ _ _ _ _ HF HnF), (@nth_error_div_count _ _ _ _ _ HX HnX),
          (@nth_error_div_count _ _ _ _ _ HXF HnXF),
          (@nth_error_div_count _ _ _ _ _ HX2 HnX2).
  destruct (length bs) as [|k'] eqn:Hlen; [lia|]. cbn [Nat.eqb].
  cbn [option_map sub mul div val_elem vlift2 vdiv].
  unfold trend_coef, intercept, slope, spread, Ex, Et, Etx, Et2, meanQ.
  rewrite !length_map, Hlen.
  destruct (Qeq_bool _ 0); reflexivity.
Qed.

Lemma bin_samples_nonempty {A : Type} (b : nat) (bins : list nat) (vals : list A) :
  length vals = length bins -> In b bins ->
  (0 < length (bin_samples b (combine bins vals)))%nat.
Proof.
  unfold bin_samples. revert vals.
  induction bins as [|c bins IH]; intros [|v vals] H Hin; simpl in *;
    try contradiction; try discriminate.
  destruct (Nat.eqb_spec c b) as [->|Hne]; simpl; [lia|].
  destruct Hin as [->|Hin]; [contradiction|]. apply IH; [lia | exact Hin].
Qed.

Lemma length_trend_field {T : Type} {E : Elem T} {V : Type} (f : T -> V -> T)
    (es : list (nat * V)) (n : nat) :
  length (fold_left (fun o '(p, v) => upd p (fun y => f y v) o) es (np_zeros n)) = n.
Proof. rewrite length_scatter. apply repeat_length. Qed.

(** The coefficients that [Trend.getview] returns for an exact variable on
    its climatological axis, under any memory budget: bin by bin, those of
    the least-squares line through the samples of the bin. *)
Lemma Trend_getview_exact (budget : nat) (ds : list date) (tq xq : list Qc) :
  length tq = length ds -> length xq = length ds ->
  Trend_getview budget (mkTimeOp Clim (exact_tvar ds tq xq) (get_outtime Clim ds))
  = Ok (map (fun b => trend_coef (bin_samples b (clim_samples ds tq xq)))
            (seq 0 (length (get_outtime Clim ds)))).
Proof.
  intros Ht Hx.
  rewrite Trend_getview_whole
    by (split; cbn [var reltime tvalues dates exact_tvar]; now rewrite length_map).
  unfold Trend_whole. cbn [var timemap outtime dates tvalues reltime exact_tvar].
  rewrite bins_covered_outtime. cbn [negb]. f_equal.
  unfold samples. rewrite common_map_outtime.
  set (ct := get_outtime Clim ds).
  set (bins := map (bin_of Clim ct) ds).
  assert (Hlen : length (combine (map Fin xq) (map Fin tq)) = length bins).
  { unfold bins. rewrite length_combine, !length_map. lia. }
  pose proof (samples_combine (nan, nan) (combine (map Fin xq) (map Fin tq)) bins Hlen [])
    as HS.
  cbn [app length] in HS. rewrite Hlen in HS. unfold bins at 1 in HS.
  rewrite length_map in HS. rewrite HS. clear HS.
  rewrite combine_Fin.
  change (combine bins (combine xq tq)) with (clim_samples ds tq xq).
  set (Sq := clim_samples ds tq xq).
  pose proof (trend_fields
                (map (fun e : nat * (Qc * Qc) =>
                        (fst e, (Fin (fst (snd e)), Fin (snd (snd e))))) Sq)
                (trend_acc0 (length ct))) as HF.
  cbn zeta in HF. rewrite !map_map in HF. cbn [fst snd] in HF.
  cbn [trend_acc0 aF aX aXF aX2 nF nX nXF nX2] in HF.
  destruct HF as (H1 & H2 & H3 & H4 & H5 & H6 & H7 & H8).
  apply nth_error_ext. intros b.
  rewrite nth_error_map, nth_error_seq.
  destruct (Nat.ltb_spec b (length ct)) as [Hb|Hb]; cbn [option_map Nat.add].
  - apply trend_finalize_nth.
    + rewrite H1. apply (scatter_sum_Fin (fun e : Qc * Qc => fst e)). exact Hb.
    + rewrite H2. apply (scatter_sum_Fin (fun e : Qc * Qc => snd e)). exact Hb.
    + rewrite H3. apply (scatter_sum_Fin (fun e : Qc * Qc => fst e * snd e)). exact Hb.
    + rewrite H4. apply (scatter_sum_Fin (fun e : Qc * Qc => snd e * snd e)). exact Hb.
    + rewrite H5. apply scatter_count. exact Hb.
    + rewrite H6. apply scatter_count. exact Hb.
    + rewrite H7. apply scatter_count. exact Hb.
    + rewrite H8. apply scatter_count. exact Hb.
    + unfold Sq, clim_samples. apply bin_samples_nonempty.
      * rewrite length_combine, length_map. lia.
      * destruct (outtime_bin_reached Clim ds Hb) as [d [Hd Hbin]].
        rewrite <- Hbin. now apply in_map.
  - unfold trend_finalize. cbn zeta.
    rewrite nth_error_map, nth_error_combine, nth_error_map2.
    unfold div_count at 1. rewrite nth_error_map2.
    replace (nth_error (aX2 _) b) with (@None val); [reflexivity|].
    symmetry. apply nth_error_None. rewrite H4, length_trend_field. exact Hb.
Qed.

(** ** The trend *)

Lemma sumQ_cons (q : Qc) (l : list Qc) : sumQ (q :: l) = q + sumQ l.
Proof. reflexivity. Qed.

Lemma nat2Qc_0 : nat2Qc 0 = 0.
Proof. apply Qc_is_canon. reflexivity. Qed.

Lemma nat2Qc_neq0 (k : nat) : k <> 0%nat -> nat2Qc k <> 0.
Proof.
  intros Hk H. pose proof (Z2Qc_eq0 (Z.of_nat k)) as Hz.
  unfold nat2Qc in H. rewrite H in Hz.
  replace (Z.of_nat k =? 0)%Z with false in Hz by (symmetry; apply Z.eqb_neq; lia).
  discriminate.
Qed.

Lemma Qeq_bool_neq0 (q : Qc) : q <> 0 -> Qeq_bool q 0 = false.
Proof.
  intros H. apply not_true_is_false. intros Hq. apply H.
  apply Qc_is_canon. now apply Qeq_bool_eq.
Qed.

Lemma sumQ_affine {A : Type} (f : A -> Qc) (a c : Qc) (l : list A) :
  sumQ (map (fun e => a * f e + c) l) = a * sumQ (map f l) + c * nat2Qc (length l).
Proof.
  induction l as [|x l IH].
  - cbn [map sumQ fold_right length]. rewrite nat2Qc_0. ring.
  - cbn [map length]. rewrite !sumQ_cons, IH, nat2Qc_S. ring.
Qed.

Lemma sumQ_affine_times {A : Type} (f : A -> Qc) (a c : Qc) (l : list A) :
  sumQ (map (fun e => (a * f e + c) * f e) l)
  = a * sumQ (map (fun e => f e * f e) l) + c * sumQ (map f l).
Proof.
  induction l as [|x l IH].
  - simpl. ring.
  - cbn [map]. rewrite !sumQ_cons, IH. ring.
Qed.

(** The least-squares line through samples of a line is that line. *)
Lemma line_recovered (a c : Qc) (bs : list (Qc * Qc)) :
  (forall e, In e bs -> fst e = a * snd e + c) ->
  spread bs <> 0 ->
  trend_coef bs = [Fin c; Fin a].
Proof.
  intros Hline Hsp. unfold trend_coef. rewrite (Qeq_bool_neq0 Hsp).
  assert (Hk : nat2Qc (length bs) <> 0).
  { apply nat2Qc_neq0. intros H0. apply Hsp.
    apply length_zero_iff_nil in H0. subst bs.
    unfold spread, Et2, Et, meanQ. cbn [map sumQ fold_right]. unfold Qcdiv. ring. }
  assert (Hx : Ex bs = a * Et bs + c).
  { unfold Ex, Et, meanQ.
    rewrite (map_ext_in fst (fun e => a * snd e + c)) by exact Hline.
    rewrite sumQ_affine, !length_map. now field. }
  assert (Htx : Etx bs = a * Et2 bs + c * Et bs).
  { unfold Etx, Et2, Et, meanQ.
    rewrite (map_ext_in (fun e => fst e * snd e) (fun e => (a * snd e + c) * snd e))
      by (intros e He; now rewrite (Hline e He)).
    rewrite sumQ_affine_times, !length_map. now field. }
  unfold intercept, slope. rewrite Hx, Htx.
  f_equal; [|f_equal]; f_equal; unfold spread in *; now field.
Qed.

(** Closed forms of the sums of evenly spaced times and of their squares. *)
Lemma sums_evenly_spaced (t0 dt : Qc) (n : nat) :
  let ts := map (fun i => t0 + dt * nat2Qc i) (seq 0 n) in
  let N := nat2Qc n in
  (1+1) * sumQ ts = (1+1) * N * t0 + dt * N * (N - 1)
  /\ (1+1+1+1+1+1) * sumQ (map (fun t => t * t) ts)
     = (1+1+1+1+1+1) * N * t0 * t0 + (1+1+1+1+1+1) * t0 * dt * N * (N - 1)
       + dt * dt * (N - 1) * N * ((1+1) * N - 1).
Proof.
  cbn zeta. induction n as [|n [IH1 IH2]].
  - simpl. rewrite nat2Qc_0. split; ring.
  - rewrite seq_S, !map_app, !sumQ_app. cbn [map sumQ fold_right Nat.add].
    rewrite nat2Qc_S.
    set (S1 := sumQ (map (fun i : nat => t0 + dt * nat2Qc i) (seq 0 n))) in *.
    set (S2 := sumQ (map (fun t : Qc => t * t)
                         (map (fun i : nat => t0 + dt * nat2Qc i) (seq 0 n)))) in *.
    set (N := nat2Qc n) in *.
    split.
    + transitivity ((1 + 1) * S1 + (1 + 1) * (t0 + dt * N)); [ring|].
      rewrite IH1. ring.
    + transitivity ((1 + 1 + 1 + 1 + 1 + 1) * S2
                    + (1 + 1 + 1 + 1 + 1 + 1) * ((t0 + dt * N) * (t0 + dt * N))); [ring|].
      rewrite IH2. ring.
Qed.

(** Samples at two or more evenly spaced times do not lie at one time. *)
Lemma spread_evenly_spaced (t0 dt : Qc) (n : nat) (bs : list (Qc * Qc)) :
  map snd bs = map (fun i => t0 + dt * nat2Qc i) (seq 0 n) ->
  (2 <= n)%nat -> dt <> 0 -> spread bs <> 0.
Proof.
  intros Hts Hn Hdt Hsp.
  destruct (sums_evenly_spaced t0 dt n) as [H1 H2]. cbn zeta in H1, H2.
  unfold spread, Et2, Et, meanQ in Hsp.
  rewrite <- (map_map snd (fun t => t * t)) in Hsp.
  rewrite !length_map, Hts in Hsp.
  assert (Hlen : length bs = n).
  { rewrite <- (length_map snd), Hts, length_map, length_seq. reflexivity. }
  rewrite Hlen in Hsp.
  set (S1 := sumQ (map (fun i : nat => t0 + dt * nat2Qc i) (seq 0 n))) in *.
  set (S2 := sumQ (map (fun t : Qc => t * t)
                       (map (fun i : nat => t0 + dt * nat2Qc i) (seq 0 n)))) in *.
  set (N := nat2Qc n) in *.
  assert (HN : N <> 0) by (apply nat2Qc_neq0; lia).
  assert (HN1 : N - 1 <> 0).
  { destruct n as [|n]; [lia|]. unfold N. rewrite nat2Qc_S.
    replace (nat2Qc n + 1 - 1) with (nat2Qc n) by ring. apply nat2Qc_neq0. lia. }
  assert (HN2 : N + 1 <> 0).
  { unfold N. rewrite <- nat2Qc_S. apply nat2Qc_neq0. lia. }
  assert (Hkey : dt * dt * (N * N * ((N - 1) * (N + 1))) = 0).
  { transitivity ((1+1+1+1+1+1+1+1+1+1+1+1) * N * N * (S2 / N - S1 / N * (S1 / N))).
    - transitivity ((1 + 1) * N * ((1 + 1 + 1 + 1 + 1 + 1) * S2)
                    - (1 + 1 + 1) * (((1 + 1) * S1) * ((1 + 1) * S1))).
      + rewrite H1, H2. ring.
      + field. exact HN.
    - rewrite Hsp. ring. }
  apply Qcmult_integral in Hkey. destruct Hkey as [Hk|Hk].
  - apply Qcmult_integral in Hk. tauto.
  - apply Qcmult_integral in Hk. destruct Hk as [Hk|Hk].
    + apply Qcmult_integral in Hk. tauto.
    + apply Qcmult_integral in Hk. tauto.
Qed.

Lemma climtrend_ok (ds : list date) (tq xq : list Qc) :
  (1 < length ds)%nat ->
  climtrend (exact_tvar ds tq xq)
  = Ok (mkTimeOp Clim (exact_tvar ds tq xq) (get_outtime Clim ds)).
Proof.
  intros Hn. unfold climtrend, Trend_init, TimeOp_init. cbn [bind dates exact_tvar].
  apply Nat.ltb_lt in Hn. now rewrite Hn.
Qed.

(** C7 (amended: the guard of the trend). When the time axis has at most
    one timestep, [climtrend] fails with the assertion error "need more
    than one timestep for a trend": no operation is built, so nothing is
    accumulated and neither its [getview] nor [detrend] returns anything
    but that error. With two or more timesteps the operation is built,
    whatever the timesteps are: only their number is looked at. *)
Theorem climtrend_needs_two_timesteps {T : Type} {E : Elem T} (v : tvar (T:=T))
    (budget : nat) :
  ((length (dates v) <= 1)%nat ->
   climtrend v = Raise (AssertionError "need more than one timestep for a trend")
   /\ (op <- climtrend v ;; Trend_getview budget op)
      = Raise (AssertionError "need more than one timestep for a trend")
   /\ detrend budget v = Raise (AssertionError "need more than one timestep for a trend"))
  /\ ((1 < length (dates v))%nat ->
      climtrend v = Ok (mkTimeOp Clim v (get_outtime Clim (dates v)))).
Proof.
  unfold detrend, climtrend, Trend_init, TimeOp_init. cbn [bind].
  destruct (Nat.ltb_spec 1 (length (dates v))) as [Hlt|Hle]; split; intros H.
  - lia.
  - reflexivity.
  - repeat split.
  - lia.
Qed.

Lemma climtrend_needs_two_timesteps_witness :
  (climtrend (mkTvar [jan1] [0%float] [7%float])
     = Raise (AssertionError "need more than one timestep for a trend")
   /\ (op <- climtrend (mkTvar [jan1] [0%float] [7%float]) ;; Trend_getview 10 op)
      = Raise (AssertionError "need more than one timestep for a trend")
   /\ detrend 10 (mkTvar [jan1] [0%float] [7%float])
      = Raise (AssertionError "need more than one timestep for a trend"))
  /\ climtrend two_days_f = Ok (mkTimeOp Clim two_days_f (get_outtime Clim (dates two_days_f))).
Proof.
  split.
  - apply (proj1 (climtrend_needs_two_timesteps (mkTvar [jan1] [0%float] [7%float]) 10)).
    simpl. lia.
  - apply (proj2 (climtrend_needs_two_timesteps two_days_f 10)).
    simpl. lia.
Defined.

(** C7 (counterexample). A time axis whose two timesteps are the same
    instant does not hold two distinct time samples, yet the construction
    succeeds; the coefficients it then yields are NaN. *)
Lemma climtrend_accepts_equal_timesteps :
  ~ NoDup (dates same_instant)
  /\ ~ NoDup (reltime same_instant)
  /\ climtrend same_instant = Ok (mkTimeOp Clim same_instant [[1; 1; 0]%Z])
  /\ Trend_getview 10 (mkTimeOp Clim same_instant [[1; 1; 0]%Z])
     = Ok [[PrimFloat.nan; PrimFloat.nan]].
Proof.
  split; [|split; [|split]].
  - intros H. inversion H; subst. apply H2. now left.
  - intros H. inversion H; subst. apply H2. now left.
  - reflexivity.
  - vm_compute. reflexivity.
Qed.

(** C1 (amended: the trend of each climatological bin). For an exact
    variable with more than one timestep and under every memory budget,
    [climtrend] succeeds and returns one pair of coefficients for each bin
    of the climatological axis; for every bin with E[t^2] <> E[t]^2 over
    its samples, and so for every bin whose samples are two or more at
    evenly spaced times, the pair is the intercept (coefficient 0) and the
    slope (coefficient 1) of the closed-form least-squares line through
    the samples of that bin, with t the elapsed seconds; for data
    y = 3 t + 7 such a bin gets intercept 7 and slope 3. *)
Theorem climtrend_least_squares (budget : nat) (ds : list date) (tq xq : list Qc) :
  length tq = length ds -> length xq = length ds -> (1 < length ds)%nat ->
  exists op coef,
    climtrend (exact_tvar ds tq xq) = Ok op
    /\ Trend_getview budget op = Ok coef
    /\ length coef = length (outtime op)
    /\ forall b,
         (b < length (outtime op))%nat ->
         (spread (bin_samples b (clim_samples ds tq xq)) <> 0
          \/ exists t0 dt n,
               map snd (bin_samples b (clim_samples ds tq xq))
               = map (fun i => t0 + dt * nat2Qc i) (seq 0 n)
               /\ (2 <= n)%nat /\ dt <> 0) ->
         nth_error coef b
         = Some [Fin (intercept (bin_samples b (clim_samples ds tq xq)));
                 Fin (slope (bin_samples b (clim_samples ds tq xq)))]
         /\ ((forall e, In e (bin_samples b (clim_samples ds tq xq)) ->
                        fst e = Z2Qc 3 * snd e + Z2Qc 7) ->
             nth_error coef b = Some [Fin (Z2Qc 7); Fin (Z2Qc 3)]).
Proof.
  intros Ht Hx Hn.
  exists (mkTimeOp Clim (exact_tvar ds tq xq) (get_outtime Clim ds)).
  exists (map (fun b => trend_coef (bin_samples b (clim_samples ds tq xq)))
              (seq 0 (length (get_outtime Clim ds)))).
  split; [now apply climtrend_ok|].
  split; [now apply Trend_getview_exact|]. cbn [outtime].
  split; [now rewrite length_map, length_seq|].
  intros b Hb Hwell.
  assert (Hsp : spread (bin_samples b (clim_samples ds tq xq)) <> 0).
  { destruct Hwell as [Hsp|(t0 & dt & n & Hts & Hn2 & Hdt)]; [exact Hsp|].
    now apply (@spread_evenly_spaced t0 dt n). }
  rewrite nth_error_map, nth_error_seq.
  replace (b <? length (get_outtime Clim ds))%nat with true
    by (symmetry; now apply Nat.ltb_lt).
  cbn [option_map Nat.add]. split.
  - unfold trend_coef. now rewrite (Qeq_bool_neq0 Hsp).
  - intros Hline. f_equal. now apply line_recovered.
Qed.

Lemma climtrend_least_squares_witness :
  exists op coef,
    climtrend (exact_tvar three_years_d three_years_t three_years_x) = Ok op
    /\ Trend_getview 2 op = Ok coef
    /\ length coef = length (outtime op)
    /\ length (outtime op) = 1%nat
    /\ nth_error coef 0 = Some [Fin (Z2Qc 7); Fin (Z2Qc 3)].
Proof.
  destruct (climtrend_least_squares 2 three_years_d three_years_t three_years_x)
    as (op & coef & Hop & Hcoef & Hlen & Hbins).
  - reflexivity.
  - reflexivity.
  - simpl. lia.
  - exists op, coef. split; [exact Hop|]. split; [exact Hcoef|]. split; [exact Hlen|].
    assert (Hn : length (outtime op) = 1%nat).
    { vm_compute in Hop. injection Hop as <-. reflexivity. }
    split; [exact Hn|].
    apply (Hbins 0%nat).
    + rewrite Hn. lia.
    + left. intros H. apply (f_equal this) in H. vm_compute in H. discriminate.
    + intros e He. vm_compute in He.
      destruct He as [<-|[<-|[<-|[]]]]; apply Qc_is_canon; reflexivity.
Defined.

(** C1 (counterexample). Two timesteps a day apart carry y = 3 t + 7; each
    is alone in its climatological bin, and the coefficients of both bins
    are NaN, on exact elements and in float64 alike. *)
Lemma climtrend_single_sample_bins :
  (1 < length (dates two_days))%nat
  /\ list_eqb val_eqb (tvalues two_days)
       (map (fun t => add (mul (Fin (Z2Qc 3)) t) (Fin (Z2Qc 7))) (reltime two_days)) = true
  /\ (exists op, climtrend two_days = Ok op
                 /\ Trend_getview 10 op = Ok [[NaN; NaN]; [NaN; NaN]]
                 /\ Trend_getview 1 op = Ok [[NaN; NaN]; [NaN; NaN]])
  /\ (exists op, climtrend two_days_f = Ok op
                 /\ Trend_getview 10 op
                    = Ok [[PrimFloat.nan; PrimFloat.nan]; [PrimFloat.nan; PrimFloat.nan]]).
Proof.
  split; [simpl; lia|]. split; [vm_compute; reflexivity|]. split.
  - eexists. split; [reflexivity|]. split; vm_compute; reflexivity.
  - eexists. split; [reflexivity|]. vm_compute. reflexivity.
Qed.

(** ** Independence of the chunking *)



(** ** Reconstruction and detrending *)

Lemma length_map2 {T : Type} (f : T -> T -> T) (a b : list T) :
  length (map2 f a b) = Nat.min (length a) (length b).
Proof.
  revert b. induction a as [|x a IH]; intros [|y b]; simpl; auto.
Qed.

(** [from_trend.getview] when every date of the target axis has a bin
    among the coefficients: A*secs + B with the coefficients of that bin. *)
Lemma from_trend_getview_bins {T : Type} {E : Elem T} (m : TimeMap) (ds : list date)
    (secs : list T) (ct : list (list Z)) (coef : list (list T)) :
  (forall d, In d ds ->
             exists b, index_of (out_fields m d) ct = Some b /\ (b < length coef)%nat) ->
  from_trend_getview m ds secs ct coef
  = map2 add
      (map2 mul (map (fun d => nth 1 (nth (bin_of m ct d) coef []) nan) ds) secs)
      (map (fun d => nth 0 (nth (bin_of m ct d) coef []) nan) ds).
Proof.
  intros H. unfold from_trend_getview.
  assert (Hc : forall c,
             flat_map (fun d =>
                         match index_of (out_fields m d) ct with
                         | Some b => match nth_error coef b with
                                     | Some cs => [nth c cs nan]
                                     | None => []
                                     end
                         | None => []
                         end) ds
             = map (fun d => nth c (nth (bin_of m ct d) coef []) nan) ds).
  { intros c. induction ds as [|d ds IH]; [reflexivity|].
    cbn [flat_map map]. rewrite IH by (intros; apply H; now right).
    destruct (H d (or_introl eq_refl)) as [b [Hb Hlt]].
    unfold bin_of at 2. rewrite Hb.
    destruct (nth_error coef b) as [cs|] eqn:Hcs;
      [|apply nth_error_None in Hcs; lia].
    now rewrite (nth_error_nth _ _ [] Hcs). }
  now rewrite !Hc.
Qed.

(** C6 (amended: detrending and its round trip). For an exact variable
    with more than one timestep and under every memory budget, [detrend]
    succeeds; element by element it returns x minus A*t + B, with A and B
    the coefficients that [climtrend] gives to the climatological bin of
    the element; wherever that reconstruction is a number, adding it back
    gives x again. *)
Theorem detrend_round_trip (budget : nat) (ds : list date) (tq xq : list Qc) :
  length tq = length ds -> length xq = length ds -> (1 < length ds)%nat ->
  exists out clim,
    detrend budget (exact_tvar ds tq xq) = Ok (out, clim)
    /\ length out = length ds /\ length clim = length ds
    /\ forall i d t x,
         nth_error ds i = Some d -> nth_error tq i = Some t -> nth_error xq i = Some x ->
         let cs := trend_coef (bin_samples (bin_of Clim (get_outtime Clim ds) d)
                                           (clim_samples ds tq xq)) in
         let c := add (mul (nth 1 cs nan) (Fin t)) (nth 0 cs nan) in
         nth_error clim i = Some c
         /\ nth_error out i = Some (sub (Fin x) c)
         /\ (isnan c = false -> add (sub (Fin x) c) c = Fin x).
Proof.
  intros Ht Hx Hn.
  unfold detrend. rewrite climtrend_ok by exact Hn. cbn [bind].
  rewrite Trend_getview_exact by assumption.
  cbn [bind outtime var dates reltime tvalues exact_tvar].
  set (ct := get_outtime Clim ds).
  set (coef := map (fun b => trend_coef (bin_samples b (clim_samples ds tq xq)))
                   (seq 0 (length ct))).
  assert (Hbins : forall d, In d ds ->
            exists b, index_of (out_fields Clim d) ct = Some b /\ (b < length coef)%nat).
  { intros d Hd. destruct (index_of_outtime Clim ds d Hd) as [b [Hb Hlt]].
    exists b. split; [exact Hb|]. unfold coef. now rewrite length_map, length_seq. }
  rewrite (from_trend_getview_bins Clim ds (map Fin tq) ct coef Hbins).
  eexists. eexists. split; [reflexivity|].
  split; [|split].
  - rewrite !length_map2, !length_map. lia.
  - rewrite !length_map2, !length_map. lia.
  - intros i d t x Hd Hti Hxi. cbn zeta.
    assert (Hcoef : nth (bin_of Clim ct d) coef []
                    = trend_coef (bin_samples (bin_of Clim ct d) (clim_samples ds tq xq))).
    { destruct (index_of_outtime Clim ds d (nth_error_In _ _ Hd)) as [b [Hb Hlt]].
      unfold bin_of. fold ct in Hb, Hlt. rewrite Hb.
      apply nth_error_nth. unfold coef.
      rewrite nth_error_map, nth_error_seq.
      replace (b <? length ct)%nat with true by (symmetry; now apply Nat.ltb_lt).
      reflexivity. }
    assert (Hclim : nth_error
                      (map2 add
                         (map2 mul (map (fun d => nth 1 (nth (bin_of Clim ct d) coef []) nan) ds)
                               (map Fin tq))
                         (map (fun d => nth 0 (nth (bin_of Clim ct d) coef []) nan) ds)) i
                    = Some (add (mul (nth 1 (trend_coef
                                               (bin_samples (bin_of Clim ct d)
                                                            (clim_samples ds tq xq))) nan)
                                     (Fin t))
                                (nth 0 (trend_coef
                                          (bin_samples (bin_of Clim ct d)
                                                       (clim_samples ds tq xq))) nan))).
    { rewrite !nth_error_map2, !nth_error_map, Hd, Hti. cbn [option_map].
      now rewrite Hcoef. }
    split; [exact Hclim|]. split.
    + rewrite nth_error_map2, nth_error_map, Hxi, Hclim. reflexivity.
    + destruct (add _ _) as [q|]; [|discriminate]. intros _.
      cbn [add sub val_elem vlift2]. f_equal. ring.
Qed.

Lemma detrend_round_trip_witness :
  exists out clim,
    detrend 2 (exact_tvar three_years_d three_years_t three_years_x) = Ok (out, clim)
    /\ length out = length three_years_d /\ length clim = length three_years_d
    /\ forall i d t x,
         nth_error three_years_d i = Some d -> nth_error three_years_t i = Some t ->
         nth_error three_years_x i = Some x ->
         let cs := trend_coef (bin_samples (bin_of Clim (get_outtime Clim three_years_d) d)
                                 (clim_samples three_years_d three_years_t three_years_x)) in
         let c := add (mul (nth 1 cs nan) (Fin t)) (nth 0 cs nan) in
         nth_error clim i = Some c
         /\ nth_error out i = Some (sub (Fin x) c)
         /\ (isnan c = false -> add (sub (Fin x) c) c = Fin x).
Proof.
  apply (detrend_round_trip 2 three_years_d three_years_t three_years_x).
  - reflexivity.
  - reflexivity.
  - simpl. lia.
Defined.

(** C6 (counterexample). For the two timesteps a day apart, the
    reconstruction is NaN at both, so is [detrend], and adding the
    reconstruction back does not give the data, on exact elements and in
    float64 alike. *)
Lemma detrend_single_sample_bins :
  (exists out clim,
     detrend 10 two_days = Ok (out, clim)
     /\ map2 add out clim = [NaN; NaN]
     /\ list_eqb val_eqb (map2 add out clim) (tvalues two_days) = false)
  /\ detrend 10 two_days_f
     = Ok ([PrimFloat.nan; PrimFloat.nan], [PrimFloat.nan; PrimFloat.nan]).
Proof.
  split.
  - exists [NaN; NaN], [NaN; NaN]. split; [vm_compute; reflexivity|].
    split; vm_compute; reflexivity.
  - vm_compute. reflexivity.
Qed.

(** ** Axis lookup by integer *)

(** For an integer [i], [whichaxis] returns [i] exactly when
    [0 <= i < naxes]; for every other integer, negative ones included, the
    fall-through reaches [issubclass(iaxis, Axis)] and the call ends in a
    TypeError, not in the KeyError of the docstring. [getaxis] returns the
    i-th axis or ends in the same TypeError. *)
Lemma whichaxis_int {Axis Cls : Type} {AL : AxisLike Axis Cls}
    (axes : list Axis) (i : Z) :
  whichaxis axes (PInt i) =
    (if ((0 <=? i)%Z && (i <? Z.of_nat (length axes))%Z)%bool
     then Ok (Z.to_nat i) else Raise TypeError)
  /\ getaxis axes (PInt i) =
    (if ((0 <=? i)%Z && (i <? Z.of_nat (length axes))%Z)%bool
     then match nth_error axes (Z.to_nat i) with
          | Some a => Ok a
          | None => Raise IndexError
          end
     else Raise TypeError).
Proof.
  unfold getaxis, whichaxis, int_in_range.
  destruct ((0 <=? i)%Z && (i <? Z.of_nat (length axes))%Z)%bool; split; reflexivity.
Qed.

(** C10 (failing input). On a variable with axes (lat, lon), index -1 and
    index 2 raise TypeError; [hasaxis] does not catch it. *)
Theorem whichaxis_out_of_range_TypeError :
  whichaxis [lat; lon] (PInt (-1)) = Raise TypeError
  /\ whichaxis [lat; lon] (PInt 2) = Raise TypeError
  /\ getaxis [lat; lon] (PInt (-1)) = Raise TypeError
  /\ hasaxis [lat; lon] (PInt (-1)) = Raise TypeError
  /\ whichaxis [lat; lon] (PInt 1) = Ok 1%nat
  /\ whichaxis [lat; lon] (PStr "time") = Raise KeyError.
Proof. repeat split; reflexivity. Qed.



(* ===================================================================== *)
(** * Further properties *)

(** ** var.py: axis lookup *)

Import VarOps.

Lemma first_index_Some {Axis : Type} (p : Axis -> bool) (axes : list Axis) (s i : nat) :
  first_index p axes s = Some i ->
  exists k a, i = (s + k)%nat /\ nth_error axes k = Some a /\ p a = true
              /\ forall j b, (j < k)%nat -> nth_error axes j = Some b -> p b = false.
Proof.
  revert s. induction axes as [|x axes IH]; intros s H; cbn in H; [discriminate|].
  destruct (p x) eqn:Hp.
  - injection H as <-. exists 0%nat, x. repeat split; [lia | exact Hp | intros j b Hj; lia].
  - destruct (IH _ H) as (k & a & -> & Hk & Ha & Hfirst).
    exists (S k), a. repeat split; [lia | exact Hk | exact Ha |].
    intros [|j] b Hj Hb; cbn in Hb.
    + injection Hb as <-. exact Hp.
    + apply (Hfirst j b); [lia | exact Hb].
Qed.

Lemma first_index_None {Axis : Type} (p : Axis -> bool) (axes : list Axis) (s : nat) :
  first_index p axes s = None <-> existsb p axes = false.
Proof.
  revert s. induction axes as [|x axes IH]; intros s; cbn; [tauto|].
  destruct (p x); cbn; [split; discriminate | apply IH].
Qed.

Lemma first_index_existsb {Axis : Type} (p : Axis -> bool) (axes : list Axis) (s : nat) :
  existsb p axes = match first_index p axes s with Some _ => true | None => false end.
Proof.
  destruct (first_index p axes s) eqn:H.
  - destruct (existsb p axes) eqn:He; [reflexivity|].
    apply (first_index_None p axes s) in He. congruence.
  - apply (first_index_None p axes s). exact H.
Qed.

Section Lookup.
Context {Axis Cls : Type} {AL : AxisLike Axis Cls}.

Lemma whichaxis_lt (axes : list Axis) (iaxis : pyarg Axis Cls) (i : nat) :
  whichaxis axes iaxis = Ok i -> (i < length axes)%nat.
Proof.
  assert (Hfi : forall p, or_KeyError (first_index p axes 0) = Ok i -> (i < length axes)%nat).
  { intros p H. destruct (first_index p axes 0) as [k|] eqn:Hk; [|discriminate].
    injection H as ->. apply first_index_Some in Hk.
    destruct Hk as (k & a & -> & Hn & _). apply nth_error_Some. cbn. congruence. }
  unfold whichaxis. destruct iaxis as [s|z|x|c|]; cbn.
  - apply Hfi.
  - destruct ((0 <=? z)%Z && (z <? Z.of_nat (length axes))%Z)%bool eqn:Hr; [|discriminate].
    intros H. injection H as <-.
    apply andb_true_iff in Hr. destruct Hr as [H0 H1].
    apply Z.leb_le in H0. apply Z.ltb_lt in H1. lia.
  - apply Hfi.
  - destruct (issubclass_Axis c); [apply Hfi | discriminate].
  - discriminate.
Qed.

Lemma whichaxis_matches (axes : list Axis) (iaxis : pyarg Axis Cls) :
  int_in_range axes iaxis = None ->
  whichaxis axes iaxis =
    match iaxis with
    | PStr _ | PAxis _ => or_KeyError (first_index (matches iaxis) axes 0)
    | PClass c => if issubclass_Axis c then or_KeyError (first_index (matches iaxis) axes 0)
                  else Raise KeyError
    | _ => Raise TypeError
    end.
Proof.
  unfold whichaxis. destruct iaxis as [s|z|x|c|]; cbn; try reflexivity.
  intros ->. reflexivity.
Qed.

End Lookup.

(** X1. [getaxis] succeeds exactly when [whichaxis] does, and then returns
    the axis that stands at the index [whichaxis] gives, which is always a
    position of the axes; otherwise it raises the error of [whichaxis],
    a KeyError or a TypeError. The indexing [self.axes[...]] never fails. *)
Theorem getaxis_follows_whichaxis {Axis Cls : Type} {AL : AxisLike Axis Cls}
    (axes : list Axis) (iaxis : pyarg Axis Cls) :
  match whichaxis axes iaxis with
  | Ok i => (i < length axes)%nat
            /\ exists a, nth_error axes i = Some a /\ getaxis axes iaxis = Ok a
  | Raise e => getaxis axes iaxis = Raise e /\ (e = KeyError \/ e = TypeError)
  end.
Proof.
  destruct (whichaxis axes iaxis) as [i|e] eqn:H.
  - pose proof (whichaxis_lt _ _ H) as Hlt. split; [exact Hlt|].
    destruct (nth_error axes i) as [a|] eqn:Ha.
    + exists a. split; [reflexivity|]. unfold getaxis. rewrite H. cbn. rewrite Ha. reflexivity.
    + apply nth_error_None in Ha. lia.
  - split; [unfold getaxis; rewrite H; reflexivity|].
    assert (Hfi : forall p, or_KeyError (first_index p axes 0) = Raise e -> e = KeyError).
    { intros p. destruct (first_index p axes 0); cbn; congruence. }
    unfold whichaxis in H. destruct iaxis as [s|z|x|c|]; cbn in H.
    + left. exact (Hfi _ H).
    + destruct ((0 <=? z)%Z && (z <? Z.of_nat (length axes))%Z)%bool; [discriminate|].
      right. congruence.
    + left. exact (Hfi _ H).
    + destruct (issubclass_Axis c); [left; exact (Hfi _ H) | left; congruence].
    + right. congruence.
Qed.

(** X2. A lookup by name, by axis object or by class returns the first
    axis that matches: the axis at the returned index matches, and no axis
    before it does. *)
Theorem whichaxis_first_match {Axis Cls : Type} {AL : AxisLike Axis Cls}
    (axes : list Axis) (iaxis : pyarg Axis Cls) (i : nat) :
  int_in_range axes iaxis = None ->
  whichaxis axes iaxis = Ok i ->
  (exists a, nth_error axes i = Some a /\ matches iaxis a = true)
  /\ (forall j b, (j < i)%nat -> nth_error axes j = Some b -> matches iaxis b = false).
Proof.
  intros Hint H. rewrite (whichaxis_matches _ _ Hint) in H.
  assert (Hfi : or_KeyError (first_index (matches iaxis) axes 0) = Ok i ->
                (exists a, nth_error axes i = Some a /\ matches iaxis a = true)
                /\ (forall j b, (j < i)%nat -> nth_error axes j = Some b ->
                                matches iaxis b = false)).
  { destruct (first_index (matches iaxis) axes 0) as [k|] eqn:Hk; [|discriminate].
    intros Hi. injection Hi as ->. apply first_index_Some in Hk.
    destruct Hk as (k & a & -> & Hn & Ha & Hfirst). cbn.
    split; [exists a; split; assumption | exact Hfirst]. }
  destruct iaxis as [s|z|x|c|]; try discriminate; try (apply Hfi; exact H).
  destruct (issubclass_Axis c); [apply Hfi; exact H | discriminate].
Qed.

Lemma whichaxis_first_match_witness :
  (exists a, nth_error [lat; lon] 1 = Some a
             /\ matches (PStr (Cls:=axis_class) "lon") a = true)
  /\ (forall j b, (j < 1)%nat -> nth_error [lat; lon] j = Some b ->
                  matches (PStr (Cls:=axis_class) "lon") b = false).
Proof.
  apply (@whichaxis_first_match axis axis_class axis_like [lat; lon] (PStr "lon") 1%nat);
    reflexivity.
Defined.

(** X3. [hasaxis] is a membership test for names, axis objects and
    classes, and never raises for them: a name or an axis object is found
    when some axis matches it, a class when it is a subclass of [Axis] and
    some axis is an instance of it. An integer is found when it is within
    range; out of range, as for any other object, the answer is a TypeError
    and never [False]. *)
Theorem hasaxis_membership {Axis Cls : Type} {AL : AxisLike Axis Cls}
    (axes : list Axis) (iaxis : pyarg Axis Cls) :
  hasaxis axes iaxis =
    match iaxis with
    | PStr _ | PAxis _ => Ok (existsb (matches iaxis) axes)
    | PClass c => Ok (issubclass_Axis c && existsb (matches iaxis) axes)
    | PInt z => if ((0 <=? z)%Z && (z <? Z.of_nat (length axes))%Z)%bool then Ok true
                else Raise TypeError
    | PObj => Raise TypeError
    end.
Proof.
  assert (Hfi : forall p,
             match or_KeyError (first_index p axes 0) with
             | Ok _ => Ok true
             | Raise KeyError => Ok false
             | Raise e => Raise e
             end = Ok (existsb p axes)).
  { intros p. rewrite (first_index_existsb p axes 0).
    destruct (first_index p axes 0); reflexivity. }
  unfold hasaxis, whichaxis. destruct iaxis as [s|z|x|c|]; cbn.
  - apply Hfi.
  - destruct ((0 <=? z)%Z && (z <? Z.of_nat (length axes))%Z)%bool; reflexivity.
  - apply Hfi.
  - destruct (issubclass_Axis c); [apply Hfi | reflexivity].
  - reflexivity.
Qed.

(** X4. Looking up an axis object that the variable carries: when [==] on
    axes is reflexive, [whichaxis] finds it, at the first position whose
    axis equals it (no axis before that position equals it), which is not
    after its own; when no earlier axis equals it, [whichaxis] gives its
    own position and [getaxis] gives the axis back. *)
Theorem whichaxis_of_own_axis {Axis Cls : Type} {AL : AxisLike Axis Cls}
    (axes : list Axis) (a : Axis) (i : nat) :
  (forall x : Axis, axis_eqb x x = true) ->
  nth_error axes i = Some a ->
  exists j a', whichaxis axes (PAxis a) = Ok j /\ (j <= i)%nat
    /\ getaxis axes (PAxis a) = Ok a' /\ axis_eqb a' a = true
    /\ (forall k b, (k < j)%nat -> nth_error axes k = Some b -> axis_eqb b a = false)
    /\ ((forall k b, (k < i)%nat -> nth_error axes k = Some b -> axis_eqb b a = false) ->
        j = i /\ a' = a).
Proof.
  intros Hrefl Hi.
  assert (Hw : whichaxis axes (PAxis a) = or_KeyError (first_index (fun b => axis_eqb b a) axes 0))
    by reflexivity.
  destruct (first_index (fun b => axis_eqb b a) axes 0) as [j|] eqn:Hj.
  - apply first_index_Some in Hj. destruct Hj as (k & a' & -> & Hk & Ha' & Hfirst).
    assert (Hle : (k <= i)%nat).
    { destruct (Nat.le_gt_cases k i) as [Hle|Hgt]; [exact Hle|].
      pose proof (Hfirst i a Hgt Hi) as Hf. rewrite Hrefl in Hf. discriminate. }
    exists k, a'. split; [exact Hw|]. split; [exact Hle|].
    split; [unfold getaxis; rewrite Hw; cbn; rewrite Hk; reflexivity|].
    split; [exact Ha'|].
    split; [exact Hfirst|].
    intros Hnone. destruct (Nat.eq_dec k i) as [->|Hne].
    + split; [reflexivity | congruence].
    + rewrite (Hnone k a') in Ha'; [discriminate | lia | exact Hk].
  - apply first_index_None in Hj.
    assert (Hin : In a axes) by (eapply nth_error_In; exact Hi).
    assert (He : existsb (fun b => axis_eqb b a) axes = true).
    { apply existsb_exists. exists a. split; [exact Hin | apply Hrefl]. }
    congruence.
Qed.

Lemma axis_eqb_refl (x : axis) : axis_eqb x x = true.
Proof.
  destruct x as [n c l]. cbn. rewrite String.eqb_refl, Nat.eqb_refl.
  destruct c; reflexivity.
Qed.

Lemma whichaxis_of_own_axis_witness :
  exists j a', whichaxis [lat; lon] (PAxis (Cls:=axis_class) lon) = Ok j /\ (j <= 1)%nat
    /\ getaxis [lat; lon] (PAxis (Cls:=axis_class) lon) = Ok a' /\ axis_eqb a' lon = true
    /\ (forall k b, (k < j)%nat -> nth_error [lat; lon] k = Some b -> axis_eqb b lon = false)
    /\ ((forall k b, (k < 1)%nat -> nth_error [lat; lon] k = Some b -> axis_eqb b lon = false) ->
        j = 1%nat /\ a' = lon).
Proof.
  apply (@whichaxis_of_own_axis axis axis_class axis_like [lat; lon] lon 1%nat).
  - exact axis_eqb_refl.
  - reflexivity.
Defined.

(** ** var.py: attribute shortcuts *)

(** X5. [Var.__getattr__] answers with an axis only for a name that is
    neither [axes], [values] nor one that starts with two underscores, and
    then with an axis of the variable that has the name as an alias; every
    failure is an AttributeError, none of the errors of [getaxis] comes
    through. *)
Theorem Var_getattr_answers {Axis Cls : Type} {AL : AxisLike Axis Cls}
    (axes : list Axis) (name : string) :
  match Var_getattr (Cls:=Cls) axes name with
  | AxisAttr a => not_a_shortcut name = false /\ In a axes /\ has_alias a name = true
                  /\ getaxis axes (PStr (Cls:=Cls) name) = Ok a
  | AttributeError => not_a_shortcut name = true
                      \/ existsb (fun a => has_alias a name) axes = false
  | Propagated _ => False
  end.
Proof.
  unfold Var_getattr, not_a_shortcut.
  destruct (String.prefix "__" name); [left; reflexivity|].
  destruct (String.eqb name "axes" || String.eqb name "values")%bool; [left; reflexivity|].
  cbn [orb]. unfold getaxis, whichaxis.
  destruct (first_index (fun a => has_alias a name) axes 0) as [i|] eqn:Hi; cbn.
  - apply first_index_Some in Hi. destruct Hi as (k & a & -> & Hk & Ha & _). cbn.
    rewrite Hk. repeat split; [eapply nth_error_In; exact Hk | exact Ha].
  - right. apply (first_index_None _ axes 0). exact Hi.
Qed.

(** ** var.py: the keywords of [Var.__call__] *)

Lemma split_underscore_join (k prefix ax : string) :
  split_underscore k = Some (prefix, ax) -> k = (prefix ++ "_" ++ ax)%string.
Proof.
  revert prefix. induction k as [|c k IH]; intros prefix H; cbn in H; [discriminate|].
  destruct (Ascii.eqb c "_") eqn:Hc.
  - apply Ascii.eqb_eq in Hc. subst c. injection H as <- <-. reflexivity.
  - destruct (split_underscore k) as [[p a]|]; [|discriminate].
    injection H as <- <-. cbn. rewrite (IH p eq_refl). reflexivity.
Qed.

Lemma prefix_underscore (c : ascii) (k : string) :
  String.prefix "_" (String c k) = Ascii.eqb c "_".
Proof.
  cbn [String.prefix]. destruct (Ascii.ascii_dec "_" c) as [<-|Hne].
  - destruct k; reflexivity.
  - symmetry. apply Ascii.eqb_neq. congruence.
Qed.

Lemma split_underscore_empty_prefix (k ax : string) :
  split_underscore k = Some (EmptyString, ax) -> String.prefix "_" k = true.
Proof.
  intros H. apply split_underscore_join in H. subst k. apply prefix_underscore.
Qed.

Lemma hasaxis_str {Axis Cls : Type} {AL : AxisLike Axis Cls} (axes : list Axis) (s : string) :
  hasaxis axes (PStr (Cls:=Cls) s) = Ok (existsb (fun a => has_alias a s) axes).
Proof.
  unfold hasaxis, whichaxis. rewrite (first_index_existsb _ axes 0).
  destruct (first_index (fun a => has_alias a s) axes 0); reflexivity.
Qed.

Lemma whichaxis_str_found {Axis Cls : Type} {AL : AxisLike Axis Cls}
    (axes : list Axis) (s : string) :
  existsb (fun a => has_alias a s) axes = true ->
  exists i, whichaxis axes (PStr (Cls:=Cls) s) = Ok i.
Proof.
  intros H. unfold whichaxis. rewrite (first_index_existsb _ axes 0) in H.
  destruct (first_index (fun a => has_alias a s) axes 0) as [i|]; [|discriminate].
  exists i. reflexivity.
Qed.

Section CallKeywords.
Context {Axis Cls : Type} {AL : AxisLike Axis Cls} {V : Type}.
Variable axes : list Axis.
Variable vname : string.

(** The variable has an axis of that name. *)
Let has (ax : string) : bool := existsb (fun a => has_alias a ax) axes.

Lemma call_step_cases (ignore_mismatch : bool) (means : list nat)
    (newargs : list (string * V)) (k : string) (v : V) :
  call_step (Cls:=Cls) axes vname ignore_mismatch (means, newargs) (k, v) =
    if asks_mean k then
      if has (key_axis k) then
        match whichaxis axes (PStr (Cls:=Cls) (key_axis k)) with
        | Ok i =>
          match split_underscore k with
          | Some (prefix, ax) =>
            Ok (means ++ [i],
                dict_set newargs
                  (if (0 <? String.length (remove_m prefix))%nat
                   then (remove_m prefix ++ "_" ++ ax)%string else ax) v)
          | None => Ok (means ++ [i], dict_set newargs k v)
          end
        | Raise e => Raise e
        end
      else if ignore_mismatch then Ok (means, newargs)
      else Raise (AssertionError ("'" ++ key_axis k ++ "' is not a valid axis for var '"
                                  ++ vname ++ "'"))
    else
      Ok (means, dict_set newargs (if String.prefix "_" k then key_axis k else k) v).
Proof.
  unfold call_step, asks_mean, key_axis.
  destruct (split_underscore k) as [[prefix ax]|] eqn:Hs.
  - destruct (contains_m prefix) eqn:Hm.
    + rewrite hasaxis_str. fold (has ax). cbn [bind].
      destruct (has ax) eqn:Hh; cbn [negb andb].
      * destruct (whichaxis axes (PStr ax)); reflexivity.
      * destruct ignore_mismatch; reflexivity.
    + destruct prefix as [|c prefix].
      * rewrite (split_underscore_empty_prefix _ Hs). reflexivity.
      * cbn [String.length Nat.ltb Nat.leb].
        rewrite <- (split_underscore_join _ Hs).
        destruct k as [|c' k]; [discriminate|]. cbn in Hs.
        destruct (Ascii.eqb c' "_") eqn:Hc; [discriminate|].
        rewrite prefix_underscore, Hc. reflexivity.
  - cbn [contains_m]. cbn.
    assert (Hp : String.prefix "_" k = false).
    { destruct k as [|c k]; [reflexivity|]. rewrite prefix_underscore. cbn in Hs.
      destruct (Ascii.eqb c "_"); [discriminate | reflexivity]. }
    rewrite Hp. reflexivity.
Qed.

End CallKeywords.

(** X6. Keywords that do not read as a request for a mean and do not start
    with an underscore go through the loop of [Var.__call__] untouched:
    no mean is requested, nothing is raised, and each keyword is entered in
    the dictionary for the slicing under its own name. *)
Theorem call_keywords_plain {Axis Cls : Type} {AL : AxisLike Axis Cls} {V : Type}
    (axes : list Axis) (vname : string) (ignore_mismatch : bool)
    (kwargs : list (string * V)) (means : list nat) (newargs : list (string * V)) :
  Forall (fun kv => asks_mean (fst kv) = false /\ String.prefix "_" (fst kv) = false) kwargs ->
  call_keywords (Cls:=Cls) axes vname ignore_mismatch kwargs (means, newargs) =
    Ok (means, fold_left (fun d kv => dict_set d (fst kv) (snd kv)) kwargs newargs).
Proof.
  intros H. revert newargs. induction H as [|[k v] kwargs [Hm Hp] _ IH]; intros newargs.
  - reflexivity.
  - cbn [call_keywords fold_left fst snd] in *. rewrite call_step_cases, Hm, Hp.
    cbn [bind]. apply IH.
Qed.

Lemma call_keywords_plain_witness :
  call_keywords (Cls:=axis_class) [lat; lon] "Temp" false [("lat"%string, 1%Z); ("i_lon"%string, 2%Z)] ([], []) =
    Ok ([], fold_left (fun d kv => dict_set d (fst kv) (snd kv))
                      [("lat"%string, 1%Z); ("i_lon"%string, 2%Z)] []).
Proof.
  apply (@call_keywords_plain axis axis_class axis_like Z [lat; lon] "Temp" false
           [("lat"%string, 1%Z); ("i_lon"%string, 2%Z)] [] []).
  repeat constructor.
Defined.

(** X7. The means that [Var.__call__] requests are, in the order of the
    keywords, the positions [whichaxis] gives for the axis names of the
    keywords that read as a request for a mean and name an axis of the
    variable; each is a position of the axes. *)
Theorem call_keywords_means {Axis Cls : Type} {AL : AxisLike Axis Cls} {V : Type}
    (axes : list Axis) (vname : string) (ignore_mismatch : bool)
    (kwargs : list (string * V)) (st st' : list nat * list (string * V)) :
  call_keywords (Cls:=Cls) axes vname ignore_mismatch kwargs st = Ok st' ->
  exists added,
    mapM (fun k => whichaxis axes (PStr (Cls:=Cls) (key_axis k)))
         (filter (fun k => asks_mean k && existsb (fun a => has_alias a (key_axis k)) axes)
                 (map fst kwargs)) = Ok added
    /\ fst st' = fst st ++ added
    /\ Forall (fun i => (i < length axes)%nat) added.
Proof.
  revert st. induction kwargs as [|[k v] kwargs IH]; intros [means newargs] H.
  - cbn in H. injection H as <-. exists []. cbn. rewrite app_nil_r. repeat split. constructor.
  - cbn [call_keywords] in H. rewrite call_step_cases in H.
    cbn [map fst filter].
    destruct (asks_mean k) eqn:Hm; cbn [andb].
    + destruct (existsb (fun a => has_alias a (key_axis k)) axes) eqn:Hh.
      * destruct (whichaxis axes (PStr (key_axis k))) as [i|e] eqn:Hw; [|discriminate].
        assert (Hstep : exists d, call_keywords (Cls:=Cls) axes vname ignore_mismatch kwargs
                                    (means ++ [i], d) = Ok st').
        { destruct (split_underscore k) as [[p ax]|]; cbn [bind] in H; eexists; exact H. }
        destruct Hstep as (d & Hd). destruct (IH _ Hd) as (added & Hmap & Hst & Hall).
        exists (i :: added). cbn [mapM fst] in *. rewrite Hw, Hmap. cbn [bind].
        split; [reflexivity|]. split.
        -- rewrite Hst, <- app_assoc. reflexivity.
        -- constructor; [exact (whichaxis_lt _ _ Hw) | exact Hall].
      * destruct ignore_mismatch; [|discriminate]. cbn [bind] in H.
        exact (IH _ H).
    + cbn [bind] in H. exact (IH _ H).
Qed.

Lemma call_keywords_means_witness :
  exists added,
    mapM (fun k => whichaxis [lat; lon] (PStr (Cls:=axis_class) (key_axis k)))
         (filter (fun k => asks_mean k && existsb (fun a => has_alias a (key_axis k)) [lat; lon])
                 (map fst [("m_lon"%string, 1%Z); ("lat"%string, 2%Z)])) = Ok added
    /\ fst ([1%nat], [("lon"%string, 1%Z); ("lat"%string, 2%Z)]) = fst (@nil nat, @nil (string * Z)) ++ added
    /\ Forall (fun i => (i < length [lat; lon])%nat) added.
Proof.
  apply (@call_keywords_means axis axis_class axis_like Z [lat; lon] "Temp" false
           [("m_lon"%string, 1%Z); ("lat"%string, 2%Z)] ([], []) ([1%nat], [("lon"%string, 1%Z); ("lat"%string, 2%Z)])).
  reflexivity.
Defined.

(** X8. The loop of [Var.__call__] fails in one way only: with
    [ignore_mismatch] off, on a keyword that reads as a request for a mean
    (the part before its first underscore holds an m) while the rest of it
    names no axis of the variable; the error is the AssertionError that
    names that rest. With [ignore_mismatch] on it never fails. *)
Theorem call_keywords_errors {Axis Cls : Type} {AL : AxisLike Axis Cls} {V : Type}
    (axes : list Axis) (vname : string) (ignore_mismatch : bool)
    (kwargs : list (string * V)) (st : list nat * list (string * V)) :
  match call_keywords (Cls:=Cls) axes vname ignore_mismatch kwargs st with
  | Ok _ =>
    ignore_mismatch = true
    \/ forallb (fun k => negb (asks_mean k)
                         || existsb (fun a => has_alias a (key_axis k)) axes)
               (map fst kwargs) = true
  | Raise e =>
    ignore_mismatch = false
    /\ exists k, In k (map fst kwargs) /\ asks_mean k = true
                 /\ existsb (fun a => has_alias a (key_axis k)) axes = false
                 /\ e = AssertionError ("'" ++ key_axis k ++ "' is not a valid axis for var '"
                                        ++ vname ++ "'")
  end.
Proof.
  revert st. induction kwargs as [|[k v] kwargs IH]; intros [means newargs].
  - cbn. right. reflexivity.
  - cbn [call_keywords map fst forallb]. rewrite call_step_cases.
    destruct (asks_mean k) eqn:Hm; cbn [negb orb].
    + destruct (existsb (fun a => has_alias a (key_axis k)) axes) eqn:Hh.
      * destruct (whichaxis_str_found (Cls:=Cls) axes (key_axis k) Hh) as (i & Hw).
        rewrite Hw.
        assert (Hstep : forall r : result (list nat * list (string * V)),
                   (exists d, r = Ok (means ++ [i], d)) ->
                   match bind r (call_keywords (Cls:=Cls) axes vname ignore_mismatch kwargs) with
                   | Ok _ =>
                     ignore_mismatch = true
                     \/ true && forallb (fun k => negb (asks_mean k)
                                   || existsb (fun a => has_alias a (key_axis k)) axes)
                                  (map fst kwargs) = true
                   | Raise e =>
                     ignore_mismatch = false
                     /\ exists k0, (k = k0 \/ In k0 (map fst kwargs)) /\ asks_mean k0 = true
                          /\ existsb (fun a => has_alias a (key_axis k0)) axes = false
                          /\ e = AssertionError
                                   ("'" ++ key_axis k0 ++ "' is not a valid axis for var '"
                                    ++ vname ++ "'")
                   end).
        { intros r (d & ->). cbn [bind andb]. specialize (IH (means ++ [i], d)).
          destruct (call_keywords axes vname ignore_mismatch kwargs (means ++ [i], d)).
          - exact IH.
          - destruct IH as (Hi & k0 & Hin & Hrest). split; [exact Hi|].
            exists k0. split; [right; exact Hin | exact Hrest]. }
        destruct (split_underscore k) as [[p ax]|]; apply Hstep; eexists; reflexivity.
      * destruct ignore_mismatch; cbn [bind].
        -- destruct (call_keywords axes vname true kwargs (means, newargs)) eqn:Hr.
           ++ left. reflexivity.
           ++ specialize (IH (means, newargs)). rewrite Hr in IH. destruct IH as [IH _].
              discriminate.
        -- split; [reflexivity|]. exists k. repeat split; [left; reflexivity | exact Hm | exact Hh].
    + cbn [bind andb]. specialize (IH (means, dict_set newargs
                                          (if String.prefix "_" k then key_axis k else k) v)).
      destruct (call_keywords axes vname ignore_mismatch kwargs
                  (means, dict_set newargs (if String.prefix "_" k then key_axis k else k) v)).
      * exact IH.
      * destruct IH as (Hi & k0 & Hin & Hrest). split; [exact Hi|].
        exists k0. split; [right; exact Hin | exact Hrest].
Qed.

(** ** reduce.py: construction of a reduction, continued *)

Lemma mapM_app_Raise {A B : Type} (f : A -> result B) (pre post : list A) (bad : A) (e : exn) :
  Forall (fun a => exists b, f a = Ok b) pre ->
  f bad = Raise e ->
  mapM f (pre ++ bad :: post) = Raise e.
Proof.
  intros Hpre Hbad. induction Hpre as [|a pre [b Hb] _ IH]; cbn.
  - rewrite Hbad. reflexivity.
  - rewrite Hb, IH. reflexivity.
Qed.

Lemma mapM_In {A B : Type} (f : A -> result B) (l : list A) (l' : list B) (b : B) :
  mapM f l = Ok l' -> In b l' -> exists a, In a l /\ f a = Ok b.
Proof.
  revert l'. induction l as [|a l IH]; intros l' H Hb; cbn in H.
  - injection H as <-. contradiction.
  - destruct (f a) as [b0|] eqn:Ha; cbn in H; [|discriminate].
    destruct (mapM f l) as [bs|]; cbn in H; [|discriminate].
    injection H as <-. destruct Hb as [<-|Hb].
    + exists a. split; [left; reflexivity | exact Ha].
    + destruct (IH bs eq_refl Hb) as (a' & Hin & Ha'). exists a'. split; [right|]; assumption.
Qed.

Lemma mapM_perm {A B : Type} (f : A -> result B) (l l' : list A) :
  Permutation l l' ->
  forall r, mapM f l = Ok r -> exists r', mapM f l' = Ok r' /\ Permutation r r'.
Proof.
  induction 1 as [|a l l' _ IH|a b l|l l' l'' _ IH1 _ IH2]; intros r H.
  - exists r. split; [exact H | reflexivity].
  - cbn in *. destruct (f a) as [x|]; cbn in *; [|discriminate].
    destruct (mapM f l) as [xs|]; cbn in H; [|discriminate]. injection H as <-.
    destruct (IH xs eq_refl) as (r' & -> & Hp). cbn. exists (x :: r').
    split; [reflexivity | constructor; exact Hp].
  - cbn in *. destruct (f b) as [y|]; cbn in *; [|discriminate].
    destruct (f a) as [x|]; cbn in *; [|discriminate].
    destruct (mapM f l) as [xs|]; cbn in *; [|discriminate]. injection H as <-.
    exists (x :: y :: xs). split; [reflexivity | constructor].
  - destruct (IH1 r H) as (r' & H' & Hp). destruct (IH2 r' H') as (r'' & H'' & Hp').
    exists r''. split; [exact H'' | etransitivity; eassumption].
Qed.

Lemma insert_sorted_comm (a b : nat) (l : list nat) :
  insert_sorted a (insert_sorted b l) = insert_sorted b (insert_sorted a l).
Proof.
  induction l as [|m l IH]; cbn [insert_sorted].
  - destruct (Nat.leb_spec a b), (Nat.leb_spec b a); try reflexivity; try lia.
    assert (a = b) by lia. subst. reflexivity.
  - destruct (Nat.leb_spec b m), (Nat.leb_spec a m); cbn [insert_sorted].
    + destruct (Nat.leb_spec a b), (Nat.leb_spec b a), (Nat.leb_spec a m), (Nat.leb_spec b m);
        try reflexivity; try lia.
      assert (a = b) by lia. subst. reflexivity.
    + destruct (Nat.leb_spec a b), (Nat.leb_spec b m), (Nat.leb_spec a m);
        try reflexivity; try lia.
    + destruct (Nat.leb_spec a m), (Nat.leb_spec b a), (Nat.leb_spec b m);
        try reflexivity; try lia.
    + destruct (Nat.leb_spec a m), (Nat.leb_spec b m); try lia.
      rewrite IH. reflexivity.
Qed.

Lemma np_sort_perm (l l' : list nat) : Permutation l l' -> np_sort l = np_sort l'.
Proof.
  induction 1 as [|a l l' _ IH|a b l|l l' l'' _ IH1 _ IH2]; cbn.
  - reflexivity.
  - unfold np_sort in IH. rewrite IH. reflexivity.
  - apply insert_sorted_comm.
  - congruence.
Qed.

Lemma np_sort_seq (s k : nat) : np_sort (seq s k) = seq s k.
Proof.
  revert s. induction k as [|k IH]; intros s; [reflexivity|].
  cbn [seq]. unfold np_sort in *. cbn [fold_right]. rewrite IH.
  destruct k as [|k]; [reflexivity|]. cbn [seq insert_sorted].
  destruct (Nat.leb_spec s (S s)); [reflexivity | lia].
Qed.

Lemma fold_left_mul (l : list nat) (a : nat) :
  fold_left Nat.mul l a = (a * fold_right Nat.mul 1 l)%nat.
Proof.
  revert a. induction l as [|x l IH]; intros a; cbn; [lia|].
  rewrite IH. lia.
Qed.

Lemma prod_perm (l l' : list nat) :
  Permutation l l' -> fold_right Nat.mul 1%nat l = fold_right Nat.mul 1%nat l'.
Proof.
  induction 1; cbn; try lia; congruence.
Qed.

Lemma prod_filter_split {A : Type} (f : A -> nat) (p : A -> bool) (l : list A) :
  fold_right Nat.mul 1%nat (map f l)
  = (fold_right Nat.mul 1%nat (map f (filter p l))
     * fold_right Nat.mul 1%nat (map f (filter (fun x => negb (p x)) l)))%nat.
Proof.
  induction l as [|x l IH]; cbn; [reflexivity|].
  destruct (p x); cbn; rewrite IH; lia.
Qed.

Section Construction.
Context {Axis Cls : Type} {AL : AxisLike Axis Cls}.

Lemma map_len_axis_seq (pre axs : list Axis) :
  map (len_axis (pre ++ axs)) (seq (length pre) (length axs)) = map axis_len axs.
Proof.
  revert pre. induction axs as [|a axs IH]; intros pre; [reflexivity|].
  cbn [length seq map]. f_equal.
  - unfold len_axis. rewrite nth_error_app2, Nat.sub_diag by lia. reflexivity.
  - specialize (IH (pre ++ [a])).
    rewrite <- app_assoc, length_app, Nat.add_1_r in IH. exact IH.
Qed.

Lemma map_len_not_in_indices (idx : list nat) (axs : list Axis) :
  map axis_len (not_in_indices idx 0 axs)
  = map (len_axis axs)
        (filter (fun k => negb (existsb (Nat.eqb k) idx)) (seq 0 (length axs))).
Proof.
  pose proof (not_in_indices_positions idx axs []) as H. cbn [app length] in H.
  induction H as [|k a ks als Hk _ IH]; [reflexivity|].
  cbn [map]. rewrite IH. unfold len_axis at 2. rewrite Hk. reflexivity.
Qed.

Lemma not_in_indices_all (idx : list nat) (s : nat) (axs : list Axis) :
  (forall k, (s <= k < s + length axs)%nat -> existsb (Nat.eqb k) idx = true) ->
  not_in_indices idx s axs = [].
Proof.
  revert s. induction axs as [|a axs IH]; intros s H; [reflexivity|].
  cbn [not_in_indices]. rewrite (H s) by (cbn [length]; lia).
  apply IH. intros k Hk. apply H. cbn [length]. lia.
Qed.

Lemma mapM_whichaxis_seq (axs : list Axis) (s k : nat) :
  (s + k <= length axs)%nat ->
  mapM (whichaxis (Cls:=Cls) axs) (map (fun i => PInt (Z.of_nat i)) (seq s k)) = Ok (seq s k).
Proof.
  revert s. induction k as [|k IH]; intros s H; [reflexivity|].
  cbn [seq map mapM]. rewrite IH by lia.
  destruct (whichaxis_int (Cls:=Cls) axs (Z.of_nat s)) as [Hw _]. rewrite Hw.
  assert (Hr : ((0 <=? Z.of_nat s)%Z && (Z.of_nat s <? Z.of_nat (length axs))%Z)%bool = true).
  { apply andb_true_iff. split; [apply Z.leb_le | apply Z.ltb_lt]; lia. }
  rewrite Hr, Nat2Z.id. reflexivity.
Qed.

End Construction.

(** X9. A reduction over an identifier that [whichaxis] does not resolve is
    never built: [__init__] raises the error of the first such identifier
    (a KeyError for an unknown name, a TypeError for an integer out of
    range), and so does the call of the class, whether the input variable
    is held in memory or not. *)
Theorem ReducedVar_new_unresolved_axis {Axis Cls : Type} {AL : AxisLike Axis Cls} {A : Type}
    (get : ReducedVar -> A) (dtype_of : A -> dtype)
    (v : Var A) (pre post : list (pyarg Axis Cls)) (bad : pyarg Axis Cls) (e : exn) :
  Forall (fun id => exists i, whichaxis (axes v) id = Ok i) pre ->
  whichaxis (axes v) bad = Raise e ->
  ReducedVar_init v (pre ++ bad :: post) = Raise e
  /\ ReducedVar_new get dtype_of v (pre ++ bad :: post) = Raise e.
Proof.
  intros Hpre Hbad.
  assert (Hinit : ReducedVar_init v (pre ++ bad :: post) = Raise e).
  { unfold ReducedVar_init. rewrite (@mapM_app_Raise _ _ _ pre post bad e Hpre Hbad). reflexivity. }
  split; [exact Hinit|]. unfold ReducedVar_new. rewrite Hinit.
  rewrite length_app. cbn [length]. rewrite Nat.add_succ_r. cbn [Nat.eqb].
  destruct (hasattr_values v); reflexivity.
Qed.

Lemma ReducedVar_new_unresolved_axis_witness :
  ReducedVar_init Temp ([PInt 0] ++ PStr "time" :: [PInt 1]) = Raise KeyError
  /\ ReducedVar_new sum_get (fun _ => float64) Temp ([PInt 0] ++ PStr "time" :: [PInt 1])
     = Raise KeyError.
Proof.
  apply (@ReducedVar_new_unresolved_axis axis axis_class axis_like (list float)
           sum_get (fun _ => float64) Temp [PInt 0] [PInt 1] (PStr "time") KeyError).
  - constructor; [exists 0%nat; reflexivity | constructor].
  - reflexivity.
Defined.

Lemma int_wrap_mul (w a b : Z) :
  (0 < w)%Z -> int_wrap w (int_wrap w a * b) = int_wrap w (a * b).
Proof.
  intros Hw. unfold int_wrap. f_equal.
  assert (Hm : (0 < 2 ^ w)%Z) by (apply Z.pow_pos_nonneg; lia).
  rewrite (Z.mod_eq (a + 2 ^ (w - 1)) (2 ^ w)) by lia.
  set (k := ((a + 2 ^ (w - 1)) / 2 ^ w)%Z).
  replace ((a + 2 ^ (w - 1) - 2 ^ w * k - 2 ^ (w - 1)) * b + 2 ^ (w - 1))%Z
    with (a * b + 2 ^ (w - 1) + (- (k * b)) * 2 ^ w)%Z by ring.
  apply Z_mod_plus_full.
Qed.

Lemma int_wrap_small (w x : Z) :
  (0 < w)%Z -> (0 <= x < 2 ^ (w - 1))%Z -> int_wrap w x = x.
Proof.
  intros Hw Hx. unfold int_wrap.
  assert (H2 : (2 ^ w = 2 * 2 ^ (w - 1))%Z).
  { replace w with (Z.succ (w - 1)) at 1 by lia. apply Z.pow_succ_r. lia. }
  rewrite Z.mod_small by lia. lia.
Qed.

Lemma fold_int_wrap (w : Z) (l : list nat) (acc : Z) :
  (0 < w)%Z ->
  fold_left (fun acc n => int_wrap w (acc * Z.of_nat n)) l (int_wrap w acc)
  = int_wrap w (fold_left (fun acc n => (acc * Z.of_nat n)%Z) l acc).
Proof.
  intros Hw. revert acc. induction l as [|n l IH]; intros acc; [reflexivity|].
  cbn [fold_left]. rewrite int_wrap_mul by exact Hw. apply IH.
Qed.

Lemma exact_product_from (l : list nat) (acc : Z) :
  fold_left (fun acc n => (acc * Z.of_nat n)%Z) l acc
  = (acc * Z.of_nat (fold_right Nat.mul 1%nat l))%Z.
Proof.
  revert acc. induction l as [|n l IH]; intros acc; cbn [fold_left fold_right].
  - lia.
  - rewrite IH. lia.
Qed.

Lemma exact_product_nat (l : list nat) :
  exact_product l = Z.of_nat (fold_right Nat.mul 1%nat l).
Proof. unfold exact_product. rewrite exact_product_from. lia. Qed.

(** As long as the product fits, numpy's product is the product. *)
Lemma np_product_small (w : Z) (l : list nat) :
  (0 < w)%Z -> (exact_product l < 2 ^ (w - 1))%Z -> np_product w l = exact_product l.
Proof.
  intros Hw Hl. unfold np_product. destruct l as [|n l]; [reflexivity|].
  cbn [fold_left]. rewrite fold_int_wrap by exact Hw.
  change (fold_left (fun acc n => (acc * Z.of_nat n)%Z) l (1 * Z.of_nat n)%Z)
    with (exact_product (n :: l)).
  apply int_wrap_small; [exact Hw|]. split; [|exact Hl].
  rewrite exact_product_nat. lia.
Qed.

Lemma size_split {Axis Cls : Type} {AL : AxisLike Axis Cls} {A : Type}
    (v : Var A) (ids : list (pyarg Axis Cls)) (r : ReducedVar) :
  ReducedVar_init v ids = Ok r ->
  NoDup (indices r) ->
  size v = (fold_right Nat.mul 1%nat (reduced_lengths r) * size (self r))%nat.
Proof.
  unfold ReducedVar_init, reduced_lengths. intros H Hnd.
  destruct (mapM (whichaxis (axes v)) ids) as [idx|] eqn:Hids; cbn [bind] in H; [|discriminate].
  destruct (length (np_sort idx) =? 0)%nat; [discriminate|].
  injection H as <-. cbn [indices in_axes self] in *.
  unfold size, shape. cbn [axes]. rewrite !fold_left_mul, !Nat.mul_1_l.
  set (axs := axes v) in *. set (sidx := np_sort idx) in *.
  rewrite map_len_not_in_indices.
  pose proof (map_len_axis_seq [] axs) as Hall. cbn [app length] in Hall.
  rewrite <- Hall.
  rewrite (prod_filter_split (len_axis axs) (fun k => existsb (Nat.eqb k) sidx)).
  f_equal. apply prod_perm. apply Permutation_map. apply Permutation_sym.
  apply NoDup_Permutation; [exact Hnd | apply NoDup_filter, seq_NoDup |].
  intros k. rewrite filter_In, in_seq. split.
  - intros Hk.
    assert (He : existsb (Nat.eqb k) sidx = true).
    { apply existsb_exists. exists k. split; [exact Hk | apply Nat.eqb_refl]. }
    split; [|exact He]. unfold sidx in He. rewrite existsb_np_sort in He.
    apply existsb_exists in He. destruct He as (k' & Hin & Hk'). apply Nat.eqb_eq in Hk'. subst k'.
    destruct (@mapM_In _ _ _ _ _ _ Hids Hin) as (id & _ & Hw).
    pose proof (whichaxis_lt _ _ Hw). lia.
  - intros [_ He]. apply existsb_exists in He. destruct He as (k' & Hin & Hk').
    apply Nat.eqb_eq in Hk'. subst k'. exact Hin.
Qed.

(** X10. When the identifiers name pairwise different axes and the product
    of the lengths of the reduced axes fits into numpy's [w]-bit integers,
    the count [self.N = int(np.product(N))] times the size of the result
    is the size of the input. *)
Theorem ReducedVar_init_size {Axis Cls : Type} {AL : AxisLike Axis Cls} {A : Type}
    (w : Z) (v : Var A) (ids : list (pyarg Axis Cls)) (r : ReducedVar) :
  ReducedVar_init v ids = Ok r ->
  NoDup (indices r) ->
  (0 < w)%Z ->
  (exact_product (reduced_lengths r) < 2 ^ (w - 1))%Z ->
  Z.of_nat (size v) = (self_N w r * Z.of_nat (size (self r)))%Z.
Proof.
  intros H Hnd Hw Hfit. unfold self_N.
  rewrite np_product_small by assumption.
  rewrite exact_product_nat, (size_split _ _ H Hnd). lia.
Qed.

Lemma ReducedVar_init_size_witness :
  Z.of_nat (size Temp)
  = (self_N 64 (mkReduced (mkVar [lat] float64 "Temp" None) 64 Temp [1%nat] [lat; lon])
     * Z.of_nat (size (self (mkReduced (mkVar [lat] float64 "Temp" None) 64 Temp
                                       [1%nat] [lat; lon]))))%Z.
Proof.
  apply (@ReducedVar_init_size axis axis_class axis_like (list float) 64 Temp [PStr "lon"]).
  - reflexivity.
  - repeat constructor. intros [].
  - reflexivity.
  - reflexivity.
Defined.

(** X11. The node that [__init__] builds does not depend on the order in
    which the reduction axes are named: the indices are sorted. *)
Theorem ReducedVar_init_order_irrelevant {Axis Cls : Type} {AL : AxisLike Axis Cls} {A : Type}
    (v : Var A) (ids ids' : list (pyarg Axis Cls)) (idx : list nat) :
  Permutation ids ids' ->
  mapM (whichaxis (axes v)) ids = Ok idx ->
  ReducedVar_init v ids' = ReducedVar_init v ids.
Proof.
  intros Hp Hids. destruct (@mapM_perm _ _ (whichaxis (axes v)) _ _ Hp _ Hids) as (idx' & Hids' & Hpi).
  unfold ReducedVar_init. rewrite Hids, Hids'. cbn [bind].
  rewrite (np_sort_perm Hpi). reflexivity.
Qed.

Lemma ReducedVar_init_order_irrelevant_witness :
  ReducedVar_init Temp [PInt 0; PStr "lon"] = ReducedVar_init Temp [PStr "lon"; PInt 0].
Proof.
  apply (@ReducedVar_init_order_irrelevant axis axis_class axis_like (list float) Temp
           [PStr "lon"; PInt 0] [PInt 0; PStr "lon"] [1%nat; 0%nat]).
  - constructor.
  - reflexivity.
Defined.

(** X12. Called without reduction axes, the class reduces over the whole
    domain and returns the computed values, not a variable: the node it
    evaluates has no axes left, keeps the dtype and the name, reduces all
    positions 0 .. naxes-1 of the input, and its count
    [self.N = int(np.product(N))] is the size of the input as long as that
    size fits into numpy's [w]-bit integers. On a variable without axes the
    call fails with the AssertionError of [__init__]. *)
Theorem ReducedVar_new_whole_domain {Axis Cls : Type} {AL : AxisLike Axis Cls} {A : Type}
    (get : ReducedVar -> A) (dtype_of : A -> dtype) (v : Var A) (w : Z) :
  (0 < w)%Z ->
  (Z.of_nat (size v) < 2 ^ (w - 1))%Z ->
  if (naxes v =? 0)%nat
  then ReducedVar_new (Cls:=Cls) get dtype_of v []
       = Raise (AssertionError "no reduction axes specified")
  else exists r,
      ReducedVar_new (Cls:=Cls) get dtype_of v [] = Ok (Computed (get r))
      /\ self r = mkVar [] (vdtype v) (name v) None
      /\ ReducePy.var r = v
      /\ indices r = seq 0 (naxes v)
      /\ in_axes r = axes v
      /\ self_N w r = Z.of_nat (size v).
Proof.
  intros Hw Hfit.
  assert (Hsize : exact_product (map (len_axis (axes v)) (seq 0 (naxes v))) = Z.of_nat (size v)).
  { rewrite exact_product_nat. f_equal. unfold naxes.
    pose proof (map_len_axis_seq [] (axes v)) as Hall. cbn [app length] in Hall.
    rewrite Hall. unfold size, shape. rewrite fold_left_mul, Nat.mul_1_l. reflexivity. }
  unfold ReducedVar_new, ReducedVar_init, naxes in *. cbn [length Nat.eqb].
  rewrite mapM_whichaxis_seq by lia. cbn [bind].
  rewrite np_sort_seq, length_seq.
  destruct (length (axes v) =? 0)%nat eqn:Hn; [reflexivity|]. cbn [bind].
  eexists. split; [reflexivity|]. cbn [self ReducePy.var indices in_axes].
  split; [|split; [reflexivity|split; [reflexivity|split; [reflexivity|]]]].
  - rewrite not_in_indices_all; [reflexivity|].
    intros k Hk. apply existsb_exists. exists k. split; [apply in_seq; lia | apply Nat.eqb_refl].
  - unfold self_N, reduced_lengths. cbn [indices in_axes].
    rewrite np_product_small; [exact Hsize | exact Hw | rewrite Hsize; exact Hfit].
Qed.

Lemma ReducedVar_new_whole_domain_witness :
  exists r,
    ReducedVar_new (Cls:=axis_class) (fun _ => [0%float]) (fun _ => float64) Temp []
    = Ok (Computed ((fun _ => [0%float]) r))
    /\ self r = mkVar [] (vdtype Temp) (name Temp) None
    /\ ReducePy.var r = Temp
    /\ indices r = seq 0 (naxes Temp)
    /\ in_axes r = axes Temp
    /\ self_N 64 r = Z.of_nat (size Temp).
Proof.
  apply (@ReducedVar_new_whole_domain axis axis_class axis_like (list float)
           (fun _ => [0%float]) (fun _ => float64) Temp 64).
  - reflexivity.
  - reflexivity.
Defined.

(** ** reduce.py: what the reductions compute *)

Lemma rows_ext {A : Type} (out : list val) (qrows : list (list A)) (g : list A -> val) :
  length out = length qrows ->
  (forall p, (p < length qrows)%nat -> nth_error out p = Some (g (nth p qrows []))) ->
  out = map g qrows.
Proof.
  intros Hlen H. apply nth_error_ext. intros p.
  destruct (Nat.lt_ge_cases p (length qrows)) as [Hp|Hp].
  - rewrite (H p Hp), nth_error_map, (nth_error_nth' qrows [] Hp). reflexivity.
  - rewrite (proj2 (nth_error_None _ _)) by lia.
    symmetry. apply nth_error_None. rewrite length_map. exact Hp.
Qed.

Lemma nth_map_Fin (qrows : list (list Qc)) (p : nat) :
  nth p (map (map Fin) qrows) [] = map Fin (nth p qrows []).
Proof. change (@nil val) with (map Fin []). apply map_nth. Qed.

Lemma length_np_zeros {T : Type} {E : Elem T} (n : nat) : length (np_zeros n) = n.
Proof. apply repeat_length. Qed.

Lemma length_np_nans {T : Type} {E : Elem T} (n : nat) : length (np_nans n) = n.
Proof. unfold np_nans. rewrite length_map. apply repeat_length. Qed.

Lemma length_SumVar_getview {T : Type} {E : Elem T} (n : nat) (loop : list chunk) :
  length (SumVar_getview n loop) = n.
Proof. unfold SumVar_getview. rewrite length_accumulate. apply length_np_zeros. Qed.

Lemma length_MeanVar_getview {T : Type} {E : Elem T} (N n : nat) (loop : list chunk) :
  length (MeanVar_getview N n loop) = n.
Proof.
  unfold MeanVar_getview. rewrite length_map, length_accumulate. apply length_np_zeros.
Qed.

Lemma length_VarianceVar_getview {T : Type} {E : Elem T} (N n : nat) (loop : list chunk) :
  length (VarianceVar_getview N n loop) = n.
Proof.
  unfold VarianceVar_getview.
  rewrite length_map2, length_map, !length_accumulate, length_np_zeros. apply Nat.min_id.
Qed.

Lemma length_NANSumVar_getview {T : Type} {E : Elem T} (n : nat) (loop : list chunk) :
  length (NANSumVar_getview n loop) = n.
Proof. unfold NANSumVar_getview. rewrite length_accumulate. apply length_np_nans. Qed.

Lemma Z2Qc_nat_neq0 (N : nat) : N <> 0%nat -> Qeq_bool (Z2Qc (Z.of_nat N)) 0 = false.
Proof. intros H. rewrite Z2Qc_eq0. apply Z.eqb_neq. lia. Qed.

Lemma Z2Qc_pred (z : Z) : Z2Qc (z - 1) = Z2Qc z - 1.
Proof.
  replace (z - 1)%Z with (z + (-1))%Z by lia. rewrite Z2Qc_add.
  replace (Z2Qc (-1)) with (- (1))%Qc by (apply Qc_is_canon; reflexivity). ring.
Qed.

Lemma squares_Fin (r : list Qc) :
  map (fun e : val => mul e e) (map Fin r) = map Fin (map (fun x => x * x) r).
Proof. rewrite !map_map. reflexivity. Qed.

Lemma sumQ_sq_dev (m : Qc) (l : list Qc) :
  sumQ (map (fun x => (x - m) * (x - m)) l)
  = sumQ (map (fun x => x * x) l) - (1 + 1) * m * sumQ l + nat2Qc (length l) * m * m.
Proof.
  induction l as [|x l IH].
  - cbn [map length]. change (sumQ []) with 0. rewrite nat2Qc_0. ring.
  - cbn [map length]. rewrite !sumQ_cons, IH, nat2Qc_S. ring.
Qed.

(** X13. On an array of numbers, whatever the memory budget by which it is
    streamed, the unweighted sum is the sum of the values reduced into each
    output position, and the unweighted mean, over a reduced extent that
    is not empty, is their arithmetic mean. *)
Theorem sum_mean_exact (qrows : list (list Qc)) (N budget : nat) (gw : option (list val)) :
  N <> 0%nat ->
  Forall (fun r => length r = N) qrows ->
  let v := mkData (map (map Fin) qrows) N gw in
  getview budget (sum v (Some W_False)) = map (fun r => Fin (sumQ r)) qrows
  /\ getview budget (mean v (Some W_False)) = map (fun r => Fin (meanQ r)) qrows.
Proof.
  intros HN Hrows v.
  unfold sum, mean, pop_weights. cbn [getview v rows nred].
  pose proof (covers_loopover budget (map (map Fin) qrows)) as Hc.
  rewrite length_map. split; apply rows_ext.
  - apply length_SumVar_getview.
  - intros p Hp. rewrite (SumVar_covered Hc Hp), nth_map_Fin, npsum_Fin. reflexivity.
  - apply length_MeanVar_getview.
  - intros p Hp. rewrite (MeanVar_covered _ Hc Hp), nth_map_Fin, npsum_Fin.
    cbn [div of_Z val_elem vdiv]. rewrite (Z2Qc_nat_neq0 HN).
    unfold meanQ, nat2Qc.
    rewrite (proj1 (Forall_forall _ _) Hrows (nth p qrows []) (nth_In _ _ Hp)). reflexivity.
Qed.

Lemma sum_mean_exact_witness :
  let v := mkData (map (map Fin) [[1; 1 + 1]; [0; 1]]) 2 None in
  getview 1 (sum v (Some W_False)) = map (fun r => Fin (sumQ r)) [[1; 1 + 1]; [0; 1]]
  /\ getview 1 (mean v (Some W_False)) = map (fun r => Fin (meanQ r)) [[1; 1 + 1]; [0; 1]].
Proof.
  apply (@sum_mean_exact [[1; 1 + 1]; [0; 1]] 2 1 None).
  - discriminate.
  - repeat constructor.
Defined.

(** X14. On an array of numbers with at least two values reduced into each
    output position, the single-pass formula of [VarianceVar] gives the
    sample variance: the squared deviations from the mean, summed and
    divided by N - 1; whatever the memory budget. *)
Theorem variance_is_sample_variance (qrows : list (list Qc)) (N budget : nat)
    (gw : option (list val)) :
  (2 <= N)%nat ->
  Forall (fun r => length r = N) qrows ->
  getview budget (variance (mkData (map (map Fin) qrows) N gw))
  = map (fun r => Fin (sample_variance r)) qrows.
Proof.
  intros HN Hrows. unfold variance. cbn [getview rows nred].
  pose proof (covers_loopover budget (map (map Fin) qrows)) as Hc.
  rewrite length_map. apply rows_ext; [apply length_VarianceVar_getview|].
  intros p Hp. rewrite (VarianceVar_covered _ Hc Hp), nth_map_Fin. f_equal.
  pose proof (proj1 (Forall_forall _ _) Hrows (nth p qrows []) (nth_In _ _ Hp)) as Hlen.
  set (r := nth p qrows []) in *.
  cbv zeta. rewrite squares_Fin, !npsum_Fin.
  cbn [div of_Z val_elem vdiv mul sub vlift2].
  rewrite (Z2Qc_nat_neq0 (N:=N)) by lia. cbn [vlift2].
  unfold vdiv. rewrite Z2Qc_eq0.
  replace (Z.of_nat N - 1 =? 0)%Z with false by (symmetry; apply Z.eqb_neq; lia).
  cbv beta in Hlen. f_equal. unfold sample_variance. rewrite sumQ_sq_dev, Hlen, Z2Qc_pred.
  unfold meanQ. rewrite Hlen. fold (nat2Qc N).
  assert (Hn : nat2Qc N <> 0) by (apply nat2Qc_neq0; lia).
  assert (Hn1 : nat2Qc N - 1 <> 0).
  { unfold nat2Qc. rewrite <- Z2Qc_pred. intros H0.
    assert (Hb : Qeq_bool (Z2Qc (Z.of_nat N - 1)) 0 = true) by (rewrite H0; reflexivity).
    rewrite Z2Qc_eq0 in Hb. apply Z.eqb_eq in Hb. lia. }
  field. split; assumption.
Qed.

Lemma variance_is_sample_variance_witness :
  getview 2 (variance (mkData (map (map Fin) [[1; 1 + 1; 0]]) 3 None))
  = map (fun r => Fin (sample_variance r)) [[1; 1 + 1; 0]].
Proof.
  apply (@variance_is_sample_variance [[1; 1 + 1; 0]] 3 2 None).
  - lia.
  - repeat constructor.
Defined.

Lemma variance_degenerate (a b : val) (N : nat) :
  (N <= 1)%nat ->
  div (sub a (mul (of_Z (Z.of_nat N))
                  (mul (div b (of_Z (Z.of_nat N))) (div b (of_Z (Z.of_nat N))))))
      (of_Z (Z.of_nat N - 1)) = NaN.
Proof.
  intros HN. assert (HN' : N = 0%nat \/ N = 1%nat) by lia. destruct HN' as [->| ->].
  - assert (Hb : div b (of_Z (Z.of_nat 0)) = NaN).
    { destruct b; cbn [div val_elem vdiv of_Z]; [rewrite Z2Qc_eq0|]; reflexivity. }
    rewrite Hb. destruct a; reflexivity.
  - change (Z.of_nat 1 - 1)%Z with 0%Z.
    destruct (sub a (mul (of_Z (Z.of_nat 1))
                         (mul (div b (of_Z (Z.of_nat 1))) (div b (of_Z (Z.of_nat 1))))));
      cbn [div val_elem vdiv of_Z]; [rewrite Z2Qc_eq0|]; reflexivity.
Qed.

(** X15. The variance over fewer than two values is not an error: with one
    value, or none, reduced into each output position, [VarianceVar] gives
    NaN at every position. *)
Theorem variance_of_single_value_is_nan (v : data (T:=val)) (budget : nat) :
  (nred v <= 1)%nat ->
  Forall (fun r => length r = nred v) (rows v) ->
  getview budget (variance v) = map (fun _ => NaN) (rows v).
Proof.
  intros HN _. unfold variance. cbn [getview].
  apply rows_ext; [apply length_VarianceVar_getview|].
  intros p Hp. unfold VarianceVar_getview.
  rewrite nth_error_map2, nth_error_map, !nth_error_accumulate, nth_error_np_zeros by exact Hp.
  cbn [option_map]. f_equal. apply variance_degenerate. exact HN.
Qed.

Lemma variance_of_single_value_is_nan_witness :
  getview 4 (variance (mkData [[Fin 1]; [Fin 0]] 1 None)) = map (fun _ => NaN) [[Fin 1]; [Fin 0]].
Proof.
  apply (@variance_of_single_value_is_nan (mkData [[Fin 1]; [Fin 0]] 1 None) 4).
  - cbn [nred]. lia.
  - repeat constructor.
Defined.

Lemma nth_map_default {A B : Type} (f : A -> B) (l : list A) (p : nat) (d : A) (d' : B) :
  (p < length l)%nat -> nth p (map f l) d' = f (nth p l d).
Proof.
  intros Hp. rewrite (nth_indep _ d' (f d)) by (rewrite length_map; exact Hp).
  apply map_nth.
Qed.

Lemma map2_mul_Fin (r w : list Qc) :
  map2 mul (map Fin r) (map Fin w) = map Fin (map (fun e => fst e * snd e) (combine r w)).
Proof.
  revert w. induction r as [|x r IH]; intros [|y w]; cbn; try reflexivity.
  rewrite IH. reflexivity.
Qed.

Lemma weighted_rows_exact (qrows : list (list Qc)) (wq : list Qc) (budget : nat) :
  Forall (fun r => length r = length wq) qrows ->
  SumVar_getview (length qrows)
    (ToolsPy.loopover budget (map (fun row => map2 mul row (map Fin wq)) (map (map Fin) qrows)))
  = map (fun r => Fin (dotQ r wq)) qrows
  /\ SumVar_getview (length qrows)
       (ToolsPy.loopover budget
          (map (fun row => map snd (combine row (map Fin wq))) (map (map Fin) qrows)))
     = map (fun _ => Fin (sumQ wq)) qrows.
Proof.
  intros Hrows. split; (apply rows_ext; [apply length_SumVar_getview|]); intros p Hp.
  - rewrite (SumVar_covered (covers_loopover budget _) Hp).
    rewrite (nth_map_default _ _ [] []) by (rewrite length_map; exact Hp).
    rewrite nth_map_Fin, map2_mul_Fin, npsum_Fin. reflexivity.
  - rewrite (SumVar_covered (covers_loopover budget _) Hp).
    rewrite (nth_map_default _ _ [] []) by (rewrite length_map; exact Hp).
    rewrite nth_map_Fin, map_snd_combine_eq, npsum_Fin; [reflexivity|].
    rewrite !length_map.
    exact (proj1 (Forall_forall _ _) Hrows (nth p qrows []) (nth_In _ _ Hp)).
Qed.

(** X16. With explicit weights along the reduced extent, on an array of
    numbers and whatever the memory budget, the weighted sum is the sum of
    the products of the values with their weights, and the weighted mean,
    for weights whose sum is not zero, is that sum divided by the sum of
    the weights. *)
Theorem weighted_sum_mean_exact (qrows : list (list Qc)) (wq : list Qc) (N budget : nat)
    (gw : option (list val)) :
  Forall (fun r => length r = length wq) qrows ->
  sumQ wq <> 0 ->
  let v := mkData (map (map Fin) qrows) N gw in
  let weights := Some (W_Var (Some (map Fin wq))) in
  getview budget (sum v weights) = map (fun r => Fin (dotQ r wq)) qrows
  /\ getview budget (mean v weights) = map (fun r => Fin (dotQ r wq / sumQ wq)) qrows.
Proof.
  intros Hrows Hw0 v weights.
  destruct (@weighted_rows_exact qrows wq budget Hrows) as [Hs Hw].
  unfold sum, mean, pop_weights, weights. cbn [getview v rows]. rewrite length_map. split.
  - rewrite (proj1 (WeightedSumVar_plain _ _ _ _)). exact Hs.
  - rewrite WeightedMeanVar_plain, Hs, Hw.
    clear -Hw0. induction qrows as [|r qrows IH]; [reflexivity|].
    cbn [map map2]. rewrite IH. f_equal.
    cbn [div val_elem vdiv]. rewrite (Qeq_bool_neq0 Hw0). reflexivity.
Qed.

Lemma weighted_sum_mean_exact_witness :
  let v := mkData (map (map Fin) [[1; 0]; [1; 1]]) 2 None in
  let weights := Some (W_Var (Some (map Fin [1 + 1; 1]))) in
  getview 1 (sum v weights) = map (fun r => Fin (dotQ r [1 + 1; 1])) [[1; 0]; [1; 1]]
  /\ getview 1 (mean v weights)
     = map (fun r => Fin (dotQ r [1 + 1; 1] / sumQ [1 + 1; 1])) [[1; 0]; [1; 1]].
Proof.
  apply (@weighted_sum_mean_exact [[1; 0]; [1; 1]] [1 + 1; 1] 2 1 None).
  - repeat constructor.
  - intros H. apply (f_equal this) in H. vm_compute in H. discriminate.
Defined.

Lemma dotQ_ones (r : list Qc) : dotQ r (repeat 1 (length r)) = sumQ r.
Proof.
  unfold dotQ. induction r as [|x r IH]; [reflexivity|].
  cbn [length repeat combine map fst snd]. rewrite !sumQ_cons, IH. ring.
Qed.

Lemma sumQ_repeat_1 (n : nat) : sumQ (repeat 1 n) = nat2Qc n.
Proof.
  induction n as [|n IH]; [symmetry; apply nat2Qc_0|].
  cbn [repeat]. rewrite sumQ_cons, IH, nat2Qc_S. ring.
Qed.

(** X17. A weighted mean whose weights are all one is the unweighted mean:
    on an array of numbers with a reduced extent that is not empty,
    [mean] with such weights and [mean] with [weights=False] return the
    same values. *)
Theorem mean_unit_weights (qrows : list (list Qc)) (N budget : nat) (gw : option (list val)) :
  N <> 0%nat ->
  Forall (fun r => length r = N) qrows ->
  let v := mkData (map (map Fin) qrows) N gw in
  getview budget (mean v (Some (W_Var (Some (map Fin (repeat 1 N))))))
  = getview budget (mean v (Some W_False)).
Proof.
  intros HN Hrows v.
  assert (Hrows' : Forall (fun r => length r = length (repeat (1:Qc) N)) qrows).
  { rewrite repeat_length. exact Hrows. }
  destruct (@weighted_rows_exact qrows (repeat 1 N) budget Hrows') as [Hs Hw].
  unfold mean, pop_weights. cbn [getview v rows nred]. rewrite length_map.
  rewrite WeightedMeanVar_plain, Hs, Hw.
  pose proof (covers_loopover budget (map (map Fin) qrows)) as Hc.
  symmetry. apply nth_error_ext. intros p.
  destruct (Nat.lt_ge_cases p (length qrows)) as [Hp|Hp].
  - rewrite (MeanVar_covered _ Hc Hp), nth_map_Fin, npsum_Fin.
    rewrite nth_error_map2, !nth_error_map, (nth_error_nth' qrows [] Hp). cbn [option_map].
    pose proof (proj1 (Forall_forall _ _) Hrows (nth p qrows []) (nth_In _ _ Hp)) as Hlen.
    cbv beta in Hlen. rewrite sumQ_repeat_1.
    replace (dotQ (nth p qrows []) (repeat 1 N)) with (sumQ (nth p qrows []))
      by (rewrite <- Hlen; symmetry; apply dotQ_ones).
    reflexivity.
  - rewrite (proj2 (nth_error_None _ _)) by (rewrite length_MeanVar_getview; exact Hp).
    symmetry. apply nth_error_None. rewrite length_map2, !length_map. lia.
Qed.

Lemma mean_unit_weights_witness :
  let v := mkData (map (map Fin) [[1; 0]; [1; 1]]) 2 None in
  getview 1 (mean v (Some (W_Var (Some (map Fin (repeat 1 2))))))
  = getview 1 (mean v (Some W_False)).
Proof.
  apply (@mean_unit_weights [[1; 0]; [1; 1]] 2 1 None).
  - discriminate.
  - repeat constructor.
Defined.



Lemma npsum_cons (x : val) (l : list val) : npsum (x :: l) = add x (npsum l).
Proof.
  unfold npsum. cbn [fold_left]. rewrite fold_left_vadd_init, vadd_zero_l. reflexivity.
Qed.

Lemma npsum_concat (arr : list (list val)) : npsum (concat arr) = npsum (map npsum arr).
Proof.
  induction arr as [|r arr IH]; [reflexivity|].
  cbn [concat map]. rewrite npsum_app, npsum_cons, IH. reflexivity.
Qed.

Lemma SumVar_rows (arr : list (list val)) (budget : nat) :
  SumVar_getview (length arr) (ToolsPy.loopover budget arr) = map npsum arr.
Proof.
  apply rows_ext; [apply length_SumVar_getview|].
  intros p Hp. apply (SumVar_covered (covers_loopover budget arr) Hp).
Qed.

(** X19. Summing in two steps is summing at once: the unweighted sum, over
    its one axis, of the result of an unweighted sum is the sum of all the
    elements of the array, NaN elements included, whatever the memory
    budgets. *)
Theorem sum_of_sums (v : data (T:=val)) (b1 b2 b3 n1 n2 : nat) (g1 g2 : option (list val)) :
  getview b1 (sum (mkData [getview b2 (sum v (Some W_False))] n1 g1) (Some W_False))
  = getview b3 (sum (mkData [concat (rows v)] n2 g2) (Some W_False)).
Proof.
  unfold sum, pop_weights. cbn [getview rows].
  rewrite !SumVar_rows. cbn [map]. rewrite npsum_concat. reflexivity.
Qed.

Lemma NANSumVar_rows (arr : list (list val)) (budget : nat) :
  NANSumVar_getview (length arr) (ToolsPy.loopover budget arr) = map nan_total arr.
Proof.
  apply rows_ext; [apply length_NANSumVar_getview|].
  intros p Hp. apply (NANSumVar_covered (covers_loopover budget arr) Hp).
Qed.

Lemma map2_map_map {A : Type} (f : val -> val -> val) (g h : A -> val) (l : list A) :
  map2 f (map g l) (map h l) = map (fun x => f (g x) (h x)) l.
Proof. induction l as [|x l IH]; cbn; [reflexivity | rewrite IH; reflexivity]. Qed.

Lemma weighted_products_nan (row : list val) (wq : list Qc) :
  length row = length wq ->
  forallb isnan (map2 mul row (map Fin wq)) = forallb isnan row
  /\ finite_part (map2 mul row (map Fin wq))
     = map (fun e => fst e * snd e) (finite_pairs row wq).
Proof.
  revert wq. induction row as [|x row IH]; intros [|w wq] Hlen; try discriminate.
  - split; reflexivity.
  - cbn [length] in Hlen. destruct (IH wq ltac:(lia)) as [IH1 IH2].
    unfold finite_pairs in *. cbn [map map2 forallb combine flat_map fst snd finite_part].
    fold (finite_part (map2 mul row (map Fin wq))).
    rewrite IH1, IH2. destruct x; split; reflexivity.
Qed.

Lemma masked_weights_nan (row : list val) (wq : list Qc) :
  length row = length wq ->
  let wrow := map (fun e => add (snd e) (mul (fst e) zero)) (combine row (map Fin wq)) in
  forallb isnan wrow = forallb isnan row
  /\ finite_part wrow = map snd (finite_pairs row wq).
Proof.
  revert wq. induction row as [|x row IH]; intros [|w wq] Hlen; try discriminate.
  - split; reflexivity.
  - cbn [length] in Hlen. destruct (IH wq ltac:(lia)) as [IH1 IH2]. cbv zeta in *.
    unfold finite_pairs in *. cbn [map forallb combine flat_map fst snd finite_part].
    fold (finite_part (map (fun e : val * val => add (snd e) (mul (fst e) zero))
                           (combine row (map Fin wq)))).
    rewrite IH1, IH2. destruct x as [q|]; split; try reflexivity.
    cbn. f_equal. ring.
Qed.

(** The weighted NaN-aware reductions, row by row, in terms of the
    elements that are numbers. *)
Lemma weighted_nan_rows (arr : list (list val)) (wq : list Qc) (budget : nat) :
  Forall (fun r => length r = length wq) arr ->
  NANSumVar_getview (length arr)
    (ToolsPy.loopover budget (map (fun row => map2 mul row (map Fin wq)) arr))
  = map (fun row => nan_total (map2 mul row (map Fin wq))) arr
  /\ NANSumVar_getview (length arr)
       (ToolsPy.loopover budget
          (map (fun row => map (fun e => add (snd e) (mul (fst e) zero))
                               (combine row (map Fin wq))) arr))
     = map (fun row => nan_total (map (fun e => add (snd e) (mul (fst e) zero))
                                      (combine row (map Fin wq)))) arr.
Proof.
  intros Hrows. split.
  - rewrite <- (length_map (fun row => map2 mul row (map Fin wq)) arr) at 1.
    rewrite NANSumVar_rows, map_map. reflexivity.
  - rewrite <- (length_map (fun row => map (fun e => add (snd e) (mul (fst e) zero))
                                           (combine row (map Fin wq))) arr) at 1.
    rewrite NANSumVar_rows, map_map. reflexivity.
Qed.

(** X20. With explicit weights, the NaN-aware reductions leave out the NaN
    elements together with their weights: at an output position into
    which at least one number is reduced, the weighted [nansum] is the sum
    of the products over the elements that are numbers, and the weighted
    [nanmean], when the weights of those elements do not sum to zero,
    divides it by the sum of the weights of those elements only; whatever
    the memory budget. *)
Theorem weighted_nan_reductions_exact (arr : list (list val)) (wq : list Qc) (N budget : nat)
    (gw : option (list val)) (p : nat) (row : list val) :
  Forall (fun r => length r = length wq) arr ->
  nth_error arr p = Some row ->
  forallb isnan row = false ->
  let v := mkData arr N gw in
  let weights := Some (W_Var (Some (map Fin wq))) in
  nth_error (getview budget (nansum v weights)) p
  = Some (Fin (sumQ (map (fun e => fst e * snd e) (finite_pairs row wq))))
  /\ (sumQ (map snd (finite_pairs row wq)) <> 0 ->
      nth_error (getview budget (nanmean v weights)) p
      = Some (Fin (sumQ (map (fun e => fst e * snd e) (finite_pairs row wq))
                   / sumQ (map snd (finite_pairs row wq))))).
Proof.
  intros Hrows Hrow Hnum v weights.
  unfold nansum, nanmean, pop_weights, weights. cbn [getview v rows].
  destruct (@weighted_nan_rows arr wq budget Hrows) as [Hout HW].
  pose proof (proj1 (Forall_forall _ _) Hrows row (nth_error_In _ _ Hrow)) as Hlen.
  destruct (weighted_products_nan row wq Hlen) as [H1 H2].
  destruct (masked_weights_nan row wq Hlen) as [H3 H4]. cbv zeta in H3, H4.
  split.
  - rewrite (proj2 (WeightedSumVar_plain _ _ _ _)), Hout, nth_error_map, Hrow.
    cbn [option_map]. unfold nan_total. rewrite H1, H2, Hnum. reflexivity.
  - intros Hw0. rewrite WeightedNANMeanVar_plain, Hout, HW, nth_error_map2, !nth_error_map, Hrow.
    cbn [option_map]. unfold nan_total. rewrite H1, H2, H3, H4, Hnum.
    cbn [div val_elem vdiv]. rewrite (Qeq_bool_neq0 Hw0). reflexivity.
Qed.

Lemma weighted_nan_reductions_exact_witness :
  let v := mkData [[Fin 1; NaN]; [NaN; NaN]] 2 None in
  let weights := Some (W_Var (Some (map Fin [1 + 1; 1]))) in
  nth_error (getview 1 (nansum v weights)) 0
  = Some (Fin (sumQ (map (fun e => fst e * snd e) (finite_pairs [Fin 1; NaN] [1 + 1; 1]))))
  /\ nth_error (getview 1 (nanmean v weights)) 0
     = Some (Fin (sumQ (map (fun e => fst e * snd e) (finite_pairs [Fin 1; NaN] [1 + 1; 1]))
                  / sumQ (map snd (finite_pairs [Fin 1; NaN] [1 + 1; 1])))).
Proof.
  destruct (@weighted_nan_reductions_exact [[Fin 1; NaN]; [NaN; NaN]] [1 + 1; 1] 2 1 None
              0 [Fin 1; NaN]) as [Hs Hm].
  - repeat constructor.
  - reflexivity.
  - reflexivity.
  - split; [exact Hs|]. apply Hm.
    intros H. apply (f_equal this) in H. vm_compute in H. discriminate.
Defined.

(** ** climat.py: what the means over the time axis compute *)

Lemma partial_sum_split {T : Type} {E : Elem T} (S : list (nat * T)) (s : list T) (c : list Z) :
  fold_left (fun '(s, c) '(b, x) => (upd b (fun y => add y x) s, upd b Z.succ c)) S (s, c)
  = (fold_left (fun o '(p, v) => upd p (fun y => add y v) o) S s,
     fold_left (fun o '(p, v) => upd p (fun c => (fun c (_ : unit) => Z.succ c) c v) o)
               (map (fun e => (fst e, tt)) S) c).
Proof.
  revert s c. induction S as [|[b x] S IH]; intros s c; [reflexivity|].
  cbn [fold_left map fst]. apply IH.
Qed.

Lemma combine_Fin_r (bins : list nat) (xq : list Qc) :
  combine bins (map Fin xq) = map (fun e => (fst e, Fin (snd e))) (combine bins xq).
Proof.
  revert xq. induction bins as [|b bins IH]; intros [|x xq]; cbn; try reflexivity.
  rewrite IH. reflexivity.
Qed.

Lemma samples_outtime {A : Type} (d : A) (m : TimeMap) (ds : list date) (v : list A) :
  length v = length ds ->
  samples d m ds (get_outtime m ds) v
  = combine (map (bin_of m (get_outtime m ds)) ds) v.
Proof.
  intros Hlen. unfold samples. rewrite common_map_outtime.
  assert (Hlen' : length v = length (map (bin_of m (get_outtime m ds)) ds))
    by (rewrite length_map; exact Hlen).
  pose proof (samples_combine d v (map (bin_of m (get_outtime m ds)) ds) Hlen' []) as HS.
  cbn [app length] in HS. rewrite Hlen in HS. exact HS.
Qed.

(** X21. The mean over the time axis, for the two mappings whose output
    axis is built without a check (the climatology and the diurnal mean)
    and whatever the memory budget: on a series of numbers, the output
    axis built by the mapping is accepted by the loop, and the value at
    each of its bins is the arithmetic mean of the values of the timesteps
    that fall into the bin. *)
Theorem Mean_getview_exact (m : TimeMap) (budget : nat) (ds : list date) (tq xq : list Qc) :
  m = Clim \/ m = Diurnal ->
  length tq = length ds -> length xq = length ds ->
  bind (TimeOp_init m (exact_tvar ds tq xq)) (Mean_getview budget)
  = Ok (map (fun b => Fin (meanQ (bin_samples b
                                   (combine (map (bin_of m (get_outtime m ds)) ds) xq))))
            (seq 0 (length (get_outtime m ds)))).
Proof.
  intros _ Ht Hx. unfold TimeOp_init. cbn [bind dates exact_tvar].
  rewrite Mean_getview_whole
    by (split; cbn [var reltime tvalues dates exact_tvar]; now rewrite length_map).
  unfold Mean_whole. cbn [var timemap outtime dates tvalues reltime exact_tvar].
  rewrite bins_covered_outtime. cbn [negb].
  rewrite samples_outtime by (rewrite length_map; exact Hx).
  set (ct := get_outtime m ds). set (bins := map (bin_of m ct) ds).
  unfold partial_sum. rewrite combine_map_map, map_fst_snd_id.
  rewrite partial_sum_split. f_equal.
  rewrite combine_Fin_r. set (Sq := combine bins xq).
  apply nth_error_ext. intros b. rewrite nth_error_map, nth_error_seq.
  destruct (Nat.ltb_spec b (length ct)) as [Hb|Hb]; cbn [option_map Nat.add].
  - rewrite (@nth_error_div_count _ _ b (sumQ (map (fun x : Qc => x) (bin_samples b Sq)))
                                  (length (bin_samples b Sq))).
    + assert (Hpos : (0 < length (bin_samples b Sq))%nat).
      { unfold Sq. apply bin_samples_nonempty.
        - unfold bins. rewrite length_map. exact Hx.
        - destruct (outtime_bin_reached m ds Hb) as [d [Hd Hbin]].
          rewrite <- Hbin. unfold bins. now apply in_map. }
      destruct (length (bin_samples b Sq)) eqn:Hk; [lia|]. cbn [Nat.eqb].
      unfold meanQ. rewrite map_id, Hk. reflexivity.
    + apply (scatter_sum_Fin (fun x : Qc => x)). exact Hb.
    + rewrite map_map. cbn [fst]. apply scatter_count. exact Hb.
  - unfold div_count. rewrite nth_error_map2.
    replace (nth_error (fold_left _ _ (np_zeros (length ct))) b) with (@None val);
      [reflexivity|].
    symmetry. apply nth_error_None. rewrite length_trend_field. exact Hb.
Qed.

Lemma Mean_getview_exact_witness :
  bind (TimeOp_init Clim (exact_tvar three_years_d [0; 1; 1 + 1] [1; 1 + 1 + 1; 1 + 1]))
       (Mean_getview 1)
  = Ok (map (fun b => Fin (meanQ (bin_samples b
                                   (combine (map (bin_of Clim
                                                         (get_outtime Clim three_years_d))
                                                 three_years_d)
                                            [1; 1 + 1 + 1; 1 + 1]))))
            (seq 0 (length (get_outtime Clim three_years_d)))).
Proof.
  apply (@Mean_getview_exact Clim 1 three_years_d [0; 1; 1 + 1] [1; 1 + 1 + 1; 1 + 1]).
  - left. reflexivity.
  - reflexivity.
  - reflexivity.
Defined.

(** ** climat.py: the trend taken away *)























(** ** climat.py: the chunks of [loopover] *)

Lemma take_concat {A : Type} (v : list A) (ls : list (list nat)) :
  take v (concat ls) = concat (map (take v) ls).
Proof.
  unfold take. induction ls as [|l ls IH]; [reflexivity|].
  cbn [concat map]. rewrite flat_map_app, IH. reflexivity.
Qed.

Lemma take_seq_from {A : Type} (pre v : list A) :
  take (pre ++ v) (seq (length pre) (length v)) = v.
Proof.
  revert pre. induction v as [|x v IH]; intros pre; [reflexivity|].
  unfold take in *. cbn [length seq flat_map].
  rewrite nth_error_app2, Nat.sub_diag by lia. cbn [nth_error app]. f_equal.
  specialize (IH (pre ++ [x])). rewrite <- app_assoc, length_app, Nat.add_1_r in IH.
  exact IH.
Qed.

Lemma length_take {A : Type} (v : list A) (idx : list nat) :
  Forall (fun i => (i < length v)%nat) idx -> length (take v idx) = length idx.
Proof.
  intros H. unfold take. induction H as [|i idx Hi _ IH]; [reflexivity|].
  cbn [flat_map]. rewrite length_app, IH.
  destruct (nth_error v i) eqn:Hn; [reflexivity|].
  apply nth_error_None in Hn. lia.
Qed.

(** X24. The loop over the time axis delivers every timestep once and in
    order: on the output axis that the mapping builds, the coverage
    assertion of [loopover] holds; the bins of its chunks, put end to end,
    are the bins of the timesteps, and the data of each variable, put end
    to end, is the variable; no chunk is empty, each chunk holds data for
    every variable of the list, and in each chunk every variable has one
    value for each bin. *)
Theorem loopover_delivers_every_timestep {T : Type} {E : Elem T}
    (budget : nat) (m : TimeMap) (varlist : list (list T)) (t : list date) :
  Forall (fun v => length v = length t) varlist ->
  exists loop,
    loopover budget m varlist t (get_outtime m t) = Ok loop
    /\ concat (map snd loop) = map (bin_of m (get_outtime m t)) t
    /\ (forall j v, nth_error varlist j = Some v ->
                    concat (map (fun step => nth j (fst step) []) loop) = v)
    /\ Forall (fun step =>
                 snd step <> []
                 /\ length (fst step) = length varlist
                 /\ Forall (fun data => length data = length (snd step)) (fst step))
              loop.
Proof.
  intros Hvars. rewrite loopover_pieces, bins_covered_outtime. cbn [negb].
  rewrite common_map_outtime. cbn [fst snd].
  set (bins := map (bin_of m (get_outtime m t)) t).
  set (P0 := combine (seq 0 (length t)) bins).
  assert (Hlen : length (seq 0 (length t)) = length bins).
  { unfold bins. rewrite length_seq, length_map. reflexivity. }
  assert (Hrange : Forall (fun e : nat * nat => (fst e < length t)%nat) P0).
  { apply Forall_forall. intros [i b] Hin. apply in_combine_l in Hin.
    apply in_seq in Hin. cbn [fst]. lia. }
  eexists. split; [reflexivity|]. split; [|split].
  - rewrite map_map. cbn [snd]. rewrite <- concat_map, loop_mem_concat.
    apply map_snd_combine_eq. exact Hlen.
  - intros j v Hj. rewrite map_map. cbn [fst].
    assert (Hnth : forall P : list (nat * nat),
               nth j (map (fun v0 => take v0 (map fst P)) varlist) [] = take v (map fst P)).
    { intros P. apply nth_error_nth. rewrite nth_error_map, Hj. reflexivity. }
    rewrite (map_ext _ _ Hnth).
    rewrite <- (map_map (map fst) (take v)), <- take_concat, <- concat_map, loop_mem_concat.
    unfold P0. rewrite map_fst_combine_eq by exact Hlen.
    pose proof (proj1 (Forall_forall _ _) Hvars v (nth_error_In _ _ Hj)) as Hv.
    cbv beta in Hv. rewrite <- Hv. exact (take_seq_from [] v).
  - apply Forall_map.
    pose proof (loop_mem_nonempty budget P0) as Hne.
    pose proof (Forall_pieces budget Hrange) as Hin.
    revert Hne Hin. generalize (loop_mem budget P0). intros pieces Hne Hin.
    induction pieces as [|P pieces IH]; [constructor|].
    inversion Hne; subst. inversion Hin; subst.
    constructor; [|apply IH; assumption]. cbn [fst snd].
    split; [destruct P; [contradiction | discriminate]|].
    split; [apply length_map|].
    apply Forall_map. apply Forall_forall. intros v Hv.
    rewrite length_take, !length_map; [reflexivity|].
    apply Forall_map.
    rewrite (proj1 (Forall_forall _ _) Hvars v Hv). assumption.
Qed.

Lemma loopover_delivers_every_timestep_witness :
  exists loop,
    loopover 1 Clim [[1%float; 2%float]; [0%float; 86400%float]] [jan1; jan2]
             (get_outtime Clim [jan1; jan2]) = Ok loop
    /\ concat (map snd loop)
       = map (bin_of Clim (get_outtime Clim [jan1; jan2])) [jan1; jan2]
    /\ (forall j v, nth_error [[1%float; 2%float]; [0%float; 86400%float]] j = Some v ->
                    concat (map (fun step => nth j (fst step) []) loop) = v)
    /\ Forall (fun step =>
                 snd step <> []
                 /\ length (fst step) = length [[1%float; 2%float]; [0%float; 86400%float]]
                 /\ Forall (fun data => length data = length (snd step)) (fst step))
              loop.
Proof.
  apply (@loopover_delivers_every_timestep float float_elem 1 Clim
           [[1%float; 2%float]; [0%float; 86400%float]] [jan1; jan2]).
  repeat constructor.
Defined.

(** ** climat.py: the shape of the results *)

Lemma length_div_count {T : Type} {E : Elem T} (a : list T) (c : list Z) :
  length (div_count a c) = Nat.min (length a) (length c).
Proof. unfold div_count. rewrite length_map2, length_map. reflexivity. Qed.

Lemma length_count_field {V : Type} (es : list (nat * V)) (c : list Z) :
  length (fold_left (fun o '(p, v) => upd p (fun c => (fun c (_ : V) => Z.succ c) c v) o) es c)
  = length c.
Proof. apply (length_scatter (fun c (_ : V) => Z.succ c)). Qed.

(** X25. Whatever the element arithmetic (float64 included) and the memory
    budget, on a variable whose values and times are as long as its time
    axis: the climatology and the diurnal mean, whose output axis is built
    without a check, never fail and have one value for each bin of the
    output axis; the climatological trend, once the variable has more than
    one timestep, never fails and has one pair of coefficients for each
    bin. *)
Theorem time_reductions_shape {T : Type} {E : Elem T}
    (m : TimeMap) (budget : nat) (v : tvar (T:=T)) :
  m = Clim \/ m = Diurnal ->
  wf_tvar v ->
  (exists out,
     bind (TimeOp_init m v) (Mean_getview budget) = Ok out
     /\ length out = length (get_outtime m (dates v)))
  /\ ((1 < length (dates v))%nat ->
      exists coef,
        bind (climtrend v) (Trend_getview budget) = Ok coef
        /\ length coef = length (get_outtime Clim (dates v))
        /\ Forall (fun cs => length cs = 2%nat) coef).
Proof.
  intros _ Hwf. split.
  - unfold TimeOp_init. cbn [bind].
    rewrite Mean_getview_whole by exact Hwf.
    unfold Mean_whole. cbn [var timemap outtime]. rewrite bins_covered_outtime. cbn [negb].
    unfold partial_sum. rewrite combine_map_map, map_fst_snd_id, partial_sum_split.
    eexists. split; [reflexivity|].
    rewrite length_div_count, length_trend_field, length_count_field, repeat_length.
    apply Nat.min_id.
  - intros Hn. unfold climtrend, Trend_init, TimeOp_init. cbn [bind].
    replace (1 <? length (dates v))%nat with true by (symmetry; apply Nat.ltb_lt; exact Hn).
    cbn [bind]. rewrite Trend_getview_whole by exact Hwf.
    unfold Trend_whole. cbn [var timemap outtime]. rewrite bins_covered_outtime. cbn [negb].
    eexists. split; [reflexivity|].
    set (n := length (get_outtime Clim (dates v))).
    set (S := samples _ _ _ _ _).
    pose proof (trend_fields S (trend_acc0 n)) as HF. cbn zeta in HF.
    cbn [trend_acc0 aF aX aXF aX2 nF nX nXF nX2] in HF.
    destruct HF as (H1 & H2 & H3 & H4 & H5 & H6 & H7 & H8).
    unfold trend_finalize. cbn zeta. split.
    + rewrite length_map, !length_combine, !length_map2, !length_div_count.
      rewrite H1, H2, H3, H4, H5, H6, H7, H8.
      rewrite !length_trend_field, !length_count_field, !repeat_length. lia.
    + apply Forall_map. apply Forall_forall. intros [d [b a]] _. reflexivity.
Qed.

Lemma time_reductions_shape_witness :
  (exists out,
     bind (TimeOp_init Diurnal two_days_f) (Mean_getview 1) = Ok out
     /\ length out = length (get_outtime Diurnal (dates two_days_f)))
  /\ ((1 < length (dates two_days_f))%nat ->
      exists coef,
        bind (climtrend two_days_f) (Trend_getview 1) = Ok coef
        /\ length coef = length (get_outtime Clim (dates two_days_f))
        /\ Forall (fun cs => length cs = 2%nat) coef).
Proof.
  apply (@time_reductions_shape float float_elem Diurnal 1 two_days_f).
  - right. reflexivity.
  - split; reflexivity.
Defined.

(** ** reduce.py: minimum and maximum *)

Import MinMaxPy.

Lemma pieces_at_loopover_from {T : Type} (budget p : nat) (arr : list (list T)) :
  forall start,
    map snd (filter (fun e => (fst e =? p)%nat)
      (concat (concat (map (fun '(q, row) =>
                              map (fun piece => [(q, piece)]) (loop_mem budget row))
                           (combine (seq start (length arr)) arr)))))
    = if (start <=? p)%nat then loop_mem budget (nth (p - start) arr []) else [].
Proof.
  induction arr as [|row arr IH]; intros start.
  - cbn. destruct (start <=? p)%nat; [now destruct (p - start)%nat | reflexivity].
  - cbn [length seq combine map concat].
    rewrite concat_app, filter_app, map_app, IH.
    rewrite (concat_singletons (pair start)), filter_fst_pair.
    destruct (Nat.eqb_spec start p) as [->|Hne].
    + rewrite map_map. cbn [snd]. rewrite map_id.
      rewrite Nat.sub_diag, Nat.leb_refl.
      replace (S p <=? p)%nat with false by (symmetry; apply Nat.leb_gt; lia).
      cbn [nth]. apply app_nil_r.
    + cbn [map app].
      destruct (Nat.leb_spec start p) as [Hle|Hgt].
      * replace (S start <=? p)%nat with true by (symmetry; apply Nat.leb_le; lia).
        replace (p - start)%nat with (S (p - S start)) by lia. reflexivity.
      * replace (S start <=? p)%nat with false by (symmetry; apply Nat.leb_gt; lia).
        reflexivity.
Qed.

Lemma pieces_at_loopover {T : Type} (budget p : nat) (arr : list (list T)) :
  pieces_at p (ToolsPy.loopover budget arr) = loop_mem budget (nth p arr []).
Proof.
  unfold pieces_at, ToolsPy.loopover.
  rewrite (pieces_at_loopover_from budget p arr 0), Nat.sub_0_r. reflexivity.
Qed.

(** The accumulation loop of a reduction, position by position, whatever
    the element type. *)
Lemma accumulate_loopover {T : Type} (f : T -> T -> T) (g : list T -> T)
    (out : list T) (budget : nat) (arr : list (list T)) :
  length (accumulate f g out (ToolsPy.loopover budget arr)) = length out
  /\ forall q,
       nth_error (accumulate f g out (ToolsPy.loopover budget arr)) q
       = option_map (fun x => fold_left f (map g (loop_mem budget (nth q arr []))) x)
                    (nth_error out q).
Proof.
  assert (Hs : forall loop : list (chunk (T:=T)),
             accumulate f g out loop
             = fold_left (fun o '(p, v) => upd p (fun x => f x v) o)
                         (map (fun e => (fst e, g (snd e))) (concat loop)) out).
  { intros loop. unfold accumulate. rewrite fold_left_concat.
    generalize out. induction (concat loop) as [|[p row] l IH]; intros o; [reflexivity|].
    cbn [fold_left map fst snd]. apply IH. }
  rewrite Hs. split; [apply length_scatter|].
  intros q. rewrite nth_error_scatter. rewrite <- pieces_at_loopover. unfold pieces_at.
  assert (H : forall l : list (nat * list T),
             map snd (filter (fun e => (fst e =? q)%nat)
                        (map (fun e : nat * list T => (fst e, g (snd e))) l))
             = map g (map snd (filter (fun e => (fst e =? q)%nat) l))).
  { induction l as [|[p row] l IH]; [reflexivity|].
    cbn [map filter fst snd]. destruct (p =? q)%nat; cbn [map snd]; rewrite IH; reflexivity. }
  rewrite H. reflexivity.
Qed.

Lemma extreme_of_nonempty (R : Qc -> Qc -> Prop) (idv acc : MinMaxPy.ext) (l : list Qc) :
  l <> [] ->
  (extreme_of R idv acc l
   <-> exists q, acc = MinMaxPy.Num q /\ In q l /\ forall y, In y l -> R q y).
Proof. destruct l; [contradiction | reflexivity]. Qed.

Section Extremum.
Variable R : Qc -> Qc -> Prop.
Variable idv : MinMaxPy.ext.
Variable pick : MinMaxPy.ext -> MinMaxPy.ext -> MinMaxPy.ext.
Variable g : list MinMaxPy.ext -> MinMaxPy.ext.
Hypothesis R_refl : forall x, R x x.
Hypothesis R_trans : forall x y z, R x y -> R y z -> R x z.
Hypothesis pick_id : forall q, pick idv (MinMaxPy.Num q) = MinMaxPy.Num q.
Hypothesis pick_num : forall x y,
  (pick (MinMaxPy.Num x) (MinMaxPy.Num y) = MinMaxPy.Num x /\ R x y)
  \/ (pick (MinMaxPy.Num x) (MinMaxPy.Num y) = MinMaxPy.Num y /\ R y x).
Hypothesis g_cons : forall x r, g (x :: r) = fold_left pick r x.

Lemma pick_extreme (acc m : MinMaxPy.ext) (l piece : list Qc) :
  piece <> [] ->
  extreme_of R idv acc l -> extreme_of R idv m piece ->
  extreme_of R idv (pick acc m) (l ++ piece).
Proof.
  intros Hne Hl Hp.
  apply (extreme_of_nonempty R idv m Hne) in Hp. destruct Hp as (b & -> & Hb & Hbmin).
  destruct l as [|x l].
  - cbn in Hl. subst acc. rewrite pick_id. cbn [app].
    apply (extreme_of_nonempty R idv _ Hne). exists b. auto.
  - assert (Hne' : x :: l <> []) by discriminate.
    apply (extreme_of_nonempty R idv acc Hne') in Hl. destruct Hl as (a & -> & Ha & Hamin).
    assert (Hne'' : (x :: l) ++ piece <> []) by discriminate.
    apply (extreme_of_nonempty R idv _ Hne'').
    destruct (pick_num a b) as [[-> Hab]|[-> Hba]].
    + exists a. split; [reflexivity|]. split; [apply in_or_app; left; exact Ha|].
      intros y Hy. apply in_app_or in Hy. destruct Hy as [Hy|Hy].
      * apply Hamin. exact Hy.
      * apply (R_trans Hab). apply Hbmin. exact Hy.
    + exists b. split; [reflexivity|]. split; [apply in_or_app; right; exact Hb|].
      intros y Hy. apply in_app_or in Hy. destruct Hy as [Hy|Hy].
      * apply (R_trans Hba). apply Hamin. exact Hy.
      * apply Hbmin. exact Hy.
Qed.

Lemma fold_pick_extreme (r l : list Qc) (acc : MinMaxPy.ext) :
  l <> [] -> extreme_of R idv acc l ->
  extreme_of R idv (fold_left pick (map MinMaxPy.Num r) acc) (l ++ r).
Proof.
  revert l acc. induction r as [|y r IH]; intros l acc Hne Hl.
  - rewrite app_nil_r. exact Hl.
  - cbn [map fold_left].
    replace (l ++ y :: r) with ((l ++ [y]) ++ r) by (rewrite <- app_assoc; reflexivity).
    apply IH; [destruct l; discriminate|].
    apply pick_extreme; [discriminate | exact Hl |].
    cbn. exists y. split; [reflexivity|]. split; [left; reflexivity|].
    intros z [<-|[]]. apply R_refl.
Qed.

Lemma g_extreme (piece : list Qc) :
  piece <> [] -> extreme_of R idv (g (map MinMaxPy.Num piece)) piece.
Proof.
  destruct piece as [|x r]; [contradiction|]. intros _.
  cbn [map]. rewrite g_cons.
  apply (@fold_pick_extreme r [x] (MinMaxPy.Num x)); [discriminate|].
  cbn. exists x. split; [reflexivity|]. split; [left; reflexivity|].
  intros z [<-|[]]. apply R_refl.
Qed.

Lemma fold_pieces_extreme (pieces : list (list Qc)) (l : list Qc) (acc : MinMaxPy.ext) :
  Forall (fun P => P <> []) pieces ->
  extreme_of R idv acc l ->
  extreme_of R idv (fold_left pick (map g (map (map MinMaxPy.Num) pieces)) acc)
             (l ++ concat pieces).
Proof.
  intros Hne. revert l acc. induction Hne as [|P pieces HP _ IH]; intros l acc Hl.
  - cbn. rewrite app_nil_r. exact Hl.
  - cbn [map fold_left concat]. rewrite app_assoc. apply IH.
    apply pick_extreme; [exact HP | exact Hl | apply g_extreme; exact HP].
Qed.

End Extremum.

Lemma minimum_num (x y : Qc) :
  (MinMaxPy.minimum (MinMaxPy.Num x) (MinMaxPy.Num y) = MinMaxPy.Num x /\ x <= y)
  \/ (MinMaxPy.minimum (MinMaxPy.Num x) (MinMaxPy.Num y) = MinMaxPy.Num y /\ y <= x).
Proof.
  unfold MinMaxPy.minimum. cbn [MinMaxPy.leb MinMaxPy.is_nan MinMaxPy.ext_ord MinMaxPy.ext_leb].
  rewrite orb_false_r. destruct (Qle_bool x y) eqn:H.
  - left. split; [reflexivity|]. apply Qle_bool_iff. exact H.
  - right. split; [reflexivity|]. apply Qlt_le_weak. apply Qnot_le_lt.
    intros Hle. apply Qle_bool_iff in Hle. congruence.
Qed.

Lemma maximum_num (x y : Qc) :
  (MinMaxPy.maximum (MinMaxPy.Num x) (MinMaxPy.Num y) = MinMaxPy.Num x /\ y <= x)
  \/ (MinMaxPy.maximum (MinMaxPy.Num x) (MinMaxPy.Num y) = MinMaxPy.Num y /\ x <= y).
Proof.
  unfold MinMaxPy.maximum. cbn [MinMaxPy.leb MinMaxPy.is_nan MinMaxPy.ext_ord MinMaxPy.ext_leb].
  rewrite orb_false_r. destruct (Qle_bool y x) eqn:H.
  - left. split; [reflexivity|]. apply Qle_bool_iff. exact H.
  - right. split; [reflexivity|]. apply Qlt_le_weak. apply Qnot_le_lt.
    intros Hle. apply Qle_bool_iff in Hle. congruence.
Qed.

Lemma minimum_id (q : Qc) : MinMaxPy.minimum MinMaxPy.PosInf (MinMaxPy.Num q) = MinMaxPy.Num q.
Proof. reflexivity. Qed.

Lemma maximum_id (q : Qc) : MinMaxPy.maximum MinMaxPy.NegInf (MinMaxPy.Num q) = MinMaxPy.Num q.
Proof. reflexivity. Qed.

Lemma npmin_cons (x : MinMaxPy.ext) (r : list MinMaxPy.ext) :
  MinMaxPy.npmin (x :: r) = fold_left MinMaxPy.minimum r x.
Proof. reflexivity. Qed.

Lemma npmax_cons (x : MinMaxPy.ext) (r : list MinMaxPy.ext) :
  MinMaxPy.npmax (x :: r) = fold_left MinMaxPy.maximum r x.
Proof. reflexivity. Qed.

(** X26. The minimum and the maximum of an array of numbers, whatever the
    memory budget: the results have one value for each output position;
    at a position into which at least one value is reduced, the minimum is
    one of those values and is below or equal to all of them, the maximum
    is one of them and above or equal to all of them; at a position into
    which nothing is reduced they are the initial +inf and -inf. *)
Theorem min_max_exact (qrows : list (list Qc)) (budget p : nat) (row : list Qc) :
  nth_error qrows p = Some row ->
  length (MinMaxPy.min budget (map (map MinMaxPy.Num) qrows)) = length qrows
  /\ length (MinMaxPy.max budget (map (map MinMaxPy.Num) qrows)) = length qrows
  /\ exists lo hi,
       nth_error (MinMaxPy.min budget (map (map MinMaxPy.Num) qrows)) p = Some lo
       /\ extreme_of Qcle MinMaxPy.PosInf lo row
       /\ nth_error (MinMaxPy.max budget (map (map MinMaxPy.Num) qrows)) p = Some hi
       /\ extreme_of (fun a b => b <= a) MinMaxPy.NegInf hi row.
Proof.
  intros Hrow. unfold MinMaxPy.min, MinMaxPy.max, MinMaxPy.MinVar_getview, MinMaxPy.MaxVar_getview.
  rewrite length_map.
  destruct (accumulate_loopover MinMaxPy.minimum MinMaxPy.npmin
              (repeat MinMaxPy.pos_inf (length qrows)) budget (map (map MinMaxPy.Num) qrows))
    as [Hlmin Hmin].
  destruct (accumulate_loopover MinMaxPy.maximum MinMaxPy.npmax
              (repeat MinMaxPy.neg_inf (length qrows)) budget (map (map MinMaxPy.Num) qrows))
    as [Hlmax Hmax].
  rewrite Hlmin, Hlmax, !repeat_length. split; [reflexivity|]. split; [reflexivity|].
  assert (Hp : (p < length qrows)%nat) by (apply nth_error_Some; congruence).
  assert (Hnth : nth p (map (map MinMaxPy.Num) qrows) [] = map MinMaxPy.Num row).
  { apply nth_error_nth. rewrite nth_error_map, Hrow. reflexivity. }
  rewrite Hmin, Hmax, Hnth, loop_mem_map, !nth_error_repeat by exact Hp.
  cbn [option_map]. eexists. eexists. split; [reflexivity|]. split; [|split; [reflexivity|]].
  - rewrite <- (loop_mem_concat budget row) at 2.
    apply (@fold_pieces_extreme Qcle MinMaxPy.PosInf MinMaxPy.minimum MinMaxPy.npmin
             Qcle_refl Qcle_trans minimum_id minimum_num npmin_cons
             (loop_mem budget row) [] MinMaxPy.PosInf).
    + apply loop_mem_nonempty.
    + reflexivity.
  - rewrite <- (loop_mem_concat budget row) at 2.
    apply (@fold_pieces_extreme (fun a b => b <= a) MinMaxPy.NegInf MinMaxPy.maximum
             MinMaxPy.npmax
             Qcle_refl (fun x y z Hxy Hyz => Qcle_trans z y x Hyz Hxy)
             maximum_id maximum_num npmax_cons
             (loop_mem budget row) [] MinMaxPy.NegInf).
    + apply loop_mem_nonempty.
    + reflexivity.
Qed.

Lemma min_max_exact_witness :
  length (MinMaxPy.min 1 (map (map MinMaxPy.Num) [[1; 0; 1 + 1]; []])) = length [[1; 0; 1 + 1]; []]
  /\ length (MinMaxPy.max 1 (map (map MinMaxPy.Num) [[1; 0; 1 + 1]; []]))
     = length [[1; 0; 1 + 1]; []]
  /\ exists lo hi,
       nth_error (MinMaxPy.min 1 (map (map MinMaxPy.Num) [[1; 0; 1 + 1]; []])) 0 = Some lo
       /\ extreme_of Qcle MinMaxPy.PosInf lo [1; 0; 1 + 1]
       /\ nth_error (MinMaxPy.max 1 (map (map MinMaxPy.Num) [[1; 0; 1 + 1]; []])) 0 = Some hi
       /\ extreme_of (fun a b => b <= a) MinMaxPy.NegInf hi [1; 0; 1 + 1].
Proof.
  apply (@min_max_exact [[1; 0; 1 + 1]; []] 1 0 [1; 0; 1 + 1]). reflexivity.
Defined.

Section NanExtremum.
Variable pick : MinMaxPy.ext -> MinMaxPy.ext -> MinMaxPy.ext.
Variable g : list MinMaxPy.ext -> MinMaxPy.ext.
Hypothesis pick_nan_l : forall x, pick MinMaxPy.ENaN x = MinMaxPy.ENaN.
Hypothesis pick_nan_r : forall x, pick x MinMaxPy.ENaN = MinMaxPy.ENaN.
Hypothesis g_cons : forall x r, g (x :: r) = fold_left pick r x.

Lemma fold_pick_nan (r : list MinMaxPy.ext) :
  fold_left pick r MinMaxPy.ENaN = MinMaxPy.ENaN.
Proof. induction r as [|y r IH]; [reflexivity|]. cbn [fold_left]. rewrite pick_nan_l. exact IH. Qed.

Lemma fold_pick_in_nan (r : list MinMaxPy.ext) (x : MinMaxPy.ext) :
  In MinMaxPy.ENaN (x :: r) -> fold_left pick r x = MinMaxPy.ENaN.
Proof.
  revert x. induction r as [|y r IH]; intros x [Hx|Hr].
  - exact Hx.
  - destruct Hr.
  - subst x. apply fold_pick_nan.
  - cbn [fold_left]. destruct Hr as [Hy|Hr].
    + subst y. rewrite pick_nan_r. apply fold_pick_nan.
    + apply IH. right. exact Hr.
Qed.

Lemma g_in_nan (piece : list MinMaxPy.ext) :
  In MinMaxPy.ENaN piece -> g piece = MinMaxPy.ENaN.
Proof.
  destruct piece as [|x r]; [intros []|]. intros H. rewrite g_cons.
  apply fold_pick_in_nan. exact H.
Qed.

Lemma fold_pieces_nan (pieces : list (list MinMaxPy.ext)) (acc : MinMaxPy.ext) :
  In MinMaxPy.ENaN (concat pieces) ->
  fold_left pick (map g pieces) acc = MinMaxPy.ENaN.
Proof.
  revert acc. induction pieces as [|P pieces IH]; intros acc H; [destruct H|].
  cbn [concat] in H. cbn [map fold_left]. apply in_app_or in H. destruct H as [H|H].
  - rewrite (g_in_nan P H), pick_nan_r. apply fold_pick_nan.
  - apply IH. exact H.
Qed.

End NanExtremum.

Lemma minimum_nan_l (x : MinMaxPy.ext) : MinMaxPy.minimum MinMaxPy.ENaN x = MinMaxPy.ENaN.
Proof. reflexivity. Qed.

Lemma minimum_nan_r (x : MinMaxPy.ext) : MinMaxPy.minimum x MinMaxPy.ENaN = MinMaxPy.ENaN.
Proof. destruct x; reflexivity. Qed.

Lemma maximum_nan_l (x : MinMaxPy.ext) : MinMaxPy.maximum MinMaxPy.ENaN x = MinMaxPy.ENaN.
Proof. unfold MinMaxPy.maximum. cbn [MinMaxPy.is_nan MinMaxPy.ext_ord]. apply orb_true_r || (rewrite orb_true_r; reflexivity). Qed.

Lemma maximum_nan_r (x : MinMaxPy.ext) : MinMaxPy.maximum x MinMaxPy.ENaN = MinMaxPy.ENaN.
Proof. destruct x; reflexivity. Qed.

(** X27. The minimum and the maximum are not NaN-aware: one NaN among the
    values reduced into an output position makes both NaN there, wherever
    it stands and whatever the memory budget by which the array is
    streamed. *)
Theorem min_max_propagate_nan (arr : list (list MinMaxPy.ext)) (budget p : nat)
    (row : list MinMaxPy.ext) :
  nth_error arr p = Some row ->
  In MinMaxPy.ENaN row ->
  nth_error (MinMaxPy.min budget arr) p = Some MinMaxPy.ENaN
  /\ nth_error (MinMaxPy.max budget arr) p = Some MinMaxPy.ENaN.
Proof.
  intros Hrow Hnan.
  unfold MinMaxPy.min, MinMaxPy.max, MinMaxPy.MinVar_getview, MinMaxPy.MaxVar_getview.
  assert (Hp : (p < length arr)%nat) by (apply nth_error_Some; congruence).
  assert (Hnth : nth p arr [] = row) by (apply nth_error_nth; exact Hrow).
  assert (Hin : In MinMaxPy.ENaN (concat (loop_mem budget row)))
    by (rewrite loop_mem_concat; exact Hnan).
  rewrite (proj2 (accumulate_loopover MinMaxPy.minimum MinMaxPy.npmin _ budget arr)).
  rewrite (proj2 (accumulate_loopover MinMaxPy.maximum MinMaxPy.npmax _ budget arr)).
  rewrite Hnth, !nth_error_repeat by exact Hp. cbn [option_map]. split; f_equal.
  - exact (@fold_pieces_nan MinMaxPy.minimum MinMaxPy.npmin minimum_nan_l minimum_nan_r
             npmin_cons (loop_mem budget row) _ Hin).
  - exact (@fold_pieces_nan MinMaxPy.maximum MinMaxPy.npmax maximum_nan_l maximum_nan_r
             npmax_cons (loop_mem budget row) _ Hin).
Qed.

Lemma min_max_propagate_nan_witness :
  nth_error (MinMaxPy.min 1 [[MinMaxPy.Num 1; MinMaxPy.ENaN; MinMaxPy.NegInf]]) 0
    = Some MinMaxPy.ENaN
  /\ nth_error (MinMaxPy.max 1 [[MinMaxPy.Num 1; MinMaxPy.ENaN; MinMaxPy.NegInf]]) 0
     = Some MinMaxPy.ENaN.
Proof.
  apply (@min_max_propagate_nan [[MinMaxPy.Num 1; MinMaxPy.ENaN; MinMaxPy.NegInf]] 1 0
           [MinMaxPy.Num 1; MinMaxPy.ENaN; MinMaxPy.NegInf]).
  - reflexivity.
  - simpl. right. left. reflexivity.
Defined.

(** ** reduce.py: construction of the weighted reductions *)

Import WeightedPy.

Lemma In_not_in_indices {Axis : Type} (idx : list nat) (a : Axis) (axs : list Axis) (s : nat) :
  In a (not_in_indices idx s axs)
  <-> exists k, nth_error axs k = Some a /\ existsb (Nat.eqb (s + k)) idx = false.
Proof.
  revert s. induction axs as [|x axs IH]; intros s; cbn [not_in_indices].
  - split; [intros [] | intros (k & Hk & _); destruct k; discriminate].
  - destruct (existsb (Nat.eqb s) idx) eqn:Hs.
    + rewrite IH. split.
      * intros (k & Hk & He). exists (S k). split; [exact Hk|].
        rewrite Nat.add_succ_r. exact He.
      * intros ([|k] & Hk & He).
        -- rewrite Nat.add_0_r in He. congruence.
        -- exists k. split; [exact Hk|]. rewrite Nat.add_succ_r in He. exact He.
    + cbn [In]. rewrite IH. split.
      * intros [->|(k & Hk & He)].
        -- exists 0%nat. split; [reflexivity|]. rewrite Nat.add_0_r. exact Hs.
        -- exists (S k). split; [exact Hk|]. rewrite Nat.add_succ_r. exact He.
      * intros ([|k] & Hk & He).
        -- left. cbn in Hk. congruence.
        -- right. exists k. split; [exact Hk|]. rewrite Nat.add_succ_r in He. exact He.
Qed.

Lemma axis_eqb_eq (a b : axis) : axis_eqb a b = true <-> a = b.
Proof.
  destruct a as [n c l], b as [n' c' l']. cbn. rewrite !andb_true_iff.
  rewrite String.eqb_eq, Nat.eqb_eq. split.
  - intros [[-> Hc] ->]. destruct c, c'; try discriminate; reflexivity.
  - intros H. injection H as -> -> ->. repeat split. destruct c'; reflexivity.
Qed.

(** X28. The weighted reductions accept their weights exactly when the
    weights are defined on reduced axes: for a variable whose axes are
    pairwise different, with [==] on axes deciding equality, the
    constructor succeeds, with the node of [ReducedVar.__init__], when
    every axis of the weights is one of the axes being reduced, and
    otherwise fails with the AssertionError 'The provided weights do not
    match the reduced axes'. *)
Theorem Weighted_init_accepts {Axis Cls : Type} {AL : AxisLike Axis Cls} {A : Type}
    (v : Var A) (ids : list (pyarg Axis Cls)) (waxes : list Axis) (r : ReducedVar) :
  (forall a b : Axis, axis_eqb a b = true <-> a = b) ->
  NoDup (axes v) ->
  ReducedVar_init v ids = Ok r ->
  Weighted_init v ids waxes =
    if forallb (fun w => existsb (fun i => match nth_error (axes v) i with
                                           | Some a => axis_eqb w a
                                           | None => false
                                           end) (indices r)) waxes
    then Ok r
    else Raise (AssertionError "The provided weights do not match the reduced axes").
Proof.
  intros Heq Hnd Hinit. unfold Weighted_init. rewrite Hinit. cbn [bind].
  assert (Hr : axes (self r) = not_in_indices (indices r) 0 (axes v)).
  { unfold ReducedVar_init in Hinit.
    destruct (mapM (whichaxis (axes v)) ids) as [idx|]; cbn [bind] in Hinit; [|discriminate].
    destruct (length (np_sort idx) =? 0)%nat; [discriminate|].
    injection Hinit as <-. reflexivity. }
  rewrite Hr.
  assert (Hin : forall a axs, axis_in a axs = true <-> In a axs).
  { intros a axs. unfold axis_in. rewrite existsb_exists. split.
    - intros (x & Hx & He). apply Heq in He. subst x. exact Hx.
    - intros Ha. exists a. split; [exact Ha | apply Heq; reflexivity]. }
  assert (Hw : forall w,
             axis_in w (filter (fun a => negb (axis_in a (not_in_indices (indices r) 0 (axes v))))
                               (axes v))
             = existsb (fun i => match nth_error (axes v) i with
                                 | Some a => axis_eqb w a
                                 | None => false
                                 end) (indices r)).
  { intros w. apply eq_true_iff_eq. rewrite Hin, filter_In, negb_true_iff, existsb_exists.
    split.
    - intros [Hwv Hnot]. apply In_nth_error in Hwv. destruct Hwv as (i & Hi).
      exists i. rewrite Hi. split; [|apply Heq; reflexivity].
      destruct (existsb (Nat.eqb i) (indices r)) eqn:He.
      + apply existsb_exists in He. destruct He as (i' & Hi' & He).
        apply Nat.eqb_eq in He. subst i'. exact Hi'.
      + exfalso. assert (Hk : In w (not_in_indices (indices r) 0 (axes v))).
        { apply In_not_in_indices. exists i. split; [exact Hi | exact He]. }
        apply Hin in Hk. congruence.
    - intros (i & Hi & He). destruct (nth_error (axes v) i) as [a|] eqn:Ha; [|discriminate].
      apply Heq in He. subst a. split; [eapply nth_error_In; exact Ha|].
      destruct (axis_in w (not_in_indices (indices r) 0 (axes v))) eqn:Hk; [|reflexivity].
      exfalso. apply Hin in Hk. apply In_not_in_indices in Hk.
      destruct Hk as (k & Hk & Hnot). cbn [Nat.add] in Hnot.
      assert (k = i).
      { apply (proj1 (NoDup_nth_error (axes v)) Hnd).
        - apply nth_error_Some. congruence.
        - congruence. }
      subst k.
      assert (Ht : existsb (Nat.eqb i) (indices r) = true).
      { apply existsb_exists. exists i. split; [exact Hi | apply Nat.eqb_refl]. }
      congruence. }
  assert (Hf : forall ws,
             forallb (fun a => axis_in a
                        (filter (fun a0 => negb (axis_in a0
                                   (not_in_indices (indices r) 0 (axes v)))) (axes v))) ws
             = forallb (fun w => existsb (fun i => match nth_error (axes v) i with
                                                   | Some a => axis_eqb w a
                                                   | None => false
                                                   end) (indices r)) ws).
  { induction ws as [|w ws IH]; [reflexivity|]. cbn [forallb]. rewrite Hw, IH. reflexivity. }
  rewrite Hf. reflexivity.
Qed.

Lemma Weighted_init_accepts_witness :
  Weighted_init Temp [PStr "lon"] [lon] =
    if forallb (fun w => existsb (fun i => match nth_error (axes Temp) i with
                                           | Some a => axis_eqb w a
                                           | None => false
                                           end)
                                 (indices (mkReduced (mkVar [lat] float64 "Temp" None) 64 Temp
                                                     [1%nat] [lat; lon]))) [lon]
    then Ok (mkReduced (mkVar [lat] float64 "Temp" None) 64 Temp [1%nat] [lat; lon])
    else Raise (AssertionError "The provided weights do not match the reduced axes").
Proof.
  apply (@Weighted_init_accepts axis axis_class axis_like (list float) Temp [PStr "lon"] [lon]).
  - exact axis_eqb_eq.
  - repeat constructor; simpl; [intros [H|[]]; discriminate | intros []].
  - reflexivity.
Defined.

(** ** var.py: loading a variable *)

Import VarLoad.

(** X29. Loading a variable: the result holds values and keeps the axes
    and the name; loading it again gives it back unchanged; and a
    reduction of it over axes that [__init__] accepts is evaluated right
    away, the call returning the loaded result and never a lazy node. *)
Theorem Var_load_then_reduce {Axis Cls : Type} {AL : AxisLike Axis Cls} {A : Type}
    (get : Var A -> A) (dtype_of : A -> dtype)
    (getr : ReducedVar -> A)
    (v : Var A) (ids : list (pyarg Axis Cls)) (r : ReducedVar) :
  ids <> [] ->
  ReducedVar_init (Var_load get dtype_of v) ids = Ok r ->
  hasattr_values (Var_load get dtype_of v) = true
  /\ axes (Var_load get dtype_of v) = axes v
  /\ name (Var_load get dtype_of v) = name v
  /\ Var_load get dtype_of (Var_load get dtype_of v) = Var_load get dtype_of v
  /\ ReducedVar_new getr dtype_of (Var_load get dtype_of v) ids
     = Ok (Loaded (load getr dtype_of r))
  /\ hasattr_values (load getr dtype_of r) = true
  /\ axes (load getr dtype_of r) = axes (self r).
Proof.
  intros Hne Hinit.
  assert (Hv : hasattr_values (Var_load get dtype_of v) = true).
  { unfold Var_load. destruct (hasattr_values v) eqn:Hh; [exact Hh | reflexivity]. }
  split; [exact Hv|].
  split; [unfold Var_load; destruct (hasattr_values v); reflexivity|].
  split; [unfold Var_load; destruct (hasattr_values v); reflexivity|].
  split; [unfold Var_load at 1; rewrite Hv; reflexivity|].
  split; [|split; reflexivity].
  unfold ReducedVar_new. destruct ids as [|i ids]; [contradiction|].
  cbn [length Nat.eqb]. rewrite Hv, Hinit. reflexivity.
Qed.

Lemma Var_load_then_reduce_witness :
  hasattr_values (Var_load (fun _ => [1%float; 2%float]) (fun _ => float64) v_lazy) = true
  /\ axes (Var_load (fun _ => [1%float; 2%float]) (fun _ => float64) v_lazy) = axes v_lazy
  /\ name (Var_load (fun _ => [1%float; 2%float]) (fun _ => float64) v_lazy) = name v_lazy
  /\ Var_load (fun _ => [1%float; 2%float]) (fun _ => float64)
       (Var_load (fun _ => [1%float; 2%float]) (fun _ => float64) v_lazy)
     = Var_load (fun _ => [1%float; 2%float]) (fun _ => float64) v_lazy
  /\ ReducedVar_new sum_get (fun _ => float64)
       (Var_load (fun _ => [1%float; 2%float]) (fun _ => float64) v_lazy) [PInt 0]
     = Ok (Loaded (load sum_get (fun _ => float64)
                     (mkReduced (mkVar [] float64 "x" None) 2 v_mem [0%nat] [pt])))
  /\ hasattr_values (load sum_get (fun _ => float64)
                       (mkReduced (mkVar [] float64 "x" None) 2 v_mem [0%nat] [pt])) = true
  /\ axes (load sum_get (fun _ => float64)
             (mkReduced (mkVar [] float64 "x" None) 2 v_mem [0%nat] [pt]))
     = axes (self (mkReduced (mkVar [] float64 "x" None) 2 v_mem [0%nat] [pt])).
Proof.
  apply (@Var_load_then_reduce axis axis_class axis_like (list float)
           (fun _ => [1%float; 2%float]) (fun _ => float64) sum_get v_lazy [PInt 0]).
  - discriminate.
  - reflexivity.
Defined.

(** ** reduce.py: means taken in two steps *)






